(** * whatsapp-me: reply correlation, webhook gate and conversation registry

    A shallow embedding of the server core of whatsapp-me
    (src/server/src/webhook-security.ts, message-manager.ts, index.ts,
    and the provider factory and the Meta provider under providers/),
    the properties of it that the specification states, and further
    properties of the code. *)

From Stdlib Require Import ZArith Lia Ascii String List Bool.
From Stdlib Require DecimalString DecimalPos DecimalN.
From stdpp Require Import base option list gmap strings.

Local Open Scope Z_scope.

(* ===================================================================== *)
(** ** Byte strings

    JavaScript strings are modelled by [string] (a list of 8-bit
    characters) read as the UTF-8 encoding: the header prefix, the hex
    digits and the decimal digits the code inspects are all ASCII, and
    every non-ASCII character is made of bytes >= 0x80, which none of the
    character tests below accepts. *)

Definition bytes_of_string (s : string) : list Z :=
  map (fun c => Z.of_N (N_of_ascii c)) (list_ascii_of_string s).

(** [s.startsWith(p)] *)
Fixpoint startsWith (s p : string) {struct p} : bool :=
  match p with
  | EmptyString => true
  | String c p' =>
      match s with
      | EmptyString => false
      | String d s' => if Ascii.eqb c d then startsWith s' p' else false
      end
  end.

(** [s.substring(n)] for [0 <= n]: the characters from index [n] on. *)
Fixpoint substring_from (n : nat) (s : string) : string :=
  match n with
  | O => s
  | S n' => match s with
            | EmptyString => EmptyString
            | String _ s' => substring_from n' s'
            end
  end.

(* ===================================================================== *)
(** ** SHA-256 and HMAC (Node's [createHmac('sha256', key)]) *)

Module SHA256.

Definition w32 (x : Z) : Z := x mod 2^32.
Definition add32 (x y : Z) : Z := w32 (x + y).
Definition rotr (n x : Z) : Z :=
  w32 (Z.lor (Z.shiftr x n) (Z.shiftl x (32 - n))).
Definition shr (n x : Z) : Z := Z.shiftr x n.

Definition Ch (x y z : Z) : Z :=
  Z.lxor (Z.land x y) (Z.land (w32 (Z.lnot x)) z).
Definition Maj (x y z : Z) : Z :=
  Z.lxor (Z.lxor (Z.land x y) (Z.land x z)) (Z.land y z).
Definition Sigma0 (x : Z) : Z := Z.lxor (Z.lxor (rotr 2 x) (rotr 13 x)) (rotr 22 x).
Definition Sigma1 (x : Z) : Z := Z.lxor (Z.lxor (rotr 6 x) (rotr 11 x)) (rotr 25 x).
Definition sigma0 (x : Z) : Z := Z.lxor (Z.lxor (rotr 7 x) (rotr 18 x)) (shr 3 x).
Definition sigma1 (x : Z) : Z := Z.lxor (Z.lxor (rotr 17 x) (rotr 19 x)) (shr 10 x).

(** The round constants are the first 32 bits of the fractional parts of
    the cube roots of the first 64 primes, the initial hash value those of
    the square roots of the first 8 primes (FIPS 180-4, 4.2.2 and 5.3.3). *)
Definition divides_none (n : Z) (ps : list Z) : bool :=
  forallb (fun p => negb (n mod p =? 0)) ps.

Fixpoint primes_from (fuel count : nat) (n : Z) (found : list Z) : list Z :=
  match fuel, count with
  | S fuel', S count' =>
      if divides_none n found
      then primes_from fuel' count' (n + 1) (found ++ [n])
      else primes_from fuel' count (n + 1) found
  | _, _ => found
  end.

Definition first_primes (count : nat) : list Z := primes_from 400 count 2 [].

(** The largest [r] below [2^bit] (added to the start value) with
    [power r <= n], found bit by bit. *)
Fixpoint iroot (power : Z -> Z) (bit : nat) (n r : Z) : Z :=
  match bit with
  | O => r
  | S bit' =>
      let r' := r + 2 ^ Z.of_nat bit' in
      iroot power bit' n (if power r' <=? n then r' else r)
  end.

Definition fraction_bits (power : Z -> Z) (scale : Z) (p : Z) : Z :=
  w32 (iroot power 40 (p * 2 ^ scale) 0).

Definition K : list Z :=
  Eval vm_compute in map (fraction_bits (fun r => r * r * r) 96) (first_primes 64).

Definition H0 : list Z :=
  Eval vm_compute in map (fraction_bits (fun r => r * r) 64) (first_primes 8).

(** Big-endian encoding of [x] on [n] bytes. *)
Fixpoint be_bytes (n : nat) (x : Z) : list Z :=
  match n with
  | O => []
  | S n' => (Z.shiftr x (8 * Z.of_nat n')) mod 256 :: be_bytes n' x
  end.

Fixpoint be_words (bs : list Z) : list Z :=
  match bs with
  | a :: b :: c :: d :: rest =>
      (Z.shiftl a 24 + Z.shiftl b 16 + Z.shiftl c 8 + d) :: be_words rest
  | _ => []
  end.

Definition pad (msg : list Z) : list Z :=
  let len := Z.of_nat (length msg) in
  let zeros := Z.to_nat ((55 - len) mod 64) in
  msg ++ [0x80] ++ repeat 0 zeros ++ be_bytes 8 (8 * len).

Fixpoint blocks (fuel : nat) (bs : list Z) : list (list Z) :=
  match fuel with
  | O => []
  | S f => match bs with
           | [] => []
           | _ => firstn 64 bs :: blocks f (skipn 64 bs)
           end
  end.

Definition nthZ (l : list Z) (i : nat) : Z := nth i l 0.

Fixpoint extend (n : nat) (w : list Z) : list Z :=
  match n with
  | O => w
  | S n' =>
      let t := length w in
      let x := add32 (add32 (sigma1 (nthZ w (t - 2))) (nthZ w (t - 7)))
                     (add32 (sigma0 (nthZ w (t - 15))) (nthZ w (t - 16))) in
      extend n' (w ++ [x])
  end.

Definition schedule (block : list Z) : list Z := extend 48 (be_words block).

Definition round (st : list Z) (kw : Z * Z) : list Z :=
  match st with
  | [a; b; c; d; e; f; g; h] =>
      let t1 := add32 (add32 (add32 h (Sigma1 e)) (add32 (Ch e f g) (fst kw))) (snd kw) in
      let t2 := add32 (Sigma0 a) (Maj a b c) in
      [add32 t1 t2; a; b; c; add32 d t1; e; f; g]
  | _ => st
  end.

Definition compress (h : list Z) (block : list Z) : list Z :=
  let st := fold_left round (combine K (schedule block)) h in
  map (fun p => add32 (fst p) (snd p)) (combine h st).

Definition digest (msg : list Z) : list Z :=
  let p := pad msg in
  concat (map (be_bytes 4) (fold_left compress (blocks (length p) p) H0)).

Definition xor_pad (c : Z) (key : list Z) : list Z := map (Z.lxor c) key.

(** HMAC (RFC 2104) with block size 64. *)
Definition hmac (key msg : list Z) : list Z :=
  let k0 := if Nat.ltb 64 (length key) then digest key else key in
  let k := k0 ++ repeat 0 (64 - length k0) in
  digest (xor_pad 0x5c k ++ digest (xor_pad 0x36 k ++ msg)).

End SHA256.

(* ===================================================================== *)
(** ** Hex encoding and decoding *)

Definition hex_digit (n : Z) : ascii :=
  ascii_of_N (Z.to_N (if n <? 10 then 48 + n else 87 + n)).

(** [.digest('hex')]: two lowercase hex digits per byte. *)
Fixpoint hex_encode (bs : list Z) : string :=
  match bs with
  | [] => EmptyString
  | b :: rest =>
      String (hex_digit (b / 16)) (String (hex_digit (b mod 16)) (hex_encode rest))
  end.

(** Value of a hex digit, in either letter case. *)
Definition unhex (c : ascii) : option Z :=
  let n := Z.of_N (N_of_ascii c) in
  if (48 <=? n) && (n <=? 57) then Some (n - 48)
  else if (97 <=? n) && (n <=? 102) then Some (n - 87)
  else if (65 <=? n) && (n <=? 70) then Some (n - 55)
  else None.

(** [Buffer.from(s, 'hex')]: decodes pairs of hex digits and stops at the
    first pair that is not two hex digits; a trailing single digit is
    dropped. *)
Fixpoint hex_decode (s : string) : list Z :=
  match s with
  | String a (String b rest) =>
      match unhex a, unhex b with
      | Some x, Some y => (16 * x + y) :: hex_decode rest
      | _, _ => []
      end
  | _ => []
  end.

(* ===================================================================== *)
(** ** webhook-security.ts *)

(** The loop of [timingSafeEqual]: [result |= a[i] ^ b[i]]. *)
Fixpoint xor_accumulate (result : Z) (a b : list Z) : Z :=
  match a, b with
  | x :: a', y :: b' => xor_accumulate (Z.lor result (Z.lxor x y)) a' b'
  | _, _ => result
  end.

Definition timingSafeEqual (a b : list Z) : bool :=
  if negb (Nat.eqb (length a) (length b)) then false
  else xor_accumulate 0 a b =? 0.

Definition createHmac_sha256_hex (appSecret body : string) : string :=
  hex_encode (SHA256.hmac (bytes_of_string appSecret) (bytes_of_string body)).

Definition sha256_prefix : string := "sha256=".

(** [signature] is [None] when the header is absent ([undefined]). *)
Definition validateMetaWhatsAppSignature
    (appSecret : string) (signature : option string) (body : string) : bool :=
  match signature with
  | None => false
  | Some EmptyString => false
  | Some sig =>
      if negb (startsWith sig sha256_prefix) then false
      else
        let receivedSignature := substring_from 7 sig in
        let expectedSignature := createHmac_sha256_hex appSecret body in
        timingSafeEqual (hex_decode receivedSignature) (hex_decode expectedSignature)
  end.

(** The header the provider sends for body [B] under secret [S]. *)
Definition valid_header (S B : string) : string :=
  String.append sha256_prefix (createHmac_sha256_hex S B).

(** Replace the character at index [i] of [s] by [c]. *)
Fixpoint set_char (i : nat) (c : ascii) (s : string) : string :=
  match s with
  | EmptyString => EmptyString
  | String d s' =>
      match i with
      | O => String c s'
      | S i' => String d (set_char i' c s')
      end
  end.

Definition is_lower_hex_letter (d : ascii) : bool :=
  let n := Z.of_N (N_of_ascii d) in (97 <=? n) && (n <=? 102).

Definition to_upper (d : ascii) : ascii :=
  ascii_of_N (N_of_ascii d - 32).

Definition byte_range (bs : list Z) : Prop := Forall (fun b => 0 <= b < 256) bs.

(** Character code. *)
Definition code (c : ascii) : Z := Z.of_N (N_of_ascii c).

(* ===================================================================== *)
(** ** JavaScript values

    Numbers are IEEE doubles; the code only tests them for truthiness,
    uses them as [Map] keys, prints them, and stores them as timestamps,
    so they are kept abstract behind this interface. *)

Class JSNumber := {
  Number : Type;
  (** [ToBoolean]: false for [0], [-0] and [NaN]. *)
  number_truthy : Number -> bool;
  (** [SameValueZero], the key equality of [Map]. *)
  number_sameValueZero : Number -> Number -> bool;
  (** [`${n}`] *)
  number_toString : Number -> string;
  (** The literal [3600000]. *)
  number_3600000 : Number
}.

(** What the engine can fault on in this code: reading a property of
    [undefined] or of [null], calling a method the value does not have,
    iterating what is not iterable, converting to a primitive an object
    whose [toString] and [valueOf] give none, parsing a text that is not
    JSON or a request target that is not a URL, printing an invalid
    date. *)
Inductive Fault : Type :=
  | ReadOfUndefined (name : string)
  | ReadOfNull (name : string)
  | NotAFunction (callee : string)
  | NotIterable
  | NotPrimitive
  | InvalidJSON
  | InvalidURL
  | InvalidTime.

(** An error the engine raised on a fault (a [TypeError], or the
    [SyntaxError] of [JSON.parse] and the [RangeError] of [toISOString]),
    or an error object with the given [message]: [new Error(message)],
    or an error that came from outside. *)
Inductive JSError : Type :=
  | Raised (fault : Fault)
  | Error (message : string).

Inductive Result (A : Type) : Type :=
  | Ok (a : A)
  | Throw (e : JSError).
Arguments Ok {A} a.
Arguments Throw {A} e.

Section Values.
Context `{JSNumber}.

(** What [JSON.parse] returns, plus [undefined] (the value of an absent
    property). An object is the list of its own properties, keys unique. *)
#[warnings="-register-all"] Inductive JSValue : Type :=
  | JUndefined
  | JNull
  | JBool (b : bool)
  | JNum (n : Number)
  | JString (s : string)
  | JArray (items : list JSValue)
  | JObject (props : list (string * JSValue)).

Fixpoint lookup_prop (name : string) (props : list (string * JSValue)) : JSValue :=
  match props with
  | [] => JUndefined
  | (k, v) :: rest => if String.eqb k name then v else lookup_prop name rest
  end.

(** [v.name]: a fault on [null] and [undefined]; none of the names
    the code reads exists on the prototypes of objects, booleans, numbers,
    strings or arrays, so the access yields the own property of an object
    and [undefined] elsewhere. *)
Definition get_prop (v : JSValue) (name : string) : Result JSValue :=
  match v with
  | JUndefined => Throw (Raised (ReadOfUndefined name))
  | JNull => Throw (Raised (ReadOfNull name))
  | JObject props => Ok (lookup_prop name props)
  | _ => Ok JUndefined
  end.

(** [v?.name] *)
Definition get_prop_opt (v : JSValue) (name : string) : JSValue :=
  match v with
  | JObject props => lookup_prop name props
  | _ => JUndefined
  end.

Definition string_truthy (s : string) : bool :=
  match s with EmptyString => false | _ => true end.

Definition truthy (v : JSValue) : bool :=
  match v with
  | JUndefined | JNull => false
  | JBool b => b
  | JNum n => number_truthy n
  | JString s => string_truthy s
  | JArray _ | JObject _ => true
  end.

(** [v === 'literal'] *)
Definition strict_eq_string (v : JSValue) (lit : string) : bool :=
  match v with
  | JString s => String.eqb s lit
  | _ => false
  end.

(** The elements a [for ... of] loop visits: arrays and strings are
    iterable (a string yields its characters, each a one-character string
    on which every property the code reads is [undefined]), anything else
    raises. *)
Definition iterate (v : JSValue) : Result (list JSValue) :=
  match v with
  | JArray items => Ok items
  | JString s => Ok (map (fun c => JString (String c EmptyString)) (list_ascii_of_string s))
  | _ => Throw (Raised NotIterable)
  end.

(** [v || []] *)
Definition or_empty_array (v : JSValue) : JSValue :=
  if truthy v then v else JArray [].

(** [receiver.method(...)] for a method of strings, [substring] or
    [replace], where [v] is the value of [receiver]: a fault unless [v] is
    a string. *)
Definition as_string (receiver method : string) (v : JSValue) : Result string :=
  match v with
  | JString s => Ok s
  | JUndefined => Throw (Raised (ReadOfUndefined method))
  | JNull => Throw (Raised (ReadOfNull method))
  | _ => Throw (Raised (NotAFunction (String.append receiver (String.append "." method))))
  end.

(** Whether [props] has an own property [name]. *)
Definition has_own (name : string) (props : list (string * JSValue)) : bool :=
  existsb (fun p => String.eqb (fst p) name) props.

(** Whether the conversion of [v] to a primitive raises, as needed by a
    template literal, by [parseInt] and by unary minus. A value that
    [JSON.parse] returned holds no function, so an object converts
    through [Object.prototype.toString] unless it has an own property
    [toString], which is then not callable and leaves it with the
    inherited [valueOf], which returns the object itself. An array
    converts through [join], which converts each element that is not
    [null] or [undefined]. *)
Fixpoint ToPrimitive_throws (v : JSValue) : bool :=
  match v with
  | JObject props => has_own "toString" props
  | JArray items => existsb ToPrimitive_throws items
  | _ => false
  end.

Definition ToPrimitive (v : JSValue) : Result unit :=
  if ToPrimitive_throws v then Throw (Raised NotPrimitive) else Ok tt.

(** [Map] key equality. Arrays and objects are compared by identity, and
    every array or object that reaches a [Map] here was freshly created by
    [JSON.parse], so it equals no earlier key. *)
Definition sameValueZero (a b : JSValue) : bool :=
  match a, b with
  | JUndefined, JUndefined => true
  | JNull, JNull => true
  | JBool x, JBool y => Bool.eqb x y
  | JNum x, JNum y => number_sameValueZero x y
  | JString x, JString y => String.eqb x y
  | _, _ => false
  end.

(** [Map.prototype.get] and [Map.prototype.set] on a map with arbitrary
    keys, in insertion order. *)
Fixpoint jsmap_get {V : Type} (k : JSValue) (m : list (JSValue * V)) : option V :=
  match m with
  | [] => None
  | (k', v) :: rest => if sameValueZero k' k then Some v else jsmap_get k rest
  end.

Fixpoint jsmap_set {V : Type} (k : JSValue) (v : V) (m : list (JSValue * V))
  : list (JSValue * V) :=
  match m with
  | [] => [(k, v)]
  | (k', v') :: rest =>
      if sameValueZero k' k then (k', v) :: rest else (k', v') :: jsmap_set k v rest
  end.

End Values.

(** The world outside the process: the JSON parser, the clock and the
    provider's HTTP API. The [n]-th reading of the clock and the outcome
    of the [n]-th mark-as-read call are given by oracles. *)
Class Environment `{JSNumber} := {
  (** [JSON.parse(body)], [None] for a [SyntaxError]. *)
  JSON_parse : string -> option JSValue;
  (** [parseInt(v, 10) * 1000] for a [v] that converts to a string; the
      conversion is [ToPrimitive]. *)
  parseInt10_times_1000 : JSValue -> Number;
  (** The [message] of the error the engine raises on a fault. Engines
      word it differently, and may quote the failing expression: the
      fault names what tells apart the places whose error reaches a
      tool result. *)
  fault_message : Fault -> string;
  (** [Date.now()] *)
  clock : nat -> Number;
  (** whether [providers.whatsapp.markAsRead] rejects *)
  markAsRead_rejects : nat -> bool
}.

(* ===================================================================== *)
(** ** index.ts: the phone number normaliser *)

Definition is_decimal_digit (c : ascii) : bool :=
  (48 <=? code c) && (code c <=? 57).

(** [phone.replace(/[^0-9]/g, '')] *)
Fixpoint normalizePhoneNumber (phone : string) : string :=
  match phone with
  | EmptyString => EmptyString
  | String c rest =>
      if is_decimal_digit c then String c (normalizePhoneNumber rest)
      else normalizePhoneNumber rest
  end.

(* ===================================================================== *)
(** ** Process state *)

Section Model.
Context `{Env : Environment}.

Inductive Role : Type := claude | user.

Record HistoryEntry := {
  role : Role;
  text : string;
  timestamp : Number
}.

Record ConversationState := {
  conversationId : string;
  userPhoneNumber : JSValue;
  messageHistory : list HistoryEntry;
  startTime : Number;
  lastMessageAt : Number;
  active : bool
}.

Record ServerConfig := {
  config_userPhoneNumber : string;
  config_whatsappAppSecret : string
}.

Inductive PromiseState : Type :=
  | Pending
  | Fulfilled (value : string)
  | Rejected (reason : JSError).

(** An entry of [pendingResponses]; [resolve] and [reject] are the two
    functions of one promise, named by its index. *)
Record PendingEntry := {
  resolve : nat;
  reject : nat;
  timeout : nat
}.

(** An armed timer: the second argument given to [setTimeout], as it was
    given, and what its handler (index.ts:251-254) captured. [setTimeout]
    is the host's, not the language's: the runtime converts the argument
    to a number and arms one millisecond when that is not between 1 and
    2^31-1, and what it does with an argument that has no number form is
    its own and is not modelled. The event loop below lets an armed timer
    fire at any time, so nothing here rests on the delay. *)
Record Timer := {
  delay : JSValue;
  handler_key : string;
  handler_reject : nat
}.

Record World := {
  config : ServerConfig;
  (** [ConversationState] objects; a reference is an index. *)
  objects : list ConversationState;
  activeConversations : gmap string nat;
  phoneToConversationId : list (JSValue * string);
  currentConversationId : N;
  (** whether the callback of index.ts:79 is installed *)
  onMessageReceivedCallback : bool;
  pendingResponses : gmap string PendingEntry;
  promises : list PromiseState;
  timers : gmap nat Timer;
  next_timer : nat;
  clock_reads : nat;
  markAsRead_calls : nat
}.

Definition set_objects (f : list ConversationState -> list ConversationState) (w : World) : World :=
  {| config := config w; objects := f (objects w);
     activeConversations := activeConversations w;
     phoneToConversationId := phoneToConversationId w;
     currentConversationId := currentConversationId w;
     onMessageReceivedCallback := onMessageReceivedCallback w;
     pendingResponses := pendingResponses w; promises := promises w;
     timers := timers w; next_timer := next_timer w;
     clock_reads := clock_reads w; markAsRead_calls := markAsRead_calls w |}.

Definition set_activeConversations (f : gmap string nat -> gmap string nat) (w : World) : World :=
  {| config := config w; objects := objects w;
     activeConversations := f (activeConversations w);
     phoneToConversationId := phoneToConversationId w;
     currentConversationId := currentConversationId w;
     onMessageReceivedCallback := onMessageReceivedCallback w;
     pendingResponses := pendingResponses w; promises := promises w;
     timers := timers w; next_timer := next_timer w;
     clock_reads := clock_reads w; markAsRead_calls := markAsRead_calls w |}.

Definition set_phoneToConversationId
    (f : list (JSValue * string) -> list (JSValue * string)) (w : World) : World :=
  {| config := config w; objects := objects w;
     activeConversations := activeConversations w;
     phoneToConversationId := f (phoneToConversationId w);
     currentConversationId := currentConversationId w;
     onMessageReceivedCallback := onMessageReceivedCallback w;
     pendingResponses := pendingResponses w; promises := promises w;
     timers := timers w; next_timer := next_timer w;
     clock_reads := clock_reads w; markAsRead_calls := markAsRead_calls w |}.

Definition set_currentConversationId (f : N -> N) (w : World) : World :=
  {| config := config w; objects := objects w;
     activeConversations := activeConversations w;
     phoneToConversationId := phoneToConversationId w;
     currentConversationId := f (currentConversationId w);
     onMessageReceivedCallback := onMessageReceivedCallback w;
     pendingResponses := pendingResponses w; promises := promises w;
     timers := timers w; next_timer := next_timer w;
     clock_reads := clock_reads w; markAsRead_calls := markAsRead_calls w |}.

Definition set_pendingResponses
    (f : gmap string PendingEntry -> gmap string PendingEntry) (w : World) : World :=
  {| config := config w; objects := objects w;
     activeConversations := activeConversations w;
     phoneToConversationId := phoneToConversationId w;
     currentConversationId := currentConversationId w;
     onMessageReceivedCallback := onMessageReceivedCallback w;
     pendingResponses := f (pendingResponses w); promises := promises w;
     timers := timers w; next_timer := next_timer w;
     clock_reads := clock_reads w; markAsRead_calls := markAsRead_calls w |}.

Definition set_promises (f : list PromiseState -> list PromiseState) (w : World) : World :=
  {| config := config w; objects := objects w;
     activeConversations := activeConversations w;
     phoneToConversationId := phoneToConversationId w;
     currentConversationId := currentConversationId w;
     onMessageReceivedCallback := onMessageReceivedCallback w;
     pendingResponses := pendingResponses w; promises := f (promises w);
     timers := timers w; next_timer := next_timer w;
     clock_reads := clock_reads w; markAsRead_calls := markAsRead_calls w |}.

Definition set_timers (f : gmap nat Timer -> gmap nat Timer) (w : World) : World :=
  {| config := config w; objects := objects w;
     activeConversations := activeConversations w;
     phoneToConversationId := phoneToConversationId w;
     currentConversationId := currentConversationId w;
     onMessageReceivedCallback := onMessageReceivedCallback w;
     pendingResponses := pendingResponses w; promises := promises w;
     timers := f (timers w); next_timer := next_timer w;
     clock_reads := clock_reads w; markAsRead_calls := markAsRead_calls w |}.

Definition set_next_timer (f : nat -> nat) (w : World) : World :=
  {| config := config w; objects := objects w;
     activeConversations := activeConversations w;
     phoneToConversationId := phoneToConversationId w;
     currentConversationId := currentConversationId w;
     onMessageReceivedCallback := onMessageReceivedCallback w;
     pendingResponses := pendingResponses w; promises := promises w;
     timers := timers w; next_timer := f (next_timer w);
     clock_reads := clock_reads w; markAsRead_calls := markAsRead_calls w |}.

Definition set_clock_reads (f : nat -> nat) (w : World) : World :=
  {| config := config w; objects := objects w;
     activeConversations := activeConversations w;
     phoneToConversationId := phoneToConversationId w;
     currentConversationId := currentConversationId w;
     onMessageReceivedCallback := onMessageReceivedCallback w;
     pendingResponses := pendingResponses w; promises := promises w;
     timers := timers w; next_timer := next_timer w;
     clock_reads := f (clock_reads w); markAsRead_calls := markAsRead_calls w |}.

Definition set_markAsRead_calls (f : nat -> nat) (w : World) : World :=
  {| config := config w; objects := objects w;
     activeConversations := activeConversations w;
     phoneToConversationId := phoneToConversationId w;
     currentConversationId := currentConversationId w;
     onMessageReceivedCallback := onMessageReceivedCallback w;
     pendingResponses := pendingResponses w; promises := promises w;
     timers := timers w; next_timer := next_timer w;
     clock_reads := clock_reads w; markAsRead_calls := f (markAsRead_calls w) |}.

(** The state of a freshly started process (index.ts:37-52,
    message-manager.ts:61-68) once [main] has installed the callback. *)
Definition initial_world (cfg : ServerConfig) : World :=
  {| config := cfg; objects := []; activeConversations := ∅;
     phoneToConversationId := []; currentConversationId := 0%N;
     onMessageReceivedCallback := true;
     pendingResponses := ∅; promises := []; timers := ∅; next_timer := O;
     clock_reads := O; markAsRead_calls := O |}.

(* --------------------------------------------------------------------- *)
(** *** Computations: state that survives a thrown exception *)

Definition M (A : Type) : Type := World -> Result A * World.

Definition ret {A : Type} (a : A) : M A := fun w => (Ok a, w).

Definition throw {A : Type} (e : JSError) : M A := fun w => (Throw e, w).

Definition bind {A B : Type} (c : M A) (k : A -> M B) : M B :=
  fun w => match c w with
           | (Ok a, w') => k a w'
           | (Throw e, w') => (Throw e, w')
           end.

Definition lift {A : Type} (r : Result A) : M A := fun w => (r, w).

Definition gets {A : Type} (f : World -> A) : M A := fun w => (Ok (f w), w).

Definition modify (f : World -> World) : M unit := fun w => (Ok tt, f w).

Definition try_catch {A : Type} (c : M A) (h : JSError -> M A) : M A :=
  fun w => match c w with
           | (Ok a, w') => (Ok a, w')
           | (Throw e, w') => h e w'
           end.

Notation "'let*' x ':=' c1 'in' c2" := (bind c1 (fun x => c2))
  (at level 10, x pattern, c1 at level 100, c2 at level 200).
Notation "c1 ';;' c2" := (bind c1 (fun _ => c2))
  (at level 100, c2 at level 200, right associativity).

(** [for (const x of items) body(x)] *)
Fixpoint for_of {A : Type} (items : list A) (body : A -> M unit) : M unit :=
  match items with
  | [] => ret tt
  | x :: rest => body x ;; for_of rest body
  end.

Definition Date_now : M Number :=
  fun w => (Ok (clock (clock_reads w)), set_clock_reads S w).

(* ===================================================================== *)
(** ** message-manager.ts: the conversation registry *)

Definition decimal (n : N) : string :=
  DecimalString.NilZero.string_of_uint (N.to_uint n).

(** [`conv-${n}-${now}`] *)
Definition conversation_id_string (n : N) (now : Number) : string :=
  String.append "conv-"
    (String.append (decimal n) (String.append "-" (number_toString now))).

(** [if (conversationId) { const state = this.activeConversations.get(conversationId);
    if (state && state.active) ... }] *)
Definition reusable (existing : option string) (w : World) : bool :=
  match existing with
  | Some cid =>
      string_truthy cid &&
      match activeConversations w !! cid with
      | Some r => match objects w !! r with
                  | Some state => active state
                  | None => false
                  end
      | None => false
      end
  | None => false
  end.

(** [getOrCreateConversation], lines 163-192; the log of line 189
    converts the phone number to a string, after the conversation has
    been registered. *)
Definition getOrCreateConversation (phoneNumber : JSValue) : M string :=
  let* existing := gets (fun w => jsmap_get phoneNumber (phoneToConversationId w)) in
  let* reuse := gets (reusable existing) in
  match existing, reuse with
  | Some cid, true => ret cid
  | _, _ =>
      modify (set_currentConversationId N.succ) ;;
      let* n := gets currentConversationId in
      let* t_id := Date_now in
      let cid := conversation_id_string n t_id in
      let* t_start := Date_now in
      let* t_last := Date_now in
      let state := {| conversationId := cid; userPhoneNumber := phoneNumber;
                      messageHistory := []; startTime := t_start;
                      lastMessageAt := t_last; active := true |} in
      let* r := gets (fun w => length (objects w)) in
      modify (set_objects (fun os => os ++ [state])) ;;
      modify (set_activeConversations <[cid := r]>) ;;
      modify (set_phoneToConversationId (jsmap_set phoneNumber cid)) ;;
      lift (ToPrimitive phoneNumber) ;;
      ret cid
  end.

Definition push_message (e : HistoryEntry) (st : ConversationState) : ConversationState :=
  {| conversationId := conversationId st; userPhoneNumber := userPhoneNumber st;
     messageHistory := messageHistory st ++ [e]; startTime := startTime st;
     lastMessageAt := lastMessageAt st; active := active st |}.

Definition touch (t : Number) (st : ConversationState) : ConversationState :=
  {| conversationId := conversationId st; userPhoneNumber := userPhoneNumber st;
     messageHistory := messageHistory st; startTime := startTime st;
     lastMessageAt := t; active := active st |}.

(** Using [state], the result of [this.activeConversations.get(id)!]:
    a fault if it is [undefined]. *)
Definition deref (state : option nat) : M nat :=
  match state with
  | Some r => ret r
  | None => throw (Raised (ReadOfUndefined "messageHistory"))
  end.

(** [state.messageHistory.push({ role, text, timestamp })] *)
Definition history_push (state : option nat) (r : Role) (t : string) (ts : M Number) : M unit :=
  let* ref := deref state in
  let* now := ts in
  modify (set_objects (alter (push_message {| role := r; text := t; timestamp := now |}) ref)).

(** [state.lastMessageAt = ...] *)
Definition set_lastMessageAt (state : option nat) (ts : M Number) : M unit :=
  let* now := ts in
  let* ref := deref state in
  modify (set_objects (alter (touch now) ref)).

Definition getConversationHistory (cid : string) (w : World) : list HistoryEntry :=
  match activeConversations w !! cid with
  | Some r => match objects w !! r with
              | Some state => messageHistory state
              | None => []
              end
  | None => []
  end.

(** [sendMessage], lines 123-126: up to the call of the provider. *)
Definition sendMessage_begin (message : JSValue) : M (string * option nat * string) :=
  let* phone := gets (fun w => config_userPhoneNumber (config w)) in
  let* cid := getOrCreateConversation (JString phone) in
  let* state := gets (fun w => activeConversations w !! cid) in
  let* m := lift (as_string "message" "substring" message) in
  ret (cid, state, m).

(** [sendMessage], lines 128-150: from the provider's answer [sent] (the
    message id, or the error it threw) on. *)
Definition sendMessage_resume (cid : string) (state : option nat) (message : string)
    (sent : Result string) : M (string * string) :=
  try_catch
    (let* messageId := lift sent in
     history_push state claude message Date_now ;;
     set_lastMessageAt state Date_now ;;
     ret (cid, messageId))
    (fun error => throw error).

(** [sendMessage] when nothing else runs while the provider is awaited. *)
Definition sendMessage (message : JSValue) (sent : Result string) : M (string * string) :=
  let* (cid, state, m) := sendMessage_begin message in
  sendMessage_resume cid state m sent.

(* ===================================================================== *)
(** ** index.ts: the pending-reply table *)

(** A promise settles once; later calls of [resolve] or [reject] do
    nothing. *)
Definition settle (p : nat) (v : PromiseState) (ps : list PromiseState) : list PromiseState :=
  match ps !! p with
  | Some Pending => <[p := v]> ps
  | _ => ps
  end.

Definition clearTimeout (t : nat) : M unit := modify (set_timers (delete t)).

(** Lines 87-97: the lookup and resolution of a pending entry. *)
Definition resolvePending (normalizedFrom : string) (replyText : string) : M unit :=
  let* pending := gets (fun w => pendingResponses w !! normalizedFrom) in
  match pending with
  | Some pending =>
      clearTimeout (timeout pending) ;;
      modify (set_pendingResponses (delete normalizedFrom)) ;;
      modify (set_promises (settle (resolve pending) (Fulfilled replyText)))
  | None => ret tt
  end.

(** The callback installed at index.ts:79. [normalizePhoneNumber(from)]
    calls [phone.replace], a fault unless [from] is a string. *)
Definition onMessageReceived_callback (from : JSValue) (replyText : string)
    (cid : string) : M unit :=
  let* phone := lift (as_string "phone" "replace" from) in
  let normalizedFrom := normalizePhoneNumber phone in
  resolvePending normalizedFrom replyText.

Definition timeout_message : string := "Timeout waiting for user reply".

(** Lines 250-261: the executor of the promise the tool call awaits. *)
Definition register (normalizedUserPhone : string) (timeoutMs : JSValue) : M nat :=
  let* p := gets (fun w => length (promises w)) in
  modify (set_promises (fun ps => ps ++ [Pending])) ;;
  let* t := gets next_timer in
  modify (set_next_timer S) ;;
  modify (set_timers <[t := {| delay := timeoutMs;
                               handler_key := normalizedUserPhone;
                               handler_reject := p |}]>) ;;
  modify (set_pendingResponses
            <[normalizedUserPhone := {| resolve := p; reject := p; timeout := t |}]>) ;;
  ret p.

(** The handler given to [setTimeout], lines 251-254. *)
Definition timeout_handler (t : Timer) : M unit :=
  modify (set_pendingResponses (delete (handler_key t))) ;;
  modify (set_promises (settle (handler_reject t) (Rejected (Error timeout_message)))).

(** The event loop runs the handler of an armed timer, once. *)
Definition fire_timer (id : nat) : M unit :=
  let* armed := gets (fun w => timers w !! id) in
  match armed with
  | Some t => modify (set_timers (delete id)) ;; timeout_handler t
  | None => ret tt
  end.

(* ===================================================================== *)
(** ** message-manager.ts: the webhook event processor *)

(** [await this.config.providers.whatsapp.markAsRead(messageId)] *)
Definition markAsRead (messageId : JSValue) : M unit :=
  fun w => (if markAsRead_rejects (markAsRead_calls w)
            then Throw (Error "Provider not initialized") else Ok tt,
            set_markAsRead_calls S w).

(** The text of a message: lines 327-335. [None] for an unsupported
    message. *)
Definition extract_text (message : JSValue) : Result (option JSValue) :=
  match get_prop message "type" with
  | Throw e => Throw e
  | Ok type =>
      let body := get_prop_opt (get_prop_opt message "text") "body" in
      let label := get_prop_opt (get_prop_opt message "button") "text" in
      if strict_eq_string type "text" && truthy body then Ok (Some body)
      else if strict_eq_string type "button" && truthy label then Ok (Some label)
      else Ok None
  end.

(** What [handleIncomingMessage] holds while it awaits [markAsRead]. *)
Record MessageInFlight := {
  arriving_from : JSValue;
  arriving_messageId : JSValue;
  arriving_text : string;
  arriving_timestamp : Number;
  arriving_conversationId : string;
  arriving_state : option nat
}.

(** [handleIncomingMessage], lines 318-341: up to the call of
    [markAsRead]; [None] when the message is skipped. [parseInt]
    converts the timestamp to a string (line 320), and the logs convert
    the sender (line 324) and, for a skipped message, the type (line
    333). *)
Definition handleIncomingMessage_begin (message : JSValue) : M (option MessageInFlight) :=
  let* from := lift (get_prop message "from") in
  let* messageId := lift (get_prop message "id") in
  let* raw_timestamp := lift (get_prop message "timestamp") in
  lift (ToPrimitive raw_timestamp) ;;
  let timestamp := parseInt10_times_1000 raw_timestamp in
  lift (ToPrimitive from) ;;
  let* extracted := lift (extract_text message) in
  match extracted with
  | None =>
      let* type := lift (get_prop message "type") in
      lift (ToPrimitive type) ;;
      ret None
  | Some extracted_text =>
      let* text := lift (as_string "text" "substring" extracted_text) in
      let* cid := getOrCreateConversation from in
      let* state := gets (fun w => activeConversations w !! cid) in
      ret (Some {| arriving_from := from; arriving_messageId := messageId;
                   arriving_text := text; arriving_timestamp := timestamp;
                   arriving_conversationId := cid; arriving_state := state |})
  end.

(** [handleIncomingMessage], lines 344-361: from the outcome of
    [markAsRead] on. *)
Definition handleIncomingMessage_resume (k : MessageInFlight) : M unit :=
  try_catch (markAsRead (arriving_messageId k)) (fun _ => ret tt) ;;
  history_push (arriving_state k) user (arriving_text k) (ret (arriving_timestamp k)) ;;
  set_lastMessageAt (arriving_state k) (ret (arriving_timestamp k)) ;;
  let* callback := gets onMessageReceivedCallback in
  if callback
  then onMessageReceived_callback (arriving_from k) (arriving_text k)
         (arriving_conversationId k)
  else ret tt.

(** [handleIncomingMessage] when nothing else runs while [markAsRead] is
    awaited. *)
Definition handleIncomingMessage (message : JSValue) : M unit :=
  let* k := handleIncomingMessage_begin message in
  match k with
  | Some k => handleIncomingMessage_resume k
  | None => ret tt
  end.

(** [handleMessageStatus], lines 367-375; the log of line 372 converts
    the three fields to strings. *)
Definition handleMessageStatus (status : JSValue) : M unit :=
  let* messageId := lift (get_prop status "id") in
  let* statusValue := lift (get_prop status "status") in
  let* timestamp := lift (get_prop status "timestamp") in
  lift (ToPrimitive messageId) ;;
  lift (ToPrimitive statusValue) ;;
  lift (ToPrimitive timestamp) ;;
  ret tt.

Definition whatsapp_object : string := "whatsapp_business_account".

Definition processWhatsAppEvent (event : JSValue) : M unit :=
  let* object := lift (get_prop event "object") in
  if negb (strict_eq_string object whatsapp_object) then ret tt
  else
    let* entry_field := lift (get_prop event "entry") in
    let* entries := lift (iterate (or_empty_array entry_field)) in
    for_of entries (fun entry =>
      let* changes_field := lift (get_prop entry "changes") in
      let* changes := lift (iterate (or_empty_array changes_field)) in
      for_of changes (fun change =>
        let* value := lift (get_prop change "value") in
        let* messages := lift (get_prop value "messages") in
        (if truthy messages
         then let* items := lift (iterate messages) in
              for_of items handleIncomingMessage
         else ret tt) ;;
        let* statuses := lift (get_prop value "statuses") in
        if truthy statuses
        then let* items := lift (iterate statuses) in
             for_of items handleMessageStatus
        else ret tt)).

(** The provider's envelope around a list of messages (the format in the
    comment above [processWhatsAppEvent]). *)
Definition messages_event (messages : list JSValue) : JSValue :=
  JObject [ ("object", JString whatsapp_object);
            ("entry", JArray [ JObject [ ("changes", JArray [ JObject [
               ("value", JObject [ ("messages", JArray messages) ]) ] ]) ] ]) ].

Definition text_message (from body : string) : JSValue :=
  JObject [ ("from", JString from); ("id", JString "wamid.1");
            ("timestamp", JString "1700000000"); ("type", JString "text");
            ("text", JObject [ ("body", JString body) ]) ].

(** *** Events of the expected shape

    Objects and arrays where the provider's format has them; a message
    entry is an object whose timestamp and sender convert to strings and
    that is either unsupported (no text is extracted from it, and its
    type converts to a string) or carries a string text and a string
    sender; a status entry is not [null] and its id, status and
    timestamp convert to strings. Every JSON string, number and boolean
    and [null] converts, and so does an absent field. *)

Definition is_string (v : JSValue) : bool :=
  match v with JString _ => true | _ => false end.

Definition converts (v : JSValue) : bool := negb (ToPrimitive_throws v).


Definition status_shaped (status : JSValue) : bool :=
  match status with
  | JUndefined | JNull => false
  | _ =>
      converts (get_prop_opt status "id")
      && converts (get_prop_opt status "status")
      && converts (get_prop_opt status "timestamp")
  end.





Record Response := {
  status : Z;
  payload : string
}.

Definition JSON_parse_body (body : string) : M JSValue :=
  lift (match JSON_parse body with
        | Some v => Ok v
        | None => Throw (Raised InvalidJSON)
        end).

(** [handleWhatsAppWebhook], the [POST] branch once the body has been
    read: lines 210-236, when nothing else runs before the answer. *)
Definition handleWhatsAppWebhook_POST (signature : option string) (body : string)
    : World -> Response * World :=
  fun w =>
    let appSecret := config_whatsappAppSecret (config w) in
    if negb (validateMetaWhatsAppSignature appSecret signature body)
    then ({| status := 401; payload := "Invalid signature" |}, w)
    else
      match (let* event := JSON_parse_body body in processWhatsAppEvent event) w with
      | (Ok _, w') => ({| status := 200; payload := "OK" |}, w')
      | (Throw _, w') => ({| status := 400; payload := "Invalid request" |}, w')
      end.

(* ===================================================================== *)
(** ** index.ts: the [send_message] tool *)

(** The text of a tool result: [JSON.stringify(value, null, 2)] of an
    object, or a plain string. *)
Inductive ToolText : Type :=
  | JSON_stringify (value : JSValue)
  | Plain (s : string).

Record ToolResult := {
  content_text : ToolText;
  isError : bool
}.

(** [(error as Error).message]; the text of an engine-raised error is
    the engine's. *)
Definition error_message (e : JSError) : string :=
  match e with
  | Error m => m
  | Raised fault => fault_message fault
  end.

(** Lines 338-348: the handler's outer [catch]. *)
Definition error_result (e : JSError) : ToolResult :=
  {| content_text := Plain (String.append "Error: " (error_message e)); isError := true |}.

(** Lines 229-241 *)
Definition sent_result (cid messageId : string) : ToolResult :=
  {| content_text := JSON_stringify (JObject
       [ ("success", JBool true); ("conversationId", JString cid);
         ("messageId", JString messageId);
         ("status", JString "Message sent via WhatsApp") ]);
     isError := false |}.

(** Lines 264-277 *)
Definition reply_result (cid messageId userReply : string) : ToolResult :=
  {| content_text := JSON_stringify (JObject
       [ ("success", JBool true); ("conversationId", JString cid);
         ("messageId", JString messageId); ("userReply", JString userReply);
         ("status", JString "Message sent and reply received") ]);
     isError := false |}.

(** Lines 279-294 *)
Definition no_reply_result (cid messageId : string) (error : JSError) : ToolResult :=
  {| content_text := JSON_stringify (JObject
       [ ("success", JBool true); ("conversationId", JString cid);
         ("messageId", JString messageId);
         ("status", JString "Message sent but no reply received");
         ("error", JString (error_message error)) ]);
     isError := false |}.

(** What a tool call that awaits the provider remembers. *)
Record SendInFlight := {
  sending_conversationId : string;
  sending_state : option nat;
  sending_message : string;
  sending_waitForReply : bool;
  sending_timeoutMs : JSValue
}.

(** What a tool call that awaits the reply remembers. *)
Record ReplyWait := {
  waiting_conversationId : string;
  waiting_messageId : string;
  waiting_promise : nat
}.

Inductive ToolProgress (A : Type) : Type :=
  | Returned (r : ToolResult)
  | Awaiting (k : A).
Arguments Returned {A} r.
Arguments Awaiting {A} k.

(** The outer [try ... catch] of the request handler around a segment. *)
Definition tool_catch {A : Type} (c : M (ToolProgress A)) : World -> ToolProgress A * World :=
  fun w => match c w with
           | (Ok r, w') => (r, w')
           | (Throw e, w') => (Returned (error_result e), w')
           end.

(** [case 'send_message'], lines 216-225: up to the call of the
    provider. [serverConfig] and [messageManager] are set by [main]
    before the tool handler is installed. *)
Definition send_message_begin (args : JSValue) : World -> ToolProgress SendInFlight * World :=
  tool_catch
    (let message := get_prop_opt args "message" in
     let waitForReply := truthy (get_prop_opt args "wait_for_reply") in
     let timeout_arg := get_prop_opt args "timeout_ms" in
     let timeoutMs := if truthy timeout_arg then timeout_arg else JNum number_3600000 in
     if negb (truthy message) then throw (Error "Message is required")
     else
       let* (cid, state, m) := sendMessage_begin message in
       ret (Awaiting {| sending_conversationId := cid; sending_state := state;
                        sending_message := m; sending_waitForReply := waitForReply;
                        sending_timeoutMs := timeoutMs |})).

(** Lines 225-262: from the provider's answer to the return, or to the
    registration of the reply-wait. *)
Definition send_message_sent (k : SendInFlight) (sent : Result string)
    : World -> ToolProgress ReplyWait * World :=
  tool_catch
    (let* (cid, messageId) :=
        sendMessage_resume (sending_conversationId k) (sending_state k)
                           (sending_message k) sent in
     if negb (sending_waitForReply k) then ret (Returned (sent_result cid messageId))
     else
       let* phone := gets (fun w => config_userPhoneNumber (config w)) in
       let normalizedUserPhone := normalizePhoneNumber phone in
       let* p := register normalizedUserPhone (sending_timeoutMs k) in
       ret (Awaiting {| waiting_conversationId := cid; waiting_messageId := messageId;
                        waiting_promise := p |})).

(** Lines 264-294: what the call returns once its promise has settled;
    [None] while it is pending. *)
Definition send_message_settled (k : ReplyWait) (w : World) : option ToolResult :=
  match promises w !! waiting_promise k with
  | Some (Fulfilled userReply) =>
      Some (reply_result (waiting_conversationId k) (waiting_messageId k) userReply)
  | Some (Rejected error) =>
      Some (no_reply_result (waiting_conversationId k) (waiting_messageId k) error)
  | _ => None
  end.

(* ===================================================================== *)
(** ** The event loop *)

(** What the event loop can run next: a whole webhook delivery; one
    message of a delivery up to its [await], and its continuation; the
    handler of a timer; a [send_message] call up to its [await], and its
    continuation. A continuation may follow any number of other events. *)
Inductive Event : Type :=
  | WebhookPost (signature : option string) (body : string)
  | MessageArrives (message : JSValue)
  | MessageResumes (k : MessageInFlight)
  | TimerFires (id : nat)
  | ToolCall (args : JSValue)
  | ProviderAnswers (k : SendInFlight) (sent : Result string).

Definition step (w : World) (e : Event) : World :=
  match e with
  | WebhookPost signature body => snd (handleWhatsAppWebhook_POST signature body w)
  | MessageArrives message => snd (handleIncomingMessage_begin message w)
  | MessageResumes k => snd (handleIncomingMessage_resume k w)
  | TimerFires id => snd (fire_timer id w)
  | ToolCall args => snd (send_message_begin args w)
  | ProviderAnswers k sent => snd (send_message_sent k sent w)
  end.

Definition run (w : World) (events : list Event) : World := fold_left step events w.

(* ===================================================================== *)
(** ** Predicates used in the statements *)

(** The fields that [getOrCreateConversation] and the history updates
    leave alone. *)
Definition same_replies (w w' : World) : Prop :=
  config w' = config w
  /\ onMessageReceivedCallback w' = onMessageReceivedCallback w
  /\ pendingResponses w' = pendingResponses w
  /\ promises w' = promises w
  /\ timers w' = timers w
  /\ next_timer w' = next_timer w.

Definition user_key (w : World) : string :=
  normalizePhoneNumber (config_userPhoneNumber (config w)).

Definition keeps {A : Type} (P : World -> Prop) (c : M A) : Prop :=
  forall w : World, P w -> P (snd (c w)).

(** Properties of the pending-reply table, the promises and the timers
    that the three operations on them keep; [ok] restricts the timers
    whose firing is considered. *)
Record stable (ok : nat -> Prop) (P : World -> Prop) : Prop := {
  stable_frame : forall w w' : World,
    pendingResponses w' = pendingResponses w -> promises w' = promises w ->
    timers w' = timers w -> next_timer w' = next_timer w -> P w -> P w';
  stable_resolve : forall k T : string, keeps P (resolvePending k T);
  stable_register : forall (k : string) (d : JSValue), keeps P (register k d);
  stable_fire : forall id : nat, ok id -> keeps P (fire_timer id)
}.

(** A property that every primitive the handlers are made of keeps: the
    readings of the clock, the calls of the provider, the registry
    operations, and the three operations on the pending-reply table. *)
Record handler_invariant (ok : nat -> Prop) (P : World -> Prop) : Prop := {
  inv_clock : forall (f : nat -> nat) (w : World), P w -> P (set_clock_reads f w);
  inv_calls : forall (f : nat -> nat) (w : World), P w -> P (set_markAsRead_calls f w);
  inv_getOrCreate : forall phoneNumber : JSValue,
    keeps P (getOrCreateConversation phoneNumber);
  inv_push : forall (e : HistoryEntry) (r : nat) (w : World),
    P w -> P (set_objects (alter (push_message e) r) w);
  inv_touch : forall (t : Number) (r : nat) (w : World),
    P w -> P (set_objects (alter (touch t) r) w);
  inv_resolve : forall k T : string, keeps P (resolvePending k T);
  inv_register : forall (k : string) (d : JSValue), keeps P (register k d);
  inv_fire : forall id : nat, ok id -> keeps P (fire_timer id)
}.

(** The raw number [phone] is mapped to the conversation [cid], which a
    call of [getOrCreateConversation] would reuse. *)
Definition mapped (phone cid : string) (w : World) : Prop :=
  jsmap_get (JString phone) (phoneToConversationId w) = Some cid
  /\ reusable (Some cid) w = true.

(** What holds of the table, the promises and the timers in every world
    the process can reach: armed timers were allocated and reject
    allocated promises, no two of them the same one; and an entry of the
    table holds the two functions of one pending promise, and the armed
    timer whose handler was created with it. *)
Record wf (w : World) : Prop := {
  wf_timer : forall (t : nat) (tm : Timer),
    timers w !! t = Some tm ->
    (t < next_timer w)%nat /\ (handler_reject tm < length (promises w))%nat;
  wf_timer_promise : forall (t t' : nat) (tm tm' : Timer),
    timers w !! t = Some tm -> timers w !! t' = Some tm' ->
    handler_reject tm = handler_reject tm' -> t = t';
  wf_pending : forall (key : string) (e : PendingEntry),
    pendingResponses w !! key = Some e ->
    reject e = resolve e
    /\ promises w !! resolve e = Some Pending
    /\ exists tm : Timer,
         timers w !! timeout e = Some tm
         /\ handler_reject tm = resolve e /\ handler_key tm = key
}.

(** The promise [p] with its timer [t] (armed as [tm]) is no longer
    reachable from the table: no entry names [p] or [t], and no other
    armed timer rejects [p]. It is pending with its timer still armed as
    it was created, or it was rejected by the timeout and the timer is
    gone. *)
Record orphaned (p t : nat) (tm : Timer) (w : World) : Prop := {
  orphan_allocated : (p < length (promises w))%nat /\ (t < next_timer w)%nat;
  orphan_handler : handler_reject tm = p;
  orphan_unnamed : forall (key : string) (e : PendingEntry),
    pendingResponses w !! key = Some e -> resolve e <> p /\ timeout e <> t;
  orphan_timers : forall (t' : nat) (tm' : Timer),
    timers w !! t' = Some tm' -> t' <> t -> handler_reject tm' <> p;
  orphan_state :
    (promises w !! p = Some Pending /\ timers w !! t = Some tm)
    \/ (promises w !! p = Some (Rejected (Error timeout_message))
        /\ timers w !! t = None)
}.

Definition waiting (p t : nat) (tm : Timer) (w : World) : Prop :=
  orphaned p t tm w /\ promises w !! p = Some Pending.


Definition ack_200 : Response := {| status := 200; payload := "OK" |}.
Definition ack_400 : Response := {| status := 400; payload := "Invalid request" |}.

End Model.

Arguments Returned {H A} r.
Arguments Awaiting {H A} k.

(* ===================================================================== *)
(** ** A concrete runtime

    Integers for numbers, a clock that counts its readings, a provider
    whose mark-as-read call always fails, and a parser that knows the
    JSON texts below. The examples at the end of the file are evaluated
    on it. *)

Section Demo.

Definition demo_numbers : JSNumber :=
  {| Number := Z;
     number_truthy := fun z => negb (z =? 0);
     number_sameValueZero := Z.eqb;
     number_toString := fun z => DecimalString.NilZero.string_of_int (Z.to_int z);
     number_3600000 := 3600000 |}.

#[local] Existing Instance demo_numbers.

(** Writes a JSON text with ['] for the double quote. *)
Fixpoint requote (s : string) : string :=
  match s with
  | EmptyString => EmptyString
  | String c rest =>
      String (if Ascii.eqb c "'" then ascii_of_nat 34 else c) (requote rest)
  end.

Definition envelope (messages : string) : string :=
  String.append "{'object':'whatsapp_business_account','entry':[{'changes':[{'value':{'messages':["
    (String.append messages "]}}]}]}").

Definition demo_message_text (from body : string) : string :=
  String.append "{'from':'" (String.append from
    (String.append "','id':'wamid.1','timestamp':'1700000000','type':'text','text':{'body':'"
      (String.append body "'}}"))).

(** One text message ["yes"] from 15551234567. *)
Definition demo_body_reply : string :=
  requote (envelope (demo_message_text "15551234567" "yes")).

(** One text message with an empty body from 15551234567. *)
Definition demo_body_empty_text : string :=
  requote (envelope (demo_message_text "15551234567" "")).

(** The text message ["yes"] from 15551234567 with an object for its
    timestamp, which has no string form. *)
Definition odd_timestamp_message : JSValue :=
  JObject [ ("from", JString "15551234567"); ("id", JString "wamid.1");
            ("timestamp", JObject [ ("toString", JNum 1) ]); ("type", JString "text");
            ("text", JObject [ ("body", JString "yes") ]) ].

Definition demo_body_odd_timestamp : string :=
  requote (envelope
    "{'from':'15551234567','id':'wamid.1','timestamp':{'toString':1},'type':'text','text':{'body':'yes'}}").

(** A text message ["yes"] followed by a [null] entry. *)
Definition demo_body_null_entry : string :=
  requote (envelope (String.append (demo_message_text "15551234567" "yes") ",null")).

Definition image_message (from : string) : JSValue :=
  JObject [ ("from", JString from); ("id", JString "wamid.0");
            ("timestamp", JString "1700000000"); ("type", JString "image") ].

(** An image message, which is not supported, followed by the text
    message ["yes"]. *)
Definition demo_body_mixed : string :=
  requote (envelope (String.append
    "{'from':'15551234567','id':'wamid.0','timestamp':'1700000000','type':'image'},"
    (demo_message_text "15551234567" "yes"))).

Definition demo_JSON_parse (body : string) : option JSValue :=
  if String.eqb body demo_body_mixed
  then Some (messages_event [image_message "15551234567";
                             text_message "15551234567" "yes"])
  else if String.eqb body demo_body_reply
  then Some (messages_event [text_message "15551234567" "yes"])
  else if String.eqb body demo_body_empty_text
  then Some (messages_event [text_message "15551234567" ""])
  else if String.eqb body demo_body_null_entry
  then Some (messages_event [text_message "15551234567" "yes"; JNull])
  else if String.eqb body demo_body_odd_timestamp
  then Some (messages_event [odd_timestamp_message])
  else if String.eqb body "null" then Some JNull
  else if String.eqb body "{}" then Some (JObject [])
  else None.

Definition demo_environment : Environment :=
  {| JSON_parse := demo_JSON_parse;
     parseInt10_times_1000 := fun _ => 1700000000000;
     fault_message := fun f =>
       match f with
       | ReadOfUndefined name =>
           String.append "Cannot read properties of undefined (reading '"
             (String.append name "')")
       | ReadOfNull name =>
           String.append "Cannot read properties of null (reading '"
             (String.append name "')")
       | NotAFunction callee => String.append callee " is not a function"
       | NotIterable => "object is not iterable"
       | NotPrimitive => "Cannot convert object to primitive value"
       | InvalidJSON => "Unexpected token in JSON"
       | InvalidURL => "Invalid URL"
       | InvalidTime => "Invalid time value"
       end;
     clock := fun n => 1700000000000 + Z.of_nat n;
     markAsRead_rejects := fun _ => true |}.

Definition demo_config : ServerConfig :=
  {| config_userPhoneNumber := "+1 (555) 123-4567";
     config_whatsappAppSecret := "secret" |}.

(** A fresh process in which one reply-wait has been registered for the
    configured user. *)
Definition demo_waiting : World :=
  snd (register (normalizePhoneNumber "+1 (555) 123-4567") (JNum 60000)
         (initial_world demo_config)).

End Demo.

(* ===================================================================== *)
(** ** webhook-security.ts: the verification token *)

(** [verifyWebhookToken]: [receivedToken] is [None] for [undefined]. The
    loop is the one of [timingSafeEqual], over the character codes. On
    the bytes of the UTF-8 encoding the lengths and the codes compared
    are not those of the UTF-16 units, but the outcome is the same: the
    two strings are compared for equality either way. *)
Definition verifyWebhookToken (expectedToken : string) (receivedToken : option string)
  : bool :=
  match receivedToken with
  | None => false
  | Some EmptyString => false
  | Some received =>
      if negb (Nat.eqb (String.length expectedToken) (String.length received)) then false
      else xor_accumulate 0 (bytes_of_string expectedToken) (bytes_of_string received) =? 0
  end.

(* ===================================================================== *)
(** ** The rest of the runtime

    What the start-up code, the HTTP routes, the provider and the history
    tool read besides the [Environment]. *)

(** [ToIntegerOrInfinity] of a number. *)
Inductive IntegerOrInfinity : Type :=
  | MinusInfinity
  | Finite (z : Z)
  | PlusInfinity.

(** What the code reads of a parsed URL: [pathname] and
    [searchParams.get(name)], [None] for [null]. *)
Record URL := {
  pathname : string;
  searchParams_get : string -> option string
}.

Class Runtime `{JSNumber} := {
  (** [new URL(input, base)], [None] when it raises *)
  new_URL : string -> string -> option URL;
  (** [process.env[name]], [None] when the variable is not set *)
  process_env : string -> option string;
  (** [parseInt(s, 10)] *)
  parseInt10 : string -> Number;
  (** a size or a length as a number *)
  number_of_nat : nat -> Number;
  (** [String(v)], the text a template literal gives for a [v] that
      converts to a primitive *)
  js_toString : JSValue -> string;
  (** [ToIntegerOrInfinity(-v)], the start index [slice(-v)] works with,
      for a [v] that converts to a primitive *)
  negated_integer : JSValue -> IntegerOrInfinity;
  (** [new Date(n).toISOString()], [None] when it raises a [RangeError] *)
  toISOString : Number -> option string;
  (** The literal [20]. *)
  number_20 : Number
}.

(* ===================================================================== *)
(** ** providers/index.ts: configuration *)

Record ProviderConfig := {
  provider_whatsappPhoneNumberId : string;
  provider_whatsappAccessToken : string;
  provider_whatsappAppSecret : string;
  provider_whatsappVerifyToken : string;
  provider_userPhoneNumber : string
}.

(** [WhatsAppConfig] of providers/types.ts *)
Record WhatsAppConfig := {
  phoneNumberId : string;
  accessToken : string;
  appSecret : string;
  webhookVerifyToken : string
}.

Definition newline : string := String (ascii_of_nat 10) EmptyString.

(** [errors.join(separator)] *)
Fixpoint join (separator : string) (items : list string) : string :=
  match items with
  | [] => EmptyString
  | [x] => x
  | x :: rest => String.append x (String.append separator (join separator rest))
  end.

Definition missing_phone_number_id : string :=
  "Missing WHATSAPPME_PHONE_NUMBER_ID (WhatsApp Phone Number ID from Meta dashboard)".
Definition missing_access_token : string :=
  "Missing WHATSAPPME_ACCESS_TOKEN (Access token from Meta app)".
Definition missing_app_secret : string :=
  "Missing WHATSAPPME_APP_SECRET (App secret for webhook verification)".
Definition missing_verify_token : string :=
  "Missing WHATSAPPME_VERIFY_TOKEN (Custom token for webhook verification)".
Definition missing_user_phone_number : string :=
  "Missing WHATSAPPME_USER_PHONE_NUMBER (Your phone number to receive messages)".

(** [if (!field) errors.push(message)] *)
Definition push_if_empty (field message : string) (errors : list string) : list string :=
  if string_truthy field then errors else errors ++ [message].

Definition validateProviderConfig (c : ProviderConfig) : list string :=
  push_if_empty (provider_userPhoneNumber c) missing_user_phone_number
    (push_if_empty (provider_whatsappVerifyToken c) missing_verify_token
      (push_if_empty (provider_whatsappAppSecret c) missing_app_secret
        (push_if_empty (provider_whatsappAccessToken c) missing_access_token
          (push_if_empty (provider_whatsappPhoneNumberId c) missing_phone_number_id [])))).

(** [createWhatsAppProvider]: the configuration the provider is
    initialised with. *)
Definition createWhatsAppProvider (c : ProviderConfig) : WhatsAppConfig :=
  {| phoneNumberId := provider_whatsappPhoneNumberId c;
     accessToken := provider_whatsappAccessToken c;
     appSecret := provider_whatsappAppSecret c;
     webhookVerifyToken := provider_whatsappVerifyToken c |}.

Section Startup.
Context {Num : JSNumber} {Rt : Runtime}.

(** [process.env.NAME || ''] *)
Definition env_or (name fallback : string) : string :=
  match process_env name with
  | Some v => if string_truthy v then v else fallback
  | None => fallback
  end.

Definition loadProviderConfig : ProviderConfig :=
  {| provider_whatsappPhoneNumberId := env_or "WHATSAPPME_PHONE_NUMBER_ID" EmptyString;
     provider_whatsappAccessToken := env_or "WHATSAPPME_ACCESS_TOKEN" EmptyString;
     provider_whatsappAppSecret := env_or "WHATSAPPME_APP_SECRET" EmptyString;
     provider_whatsappVerifyToken := env_or "WHATSAPPME_VERIFY_TOKEN" EmptyString;
     provider_userPhoneNumber := env_or "WHATSAPPME_USER_PHONE_NUMBER" EmptyString |}.

(** The [ServerConfig] of message-manager.ts in full; [providers] is the
    provider registry, that is the configuration its one provider holds. *)
Record LoadedServerConfig := {
  publicUrl : string;
  port : Number;
  loaded_userPhoneNumber : string;
  providers : WhatsAppConfig;
  providerConfig : ProviderConfig
}.

Definition missing_configuration (errors : list string) : string :=
  let separator := String.append newline "  - " in
  String.append "Missing required configuration:"
    (String.append separator (join separator errors)).

(** [loadServerConfig], message-manager.ts:41-58 *)
Definition loadServerConfig (url : string) : Result LoadedServerConfig :=
  let c := loadProviderConfig in
  let errors := validateProviderConfig c in
  if Nat.ltb 0 (length errors) then Throw (Error (missing_configuration errors))
  else Ok {| publicUrl := url;
             port := parseInt10 (env_or "WHATSAPPME_PORT" "3333");
             loaded_userPhoneNumber := provider_userPhoneNumber c;
             providers := createWhatsAppProvider c;
             providerConfig := c |}.

(** The part of the configuration the handlers above read. *)
Definition server_config (c : LoadedServerConfig) : ServerConfig :=
  {| config_userPhoneNumber := loaded_userPhoneNumber c;
     config_whatsappAppSecret := provider_whatsappAppSecret (providerConfig c) |}.

End Startup.

(* ===================================================================== *)
(** ** providers/whatsapp-meta.ts: the Cloud API provider *)

Section Provider.
Context {Num : JSNumber} {Rt : Runtime}.

(** How an awaited [fetch] ends: it rejects, or it gives a response with
    its [ok] flag, its [statusText] and what [response.json()] gives. *)
Inductive FetchOutcome : Type :=
  | FetchRejects (e : JSError)
  | FetchResponse (ok : bool) (statusText : string) (json : Result JSValue).

(** [v?.[0]] *)
Definition first_item_opt (v : JSValue) : JSValue :=
  match v with
  | JArray (x :: _) => x
  | JString (String c _) => JString (String c EmptyString)
  | JObject props => lookup_prop "0" props
  | _ => JUndefined
  end.

(** The JSON body of the request of [sendMessage], lines 98-107. *)
Definition sendMessage_request (to message : string) : JSValue :=
  JObject [ ("messaging_product", JString "whatsapp");
            ("recipient_type", JString "individual");
            ("to", JString (normalizePhoneNumber to));
            ("type", JString "text");
            ("text", JObject [ ("preview_url", JBool false);
                               ("body", JString message) ]) ].

(** [`Meta API error: ${errorData.error?.message || response.statusText}`] *)
Definition meta_api_error (errorData : JSValue) (statusText : string) : Result string :=
  match get_prop errorData "error" with
  | Throw e => Throw e
  | Ok error =>
      let message := get_prop_opt error "message" in
      if truthy message
      then match ToPrimitive message with
           | Throw e => Throw e
           | Ok _ => Ok (String.append "Meta API error: " (js_toString message))
           end
      else Ok (String.append "Meta API error: " statusText)
  end.

(** [sendMessage], lines 84-132, given how the [fetch] ends; the log of
    line 121 converts the id to a string; the [catch] rethrows what the
    [try] raised. *)
Definition provider_sendMessage (config : option WhatsAppConfig) (fetched : FetchOutcome)
  : Result JSValue :=
  match config with
  | None => Throw (Error "Provider not initialized")
  | Some _ =>
      match fetched with
      | FetchRejects e => Throw e
      | FetchResponse false statusText json =>
          match json with
          | Throw e => Throw e
          | Ok errorData =>
              match meta_api_error errorData statusText with
              | Throw e => Throw e
              | Ok message => Throw (Error message)
              end
          end
      | FetchResponse true _ json =>
          match json with
          | Throw e => Throw e
          | Ok data =>
              match get_prop data "messages" with
              | Throw e => Throw e
              | Ok messages =>
                  let messageId := get_prop_opt (first_item_opt messages) "id" in
                  if negb (truthy messageId)
                  then Throw (Error "No message ID returned from Meta API")
                  else match ToPrimitive messageId with
                       | Throw e => Throw e
                       | Ok _ => Ok messageId
                       end
              end
          end
      end
  end.

(** [markAsRead], lines 137-166: the body of the [try], which reads the
    JSON of a response without [ok] to log it, and the [catch], which
    swallows whatever the body raised. *)
Definition provider_markAsRead_try (fetched : FetchOutcome) : Result unit :=
  match fetched with
  | FetchRejects e => Throw e
  | FetchResponse ok _ json =>
      if negb ok
      then match json with
           | Throw e => Throw e
           | Ok errorData => Ok tt
           end
      else Ok tt
  end.

Definition provider_markAsRead (config : option WhatsAppConfig) (fetched : FetchOutcome)
  : Result unit :=
  match config with
  | None => Throw (Error "Provider not initialized")
  | Some _ =>
      match provider_markAsRead_try fetched with
      | Ok _ => Ok tt
      | Throw _ => Ok tt
      end
  end.

End Provider.

(* ===================================================================== *)
(** ** message-manager.ts: the HTTP routes *)

Section Routes.
Context {Num : JSNumber} {Env : Environment} {Rt : Runtime}.

(** A request as the handlers see it once its URL has parsed: the
    method, the path and the query parameters of the parsed URL ([None]
    for an absent parameter), the signature header and the body. *)
Record Request := {
  req_method : string;
  req_pathname : string;
  hub_mode : option string;
  hub_verify_token : option string;
  hub_challenge : option string;
  x_hub_signature_256 : option string;
  req_body : string
}.

Inductive HttpBody : Type :=
  | BodyText (s : string)
  | BodyJSON (v : JSValue).

Record HttpResponse := {
  http_status : Z;
  http_body : HttpBody
}.

(** [token || ''] *)
Definition or_empty_string (s : option string) : string :=
  match s with
  | Some v => v
  | None => EmptyString
  end.

(** [handleWebhookVerification], lines 250-267; [res.end(null)] sends an
    empty body. *)
Definition handleWebhookVerification (expectedToken : string)
    (mode token challenge : option string) : HttpResponse :=
  let subscribe := match mode with
                   | Some m => String.eqb m "subscribe"
                   | None => false
                   end in
  if subscribe && verifyWebhookToken expectedToken (Some (or_empty_string token))
  then {| http_status := 200; http_body := BodyText (or_empty_string challenge) |}
  else {| http_status := 403; http_body := BodyText "Forbidden" |}.

Definition text_response (r : Response) : HttpResponse :=
  {| http_status := status r; http_body := BodyText (payload r) |}.

(** [handleWhatsAppWebhook], lines 197-242; [expectedToken] is
    [config.providerConfig.whatsappVerifyToken]. *)
Definition handleWhatsAppWebhook (expectedToken : string) (req : Request)
    : World -> HttpResponse * World :=
  fun w =>
    if String.eqb (req_method req) "GET"
    then (handleWebhookVerification expectedToken
            (hub_mode req) (hub_verify_token req) (hub_challenge req), w)
    else if String.eqb (req_method req) "POST"
    then let (r, w') := handleWhatsAppWebhook_POST (x_hub_signature_256 req) (req_body req) w
         in (text_response r, w')
    else ({| http_status := 405; http_body := BodyText "Method Not Allowed" |}, w).

Definition project_info : JSValue :=
  JObject [ ("title", JString "WhatsApp-Me");
            ("description", JString "A Claude Code plugin that lets Claude message you on WhatsApp. Get notified on your phone when Claude finishes tasks, runs into errors, or needs your input.");
            ("setup_details", JString "https://github.com/asharibali/whatsapp-me") ].

(** The request listener of [startServer], lines 80-111, once the URL
    has parsed at line 79; [uptime] is the reading of
    [process.uptime()]. *)
Definition requestListener (expectedToken : string) (uptime : Number) (req : Request)
    : World -> HttpResponse * World :=
  fun w =>
    if String.eqb (req_pathname req) "/" || String.eqb (req_pathname req) EmptyString
    then ({| http_status := 200; http_body := BodyJSON project_info |}, w)
    else if String.eqb (req_pathname req) "/webhook"
    then handleWhatsAppWebhook expectedToken req w
    else if String.eqb (req_pathname req) "/health"
    then ({| http_status := 200;
             http_body := BodyJSON (JObject
               [ ("status", JString "ok");
                 ("activeConversations", JNum (number_of_nat (size (activeConversations w))));
                 ("uptime", JNum uptime) ]) |}, w)
    else ({| http_status := 404; http_body := BodyText "Not Found" |}, w).

(** A request as Node hands it to the listener: the method, the request
    target, the [Host] and signature headers, and the body. *)
Record IncomingMessage := {
  im_method : string;
  im_url : string;
  im_host : option string;
  im_x_hub_signature_256 : option string;
  im_body : string
}.

(** [`http://${req.headers.host}`] *)
Definition base_of (host : option string) : string :=
  String.append "http://" (match host with
                           | Some h => h
                           | None => "undefined"
                           end).

Definition parsed_request (req : IncomingMessage) (u : URL) : Request :=
  {| req_method := im_method req;
     req_pathname := pathname u;
     hub_mode := searchParams_get u "hub.mode";
     hub_verify_token := searchParams_get u "hub.verify_token";
     hub_challenge := searchParams_get u "hub.challenge";
     x_hub_signature_256 := im_x_hub_signature_256 req;
     req_body := im_body req |}.

(** How the listener ends: it answers, or an exception leaves it. What
    the runtime does with the process then is not the program's. *)
Inductive Served : Type :=
  | Answered (response : HttpResponse) (w : World)
  | Uncaught (e : JSError).

(** The listener given to [createServer], lines 78-111, whole: the URL
    is parsed at line 79, outside any [try]. ([handleWhatsAppWebhook]
    parses it again at line 198, from the same two strings.) *)
Definition createServer_listener (expectedToken : string) (uptime : Number)
    (req : IncomingMessage) (w : World) : Served :=
  match new_URL (im_url req) (base_of (im_host req)) with
  | None => Uncaught (Raised InvalidURL)
  | Some u =>
      let (response, w') := requestListener expectedToken uptime (parsed_request req u) w in
      Answered response w'
  end.

End Routes.

(* ===================================================================== *)
(** ** Predicates on the conversation registry *)

Definition all_digits (s : string) : Prop :=
  Forall (fun c => is_decimal_digit c = true) (list_ascii_of_string s).

Section Registry.
Context `{Env : Environment}.

(** What holds of the registry in every world the process can reach:
    the counter has counted the conversation objects, the object created
    [n]-th carries an id made from [n], is active and is registered under
    its id, and the registry holds nothing else. *)
Record registry_ok (w : World) : Prop := {
  registry_counter : currentConversationId w = N.of_nat (length (objects w));
  registry_size : size (activeConversations w) = length (objects w);
  registry_object : forall (r : nat) (st : ConversationState),
    objects w !! r = Some st ->
    active st = true
    /\ activeConversations w !! conversationId st = Some r
    /\ exists now : Number,
         conversationId st = conversation_id_string (N.of_nat (S r)) now;
  registry_key : forall (cid : string) (r : nat),
    activeConversations w !! cid = Some r ->
    exists st : ConversationState, objects w !! r = Some st /\ conversationId st = cid
}.

(** The conversations of [w0] are those of [w], under the same ids and
    with the same senders, and their histories have only grown. *)
Definition extends (w0 w : World) : Prop :=
  forall (cid : string) (r : nat) (st : ConversationState),
    activeConversations w0 !! cid = Some r -> objects w0 !! r = Some st ->
    activeConversations w !! cid = Some r
    /\ exists st' : ConversationState,
         objects w !! r = Some st'
         /\ conversationId st' = conversationId st
         /\ userPhoneNumber st' = userPhoneNumber st
         /\ startTime st' = startTime st
         /\ exists added : list HistoryEntry,
              messageHistory st' = messageHistory st ++ added.

(** Every pending promise is rejected by an armed timer. *)
Definition timed (w : World) : Prop :=
  forall p : nat, promises w !! p = Some Pending ->
    exists (t : nat) (tm : Timer), timers w !! t = Some tm /\ handler_reject tm = p.

(** What a call that recorded nothing may have done to [w]: the
    pending-reply table, the promises, the timers and the history under
    every id are as they were; at most one conversation was created for
    [phone], with an empty history, and registered under its id. *)
Definition at_most_created (phone : JSValue) (w w' : World) : Prop :=
  same_replies w w'
  /\ (forall cid : string, getConversationHistory cid w' = getConversationHistory cid w)
  /\ (w' = w
      \/ exists st : ConversationState,
           objects w' = objects w ++ [st]
           /\ userPhoneNumber st = phone
           /\ messageHistory st = []
           /\ activeConversations w'
              = <[conversationId st := length (objects w)]> (activeConversations w)
           /\ currentConversationId w' = N.succ (currentConversationId w)).

(** Every entry of the pending-reply table is under the normalised
    number of the configured user [cfg]. *)
Definition single_key (cfg : ServerConfig) (w : World) : Prop :=
  config w = cfg
  /\ forall key : string,
       key <> normalizePhoneNumber (config_userPhoneNumber cfg) ->
       pendingResponses w !! key = None.

(** The provider's envelope around a list of status updates. *)
Definition statuses_event (statuses : list JSValue) : JSValue :=
  JObject [ ("object", JString whatsapp_object);
            ("entry", JArray [ JObject [ ("changes", JArray [ JObject [
               ("value", JObject [ ("statuses", JArray statuses) ]) ] ]) ] ]) ].

End Registry.

(* ===================================================================== *)
(** ** index.ts: the tools that do not wait *)

Section Tools.
Context {Num : JSNumber} {Env : Environment} {Rt : Runtime}.

(** [case 'get_setup_info'], lines 182-206; [url] is the module's
    [publicUrl], [None] while it is [null]. *)
Definition get_setup_info (url : option string) : ToolResult :=
  match url with
  | Some (String c rest) =>
      {| content_text := JSON_stringify (JObject
           [ ("status", JString "active");
             ("webhook_url", JString (String.append (String c rest) "/webhook"));
             ("verify_token", JString (env_or "WHATSAPPME_VERIFY_TOKEN" "Not set"));
             ("phone_number_id", JString (env_or "WHATSAPPME_PHONE_NUMBER_ID" "Not set"));
             ("instructions", JArray
                [ JString "1. Go to Meta Developer Console > WhatsApp > Configuration";
                  JString "2. Click 'Edit' and paste the 'webhook_url' and 'verify_token'";
                  JString "3. In 'Webhook fields', select 'messages'";
                  JString "4. Send a test message to verify the connection" ]) ]);
         isError := false |}
  | _ => error_result (Error "Public URL not initialized")
  end.

(** [getActiveConversations]: the keys of [activeConversations] in
    insertion order. The only [set] on that map is the one of
    [getOrCreateConversation], which also appends the new object to
    [objects], and the ids it makes never repeat, so the keys in
    insertion order are the ids of the objects in order of creation. *)
Definition getActiveConversations (w : World) : list string :=
  map conversationId (objects w).

(** [history.slice(start)] *)
Definition slice_from {A : Type} (start : IntegerOrInfinity) (l : list A) : list A :=
  let len := Z.of_nat (length l) in
  let k := match start with
           | MinusInfinity => 0
           | Finite z => if z <? 0 then Z.max (len + z) 0 else Z.min z len
           | PlusInfinity => len
           end in
  drop (Z.to_nat k) l.

Definition role_name (r : Role) : string :=
  match r with
  | claude => "claude"
  | user => "user"
  end.

(** [msg => ({ role, text, timestamp: new Date(msg.timestamp).toISOString() })];
    [toISOString] raises a [RangeError] on an invalid date. *)
Definition history_item (msg : HistoryEntry) : Result JSValue :=
  match toISOString (timestamp msg) with
  | Some iso => Ok (JObject [ ("role", JString (role_name (role msg)));
                              ("text", JString (text msg));
                              ("timestamp", JString iso) ])
  | None => Throw (Raised InvalidTime)
  end.

(** [items.map(f)] for an [f] that can throw. *)
Fixpoint map_items {A B : Type} (f : A -> Result B) (items : list A) : Result (list B) :=
  match items with
  | [] => Ok []
  | x :: rest =>
      match f x with
      | Throw e => Throw e
      | Ok y => match map_items f rest with
                | Throw e => Throw e
                | Ok ys => Ok (y :: ys)
                end
      end
  end.

(** [case 'get_conversation_history'], lines 297-333, inside the
    handler's [try]; [-limit] converts [limit] to a number (line 315). *)
Definition get_conversation_history (args : JSValue) (w : World) : ToolResult :=
  match get_prop args "limit" with
  | Throw e => error_result e
  | Ok given =>
      let limit := if truthy given then given else JNum number_20 in
      let conversations := getActiveConversations w in
      match last conversations, ToPrimitive limit with
      | None, _ => {| content_text := Plain "No active conversations"; isError := false |}
      | Some cid, Throw e => error_result e
      | Some cid, Ok _ =>
          let history := getConversationHistory cid w in
          let recentHistory := slice_from (negated_integer limit) history in
          match map_items history_item recentHistory with
          | Throw e => error_result e
          | Ok messages =>
              {| content_text := JSON_stringify (JObject
                   [ ("conversationId", JString cid);
                     ("messageCount", JNum (number_of_nat (length recentHistory)));
                     ("messages", JArray messages) ]);
                 isError := false |}
          end
      end
  end.

End Tools.

(* ===================================================================== *)
(** ** The concrete runtime, continued *)

Section DemoRuntime.

#[local] Existing Instance demo_numbers.
#[local] Existing Instance demo_environment.

Definition demo_process_env (name : string) : option string :=
  if String.eqb name "WHATSAPPME_PHONE_NUMBER_ID" then Some "106540352242922"
  else if String.eqb name "WHATSAPPME_ACCESS_TOKEN" then Some "EAAG-demo-token"
  else if String.eqb name "WHATSAPPME_APP_SECRET" then Some "secret"
  else if String.eqb name "WHATSAPPME_VERIFY_TOKEN" then Some "my-verify-token"
  else if String.eqb name "WHATSAPPME_USER_PHONE_NUMBER" then Some "+1 (555) 123-4567"
  else None.

(** Integers again; a date is printed as its number of milliseconds and
    is invalid when negative; a request target is its own path, and does
    not parse when it begins with two slashes. *)
Definition demo_runtime : Runtime :=
  {| new_URL := fun input base =>
       if startsWith input "//" then None
       else Some {| pathname := input; searchParams_get := fun _ => None |};
     process_env := demo_process_env;
     parseInt10 := fun _ => 3333;
     number_of_nat := Z.of_nat;
     js_toString := fun v => match v with JString s => s | _ => EmptyString end;
     negated_integer := fun v => match v with JNum z => Finite (- z) | _ => Finite 0 end;
     toISOString := fun z => if 0 <=? z then Some (number_toString z) else None;
     number_20 := 20 |}.

Definition button_message (from label : string) : JSValue :=
  JObject [ ("from", JString from); ("id", JString "wamid.2");
            ("timestamp", JString "1700000000"); ("type", JString "button");
            ("button", JObject [ ("text", JString label) ]) ].

Definition demo_args : JSValue :=
  JObject [ ("message", JString "Deploy finished. Continue?");
            ("wait_for_reply", JBool true) ].

(** What the call with [demo_args] holds while the provider is awaited,
    in a fresh process. *)
Definition demo_in_flight : SendInFlight :=
  {| sending_conversationId := "conv-1-1700000000000";
     sending_state := Some O;
     sending_message := "Deploy finished. Continue?";
     sending_waitForReply := true;
     sending_timeoutMs := JNum 3600000 |}.

(** A question was sent and its reply is awaited. *)
Definition demo_asked : list Event :=
  [ ToolCall demo_args; ProviderAnswers demo_in_flight (Ok "wamid.9") ].

(** A text message from a number that is not the configured user's. *)
Definition demo_stranger_message : list (string * JSValue) :=
  [ ("from", JString "4915112345678"); ("id", JString "wamid.3");
    ("timestamp", JString "1700000000"); ("type", JString "text");
    ("text", JObject [ ("body", JString "yes") ]) ].

Definition demo_health_request : Request :=
  {| req_method := "GET"; req_pathname := "/health"; hub_mode := None;
     hub_verify_token := None; hub_challenge := None;
     x_hub_signature_256 := None; req_body := EmptyString |}.

End DemoRuntime.

(* ===================================================================== *)
(** * Properties *)

(** ** Signature verifier *)

Example sha256_abc :
  hex_encode (SHA256.digest (bytes_of_string "abc")) =
  "ba7816bf8f01cfea414140de5dae2223b00361a396177a9cb410ff61f20015ad"%string.
Proof. vm_compute. reflexivity. Qed.

Example hmac_rfc4231_case2 :
  createHmac_sha256_hex "Jefe" "what do ya want for nothing?" =
  "5bdcc146bf60754e6a042426089575c75a003f089d2739839dec58b964ec3843"%string.
Proof. vm_compute. reflexivity. Qed.


(* --------------------------------------------------------------------- *)
(** *** Facts about the comparison and the hex codec *)

Lemma xor_accumulate_zero (a : list Z) : forall (b : list Z) (r : Z),
  length a = length b ->
  (xor_accumulate r a b = 0 <-> r = 0 /\ a = b).
Proof.
  induction a as [|x a IH]; intros [|y b] r Hlen; simpl in *; try discriminate.
  - split; [intros ->; auto | tauto].
  - injection Hlen as Hlen. rewrite (IH b _ Hlen), Z.lor_eq_0_iff, Z.lxor_eq_0_iff.
    split.
    + intros [[-> ->] ->]; auto.
    + intros [-> [= -> ->]]; auto.
Qed.

Lemma timingSafeEqual_true_iff (a b : list Z) :
  timingSafeEqual a b = true <-> a = b.
Proof.
  unfold timingSafeEqual.
  destruct (Nat.eqb (length a) (length b)) eqn:E; simpl.
  - apply Nat.eqb_eq in E. rewrite Z.eqb_eq, (xor_accumulate_zero a b 0 E). tauto.
  - apply Nat.eqb_neq in E. split; [discriminate | intros ->; contradiction].
Qed.

Lemma timingSafeEqual_refl (a : list Z) : timingSafeEqual a a = true.
Proof. now apply timingSafeEqual_true_iff. Qed.

Lemma unhex_range (c : ascii) (x : Z) : unhex c = Some x -> 0 <= x < 16.
Proof.
  unfold unhex. set (n := Z.of_N (N_of_ascii c)).
  repeat match goal with
         | |- context [if ?b then _ else _] => destruct b eqn:?
         end; intros [= <-]; lia.
Qed.


Lemma code_inj (c d : ascii) : code c = code d -> c = d.
Proof.
  unfold code. intros H. apply N2Z.inj in H.
  rewrite <- (ascii_N_embedding c), <- (ascii_N_embedding d). now f_equal.
Qed.

Lemma code_range (c : ascii) : 0 <= code c < 256.
Proof. unfold code. pose proof (N_ascii_bounded c). lia. Qed.

Lemma code_ascii_of_N (n : N) : (n < 256)%N -> code (ascii_of_N n) = Z.of_N n.
Proof. intros H. unfold code. now rewrite N_ascii_embedding. Qed.

Lemma code_hex_digit (n : Z) : 0 <= n < 16 ->
  code (hex_digit n) = if n <? 10 then 48 + n else 87 + n.
Proof.
  intros H. unfold hex_digit. rewrite code_ascii_of_N; destruct (n <? 10); lia.
Qed.

Lemma code_to_upper (d : ascii) : 32 <= code d -> code (to_upper d) = code d - 32.
Proof.
  intros H. pose proof (code_range d) as R. unfold to_upper.
  rewrite code_ascii_of_N; unfold code in *; lia.
Qed.

Lemma unhex_code (c : ascii) (n : Z) :
  unhex c = Some n <->
  (48 <= code c <= 57 /\ n = code c - 48) \/
  (97 <= code c <= 102 /\ n = code c - 87) \/
  (65 <= code c <= 70 /\ n = code c - 55).
Proof.
  unfold unhex. fold (code c).
  repeat match goal with
         | |- context [if ?b then _ else _] => destruct b eqn:?
         end;
    (split; [intros [= <-] | intros H]); try lia; try discriminate.
  all: f_equal; lia.
Qed.

Lemma unhex_hex_digit (n : Z) : 0 <= n < 16 -> unhex (hex_digit n) = Some n.
Proof.
  intros Hn. apply unhex_code. rewrite (code_hex_digit n Hn).
  destruct (n <? 10) eqn:E; [apply Z.ltb_lt in E | apply Z.ltb_ge in E]; lia.
Qed.

Lemma hex_decode_encode (bs : list Z) :
  byte_range bs -> hex_decode (hex_encode bs) = bs.
Proof.
  induction 1 as [|b bs Hb _ IH]; simpl; [reflexivity|].
  rewrite !unhex_hex_digit, IH.
  - f_equal. symmetry. apply Z.div_mod. lia.
  - apply Z.mod_pos_bound; lia.
  - split; [apply Z.div_pos; lia | apply Z.div_lt_upper_bound; lia].
Qed.

(** The only character other than the lowercase digit of [n] that decodes
    to [n] is the uppercase form of a letter digit. *)
Lemma unhex_other_char (n : Z) (c : ascii) :
  0 <= n < 16 -> c <> hex_digit n ->
  (unhex c = Some n <->
   is_lower_hex_letter (hex_digit n) = true /\ c = to_upper (hex_digit n)).
Proof.
  intros Hn Hne.
  assert (Hm : code c <> code (hex_digit n)) by (intros E; apply Hne, code_inj, E).
  pose proof (code_hex_digit n Hn) as Hd.
  unfold is_lower_hex_letter. fold (code (hex_digit n)).
  rewrite unhex_code, andb_true_iff, !Z.leb_le.
  destruct (n <? 10) eqn:E10; [apply Z.ltb_lt in E10 | apply Z.ltb_ge in E10].
  - split; [lia | intros [? _]; lia].
  - split.
    + intros H. split; [lia|]. apply code_inj. rewrite code_to_upper; lia.
    + intros [_ ->]. rewrite code_to_upper; lia.
Qed.

Lemma be_bytes_range (n : nat) (x : Z) : byte_range (SHA256.be_bytes n x).
Proof.
  induction n as [|n IH]; simpl; constructor; [|exact IH].
  apply Z.mod_pos_bound; lia.
Qed.

Lemma digest_range (msg : list Z) : byte_range (SHA256.digest msg).
Proof.
  unfold SHA256.digest, byte_range. apply Forall_concat, Forall_map.
  apply Forall_forall. intros x _. apply be_bytes_range.
Qed.

Lemma hmac_range (key msg : list Z) : byte_range (SHA256.hmac key msg).
Proof. apply digest_range. Qed.

(** Changing one hex digit of an encoded digest: the decoded bytes stay
    the same exactly when the new character decodes to the same nibble. *)
Lemma hex_decode_set_char (D : list Z) : byte_range D ->
  forall (j : nat) (c : ascii), (j < String.length (hex_encode D))%nat ->
  (hex_decode (set_char j c (hex_encode D)) = D <->
   option_map unhex (String.get j (hex_encode D)) = Some (unhex c)).
Proof.
  induction 1 as [|b D Hb HD IH]; intros j c Hj; simpl in Hj; [lia|].
  assert (Hq : 0 <= b / 16 < 16)
    by (split; [apply Z.div_pos; lia | apply Z.div_lt_upper_bound; lia]).
  assert (Hr : 0 <= b mod 16 < 16) by (apply Z.mod_pos_bound; lia).
  pose proof (Z.div_mod b 16 ltac:(lia)) as Hdm.
  destruct j as [|[|j]]; simpl.
  - rewrite !unhex_hex_digit by assumption.
    destruct (unhex c) as [x|] eqn:Ec.
    + rewrite hex_decode_encode by assumption. split.
      * intros [= E]. do 2 f_equal. lia.
      * intros [= E]. f_equal. lia.
    + split; discriminate.
  - rewrite !unhex_hex_digit by assumption.
    destruct (unhex c) as [y|] eqn:Ec.
    + rewrite hex_decode_encode by assumption. split.
      * intros [= E]. do 2 f_equal. lia.
      * intros [= E]. f_equal. lia.
    + split; discriminate.
  - rewrite !unhex_hex_digit by assumption.
    rewrite <- (IH j c) by lia. split.
    + now intros [= E].
    + intros E. now f_equal.
Qed.

(** Verification succeeds exactly when the received hex digits decode to
    the bytes of the digest. *)
Lemma prefix_unfold (E : string) :
  String.append sha256_prefix E
  = String "s" (String "h" (String "a" (String "2" (String "5" (String "6" (String "=" E)))))).
Proof. reflexivity. Qed.

Lemma validate_prefixed (S B E : string) :
  validateMetaWhatsAppSignature S (Some (String.append sha256_prefix E)) B
  = timingSafeEqual (hex_decode E) (SHA256.hmac (bytes_of_string S) (bytes_of_string B)).
Proof.
  rewrite prefix_unfold. unfold validateMetaWhatsAppSignature, createHmac_sha256_hex.
  change (startsWith _ sha256_prefix) with true.
  change (substring_from 7 _) with E. cbv beta iota zeta delta [negb].
  now rewrite hex_decode_encode by apply hmac_range.
Qed.

Lemma validate_no_prefix (S B header : string) :
  startsWith header sha256_prefix = false ->
  validateMetaWhatsAppSignature S (Some header) B = false.
Proof.
  intros Hp. unfold validateMetaWhatsAppSignature. rewrite Hp.
  now destruct header.
Qed.

Lemma set_char_prefix (i : nat) (c : ascii) (E : string) :
  (7 <= i)%nat ->
  set_char i c (String.append sha256_prefix E)
  = String.append sha256_prefix (set_char (i - 7) c E).
Proof.
  intros Hi. do 7 (destruct i as [|i]; [lia|]). rewrite !prefix_unfold. simpl.
  now rewrite Nat.sub_0_r.
Qed.

Lemma get_prefix (i : nat) (E : string) :
  (7 <= i)%nat ->
  String.get i (String.append sha256_prefix E) = String.get (i - 7) E.
Proof.
  intros Hi. do 7 (destruct i as [|i]; [lia|]). rewrite prefix_unfold. simpl.
  now rewrite Nat.sub_0_r.
Qed.

Lemma set_char_breaks_prefix (i : nat) (c : ascii) (E : string) :
  (i < 7)%nat ->
  String.get i (String.append sha256_prefix E) <> Some c ->
  startsWith (set_char i c (String.append sha256_prefix E)) sha256_prefix = false.
Proof.
  rewrite prefix_unfold. intros Hi Hne. unfold sha256_prefix.
  do 7 (destruct i as [|i];
        [cbn [set_char startsWith String.get] in *; rewrite ?Ascii.eqb_refl;
         match goal with
         | |- context [Ascii.eqb ?a c] =>
             destruct (Ascii.eqb_spec a c) as [Eq|Eq];
             [elim Hne; now f_equal | reflexivity]
         end|]).
  lia.
Qed.

Lemma get_hex_encode (D : list Z) : byte_range D ->
  forall (j : nat) (d : ascii), String.get j (hex_encode D) = Some d ->
  exists n, 0 <= n < 16 /\ d = hex_digit n.
Proof.
  induction 1 as [|b D Hb HD IH]; intros j d Hj; simpl in Hj; [discriminate|].
  destruct j as [|[|j]]; simpl in Hj.
  - injection Hj as <-. exists (b / 16). split; [|reflexivity].
    split; [apply Z.div_pos; lia | apply Z.div_lt_upper_bound; lia].
  - injection Hj as <-. exists (b mod 16). split; [|reflexivity].
    apply Z.mod_pos_bound; lia.
  - eauto.
Qed.

Lemma get_Some_lt (s : string) : forall (i : nat),
  (i < String.length s)%nat -> exists d, String.get i s = Some d.
Proof.
  induction s as [|a s IH]; intros i Hi; simpl in *; [lia|].
  destruct i as [|i]; [eauto | apply IH; lia].
Qed.

Lemma length_append (s t : string) :
  String.length (String.append s t) = (String.length s + String.length t)%nat.
Proof. induction s as [|a s IH]; simpl; [reflexivity | now rewrite IH]. Qed.

(** What [validateMetaWhatsAppSignature] accepts. The header
    ['sha256=' + hex(HMAC-SHA256(S, B))] verifies; a missing or empty
    header and a header without the ['sha256='] prefix do not; a header
    obtained from the valid one by changing the single character at index
    [i] to [c] verifies if and only if [i] lies in the digest and [c] is
    the uppercase form of the letter digit (a-f) it replaces, because the
    digest is compared after hex decoding; and the valid header for [B]
    verifies against a body [B'] exactly when [B'] has the same HMAC as
    [B]. *)
Lemma validateMetaWhatsAppSignature_spec (S B : string) :
  validateMetaWhatsAppSignature S (Some (valid_header S B)) B = true
  /\ validateMetaWhatsAppSignature S None B = false
  /\ validateMetaWhatsAppSignature S (Some EmptyString) B = false
  /\ (forall header : string,
        startsWith header sha256_prefix = false ->
        validateMetaWhatsAppSignature S (Some header) B = false)
  /\ (forall (i : nat) (c : ascii),
        (i < String.length (valid_header S B))%nat ->
        String.get i (valid_header S B) <> Some c ->
        (validateMetaWhatsAppSignature S (Some (set_char i c (valid_header S B))) B = true
         <-> exists d : ascii,
               String.get i (valid_header S B) = Some d /\ (7 <= i)%nat /\
               is_lower_hex_letter d = true /\ c = to_upper d))
  /\ (forall B' : string,
        validateMetaWhatsAppSignature S (Some (valid_header S B)) B' = true
        <-> SHA256.hmac (bytes_of_string S) (bytes_of_string B')
            = SHA256.hmac (bytes_of_string S) (bytes_of_string B)).
Proof.
  pose proof (hmac_range (bytes_of_string S) (bytes_of_string B)) as HR.
  unfold valid_header, createHmac_sha256_hex.
  set (D := SHA256.hmac (bytes_of_string S) (bytes_of_string B)) in *.
  repeat split.
  - rewrite validate_prefixed, hex_decode_encode by assumption.
    apply timingSafeEqual_refl.
  - apply validate_no_prefix.
  - destruct (Nat.lt_ge_cases i 7) as [Hlt|Hge].
    + now rewrite validate_no_prefix by now apply set_char_breaks_prefix.
    + rewrite set_char_prefix, validate_prefixed, timingSafeEqual_true_iff by assumption.
      fold D. intros Hdec.
      rewrite get_prefix in * by assumption.
      rewrite length_append in H. simpl in H.
      destruct (get_Some_lt (hex_encode D) (i - 7) ltac:(lia)) as [d Hd].
      destruct (get_hex_encode D HR _ _ Hd) as [n [Hn ->]].
      apply hex_decode_set_char in Hdec; [|assumption|lia].
      rewrite Hd in Hdec. simpl in Hdec. rewrite unhex_hex_digit in Hdec by assumption.
      injection Hdec as Hdec. symmetry in Hdec.
      apply unhex_other_char in Hdec; [|assumption|congruence].
      exists (hex_digit n). tauto.
  - intros [d [Hd [Hge [Hl ->]]]].
    rewrite set_char_prefix, validate_prefixed, timingSafeEqual_true_iff by assumption.
    fold D. rewrite get_prefix in * by assumption.
    rewrite length_append in H. simpl in H.
    destruct (get_hex_encode D HR _ _ Hd) as [n [Hn ->]].
    apply hex_decode_set_char; [assumption|lia|].
    rewrite Hd. simpl. rewrite unhex_hex_digit by assumption. f_equal. symmetry.
    apply unhex_other_char; [assumption| |tauto].
    intros E. apply H0. rewrite Hd. now f_equal.
  - rewrite validate_prefixed, timingSafeEqual_true_iff, hex_decode_encode by assumption.
    congruence.
  - rewrite validate_prefixed, timingSafeEqual_true_iff, hex_decode_encode by assumption.
    congruence.
Qed.

(** C3 (the code at the failing input). The claim, like the algorithm
    the function documents (the hex digest with ['sha256='] before it is
    compared with the header), refuses every header that differs from the
    valid one in a single byte. For secret ["secret"] and body ["{}"] the
    digest has the letter [c] at index 15 of the header; the header with
    that one character replaced by [C] is another string, and the
    function accepts it. *)
Lemma uppercase_hex_digit_still_verifies :
  let header := valid_header "secret" "{}" in
  String.get 15 header = Some "c"%char
  /\ set_char 15 "C" header <> header
  /\ validateMetaWhatsAppSignature "secret" (Some (set_char 15 "C" header)) "{}" = true.
Proof.
  vm_compute. repeat split. discriminate.
Qed.

(* ===================================================================== *)
(** ** The conversation registry *)

Section Properties.
Context `{Env : Environment}.

Lemma sameValueZero_string (s : string) : sameValueZero (JString s) (JString s) = true.
Proof. apply String.eqb_refl. Qed.

Lemma jsmap_get_set {V : Type} (k : JSValue) (v : V) (m : list (JSValue * V)) :
  sameValueZero k k = true -> jsmap_get k (jsmap_set k v m) = Some v.
Proof.
  intros Hk. induction m as [|[k' v'] m IH]; simpl.
  - now rewrite Hk.
  - destruct (sameValueZero k' k) eqn:E; simpl; now rewrite E.
Qed.

Lemma same_replies_refl (w : World) : same_replies w w.
Proof. repeat split. Qed.


Lemma conversation_id_truthy (n : N) (now : Number) :
  string_truthy (conversation_id_string n now) = true.
Proof. reflexivity. Qed.

Lemma getOrCreateConversation_reuse (phoneNumber : JSValue) (w : World) (cid : string) :
  jsmap_get phoneNumber (phoneToConversationId w) = Some cid ->
  reusable (Some cid) w = true ->
  getOrCreateConversation phoneNumber w = (Ok cid, w).
Proof.
  intros Hget Hre. unfold getOrCreateConversation, bind, gets, ret.
  now rewrite Hget, Hre.
Qed.

(** What [getOrCreateConversation] leaves: a world in which some id is
    mapped to a live, active conversation object, and is the one the
    phone number maps to. *)
Lemma getOrCreateConversation_world (phoneNumber : JSValue) (w : World) :
  exists (cid : string) (w' : World) (r : nat) (st : ConversationState),
    snd (getOrCreateConversation phoneNumber w) = w'
    /\ (converts phoneNumber = true ->
        getOrCreateConversation phoneNumber w = (Ok cid, w'))
    /\ activeConversations w' !! cid = Some r
    /\ objects w' !! r = Some st
    /\ active st = true
    /\ reusable (Some cid) w' = true
    /\ (sameValueZero phoneNumber phoneNumber = true ->
        jsmap_get phoneNumber (phoneToConversationId w') = Some cid)
    /\ same_replies w w'
    /\ markAsRead_calls w' = markAsRead_calls w.
Proof.
  destruct (jsmap_get phoneNumber (phoneToConversationId w)) as [cid|] eqn:Hget.
  - destruct (reusable (Some cid) w) eqn:Hre.
    + pose proof Hre as Hre'. unfold reusable in Hre'.
      apply andb_true_iff in Hre' as [_ Hre'].
      destruct (activeConversations w !! cid) as [r|] eqn:Hr; [|discriminate].
      destruct (objects w !! r) as [st|] eqn:Hst; [|discriminate].
      exists cid, w, r, st.
      rewrite (getOrCreateConversation_reuse _ _ _ Hget Hre).
      repeat split; auto.
    + unfold getOrCreateConversation, bind, gets, ret, modify, Date_now, lift,
        ToPrimitive, converts.
      rewrite Hget, Hre. cbn.
      eexists _, _, (length (objects w)), _.
      split; [destruct (ToPrimitive_throws phoneNumber); reflexivity|].
      split; [intros Hc; apply negb_true_iff in Hc; rewrite Hc; reflexivity|]. cbn.
      rewrite lookup_insert_eq, list_lookup_middle by reflexivity.
      repeat split; auto.
      intros Hk. now apply jsmap_get_set.
  - unfold getOrCreateConversation, bind, gets, ret, modify, Date_now, lift,
      ToPrimitive, converts.
    rewrite Hget. cbn.
    eexists _, _, (length (objects w)), _.
    split; [destruct (ToPrimitive_throws phoneNumber); reflexivity|].
    split; [intros Hc; apply negb_true_iff in Hc; rewrite Hc; reflexivity|]. cbn.
    rewrite lookup_insert_eq, list_lookup_middle by reflexivity.
    repeat split; auto.
    intros Hk. now apply jsmap_get_set.
Qed.

(** For a phone number that has a string form, and so for every string,
    [getOrCreateConversation] does not throw; the id it returns is mapped
    to a live, active conversation object, and is the one the phone
    number maps to afterwards. *)
Lemma getOrCreateConversation_spec (phoneNumber : JSValue) (w : World) :
  converts phoneNumber = true ->
  exists (cid : string) (w' : World) (r : nat) (st : ConversationState),
    getOrCreateConversation phoneNumber w = (Ok cid, w')
    /\ activeConversations w' !! cid = Some r
    /\ objects w' !! r = Some st
    /\ active st = true
    /\ reusable (Some cid) w' = true
    /\ (sameValueZero phoneNumber phoneNumber = true ->
        jsmap_get phoneNumber (phoneToConversationId w') = Some cid)
    /\ same_replies w w'
    /\ markAsRead_calls w' = markAsRead_calls w.
Proof.
  intros Hc.
  destruct (getOrCreateConversation_world phoneNumber w)
    as (cid & w' & r & st & _ & Hrun & Hrest).
  exists cid, w', r, st. split; [now apply Hrun | exact Hrest].
Qed.

(* ===================================================================== *)
(** ** Sending *)

Lemma getOrCreateConversation_cases (phoneNumber : JSValue) (w : World) :
  (exists cid : string, getOrCreateConversation phoneNumber w = (Ok cid, w))
  \/ exists (w' : World) (st : ConversationState),
       snd (getOrCreateConversation phoneNumber w) = w'
       /\ (converts phoneNumber = true ->
           getOrCreateConversation phoneNumber w = (Ok (conversationId st), w'))
       /\ conversationId st
          = conversation_id_string (N.succ (currentConversationId w))
              (clock (clock_reads w))
       /\ userPhoneNumber st = phoneNumber
       /\ messageHistory st = []
       /\ active st = true
       /\ objects w' = objects w ++ [st]
       /\ activeConversations w'
          = <[conversationId st := length (objects w)]> (activeConversations w)
       /\ currentConversationId w' = N.succ (currentConversationId w).
Proof.
  set (created := {| conversationId :=
                       conversation_id_string (N.succ (currentConversationId w))
                         (clock (clock_reads w));
                     userPhoneNumber := phoneNumber; messageHistory := [];
                     startTime := clock (S (clock_reads w));
                     lastMessageAt := clock (S (S (clock_reads w)));
                     active := true |}).
  destruct (jsmap_get phoneNumber (phoneToConversationId w)) as [cid|] eqn:Hget.
  - destruct (reusable (Some cid) w) eqn:Hre.
    + left. exists cid. now apply getOrCreateConversation_reuse.
    + right. unfold getOrCreateConversation, bind, gets, ret, modify, Date_now, lift,
        ToPrimitive, converts.
      rewrite Hget, Hre. cbn. eexists _, created.
      split; [destruct (ToPrimitive_throws phoneNumber); reflexivity|].
      split; [intros Hc; apply negb_true_iff in Hc; rewrite Hc; reflexivity|]. cbn.
      split_and!; reflexivity.
  - right. unfold getOrCreateConversation, bind, gets, ret, modify, Date_now, lift,
      ToPrimitive, converts.
    rewrite Hget. cbn. eexists _, created.
    split; [destruct (ToPrimitive_throws phoneNumber); reflexivity|].
    split; [intros Hc; apply negb_true_iff in Hc; rewrite Hc; reflexivity|]. cbn.
    split_and!; reflexivity.
Qed.

Lemma sendMessage_begin_spec (message : string) (w : World) :
  exists (cid : string) (r : nat) (w1 : World) (st : ConversationState),
    sendMessage_begin (JString message) w = (Ok (cid, Some r, message), w1)
    /\ activeConversations w1 !! cid = Some r
    /\ objects w1 !! r = Some st
    /\ same_replies w w1
    /\ (w1 = w
        \/ (objects w1 = objects w ++ [st] /\ r = length (objects w)
            /\ messageHistory st = [])).
Proof.
  unfold sendMessage_begin, bind, gets, lift, ret.
  destruct (getOrCreateConversation_cases (JString (config_userPhoneNumber (config w))) w)
    as [[cid Hrun] | (w1 & st & _ & Hrun & _ & _ & Hh & _ & Hobj & Hact & _)];
    [|specialize (Hrun eq_refl)].
  - destruct (getOrCreateConversation_spec (JString (config_userPhoneNumber (config w))) w
                eq_refl)
      as (cid' & w1 & r & st & Hrun' & Hr & Hst & _ & _ & _ & Hsame & _).
    rewrite Hrun in Hrun'. injection Hrun' as <- <-.
    exists cid, r, w, st. rewrite Hrun. cbn. rewrite Hr. auto 6.
  - destruct (getOrCreateConversation_spec (JString (config_userPhoneNumber (config w))) w
                eq_refl)
      as (cid' & w1' & r & st' & Hrun' & Hr & Hst & _ & _ & _ & Hsame & _).
    rewrite Hrun in Hrun'. injection Hrun' as <- <-.
    rewrite Hact, lookup_insert_eq in Hr. injection Hr as <-.
    rewrite Hobj, list_lookup_middle in Hst by reflexivity. injection Hst as <-.
    exists (conversationId st), (length (objects w)), w1, st. rewrite Hrun. cbn.
    rewrite Hact, lookup_insert_eq, Hobj, list_lookup_middle by reflexivity.
    split_and!; auto.
Qed.

Lemma sendMessage_resume_failure (cid : string) (state : option nat) (message : string)
    (e : JSError) (w : World) :
  sendMessage_resume cid state message (Throw e) w = (Throw e, w).
Proof. reflexivity. Qed.

Lemma sendMessage_resume_success (cid : string) (r : nat) (message messageId : string)
    (w : World) :
  exists w2 : World,
    sendMessage_resume cid (Some r) message (Ok messageId) w = (Ok (cid, messageId), w2)
    /\ objects w2
       = alter (touch (clock (S (clock_reads w))))  r
           (alter (push_message {| role := claude; text := message;
                                   timestamp := clock (clock_reads w) |}) r (objects w))
    /\ activeConversations w2 = activeConversations w
    /\ same_replies w w2.
Proof.
  eexists. split; [reflexivity|]. cbn. repeat split.
Qed.

(** C10. [sendMessage] records the assistant's message only after the
    provider has accepted it. Up to the provider's call it changes no
    conversation that exists: it either changes nothing or creates the
    user's conversation with an empty history. When the provider's send
    fails, the error is thrown to the caller and the world is the one the
    call left when it started to wait (also when other handlers ran
    meanwhile), so no history has a new entry and no last-activity time
    has moved. When it succeeds, exactly one entry, of role [claude] and
    carrying the message, is appended to the history of the conversation,
    whose last-activity time is set, and no other conversation changes:
    this holds when nothing runs while the provider is awaited, and also,
    for the history as it is when the provider answers, when other
    handlers ran meanwhile. *)
Theorem sendMessage_records_after_send (message : string) (w : World) :
  exists (cid : string) (r : nat) (w1 : World) (st : ConversationState),
    sendMessage_begin (JString message) w = (Ok (cid, Some r, message), w1)
    /\ activeConversations w1 !! cid = Some r
    /\ objects w1 !! r = Some st
    /\ (w1 = w
        \/ (objects w1 = objects w ++ [st] /\ r = length (objects w)
            /\ messageHistory st = []))
    /\ (forall (r' : nat) (st' : ConversationState),
          objects w !! r' = Some st' -> objects w1 !! r' = Some st')
    /\ (forall (e : JSError) (w' : World),
          sendMessage_resume cid (Some r) message (Throw e) w' = (Throw e, w'))
    /\ (forall e : JSError,
          sendMessage (JString message) (Throw e) w = (Throw e, w1))
    /\ (forall messageId : string,
          exists w2 : World,
            sendMessage (JString message) (Ok messageId) w = (Ok (cid, messageId), w2)
            /\ getConversationHistory cid w2
               = messageHistory st
                 ++ [ {| role := claude; text := message;
                         timestamp := clock (clock_reads w1) |} ]
            /\ (lastMessageAt <$> objects w2 !! r) = Some (clock (S (clock_reads w1)))
            /\ (forall r' : nat, r' <> r -> objects w2 !! r' = objects w1 !! r'))
    /\ (forall (messageId : string) (w' : World) (st' : ConversationState),
          objects w' !! r = Some st' ->
          exists (w2 : World) (st2 : ConversationState),
            sendMessage_resume cid (Some r) message (Ok messageId) w'
            = (Ok (cid, messageId), w2)
            /\ objects w2 !! r = Some st2
            /\ messageHistory st2
               = messageHistory st'
                 ++ [ {| role := claude; text := message;
                         timestamp := clock (clock_reads w') |} ]
            /\ lastMessageAt st2 = clock (S (clock_reads w'))
            /\ (forall r' : nat, r' <> r -> objects w2 !! r' = objects w' !! r')).
Proof.
  destruct (sendMessage_begin_spec message w)
    as (cid & r & w1 & st & Hb & Hr & Hst & _ & Hrel).
  exists cid, r, w1, st. split_and!; auto.
  - intros r' st' H'. destruct Hrel as [-> | (Hobj & _)]; [exact H'|].
    rewrite Hobj. now apply lookup_app_l_Some.
  - intros e. unfold sendMessage, bind. now rewrite Hb.
  - intros messageId.
    destruct (sendMessage_resume_success cid r message messageId w1)
      as (w2 & Hrun & Hobj & Hact & _).
    exists w2. split; [unfold sendMessage, bind; now rewrite Hb|].
    unfold getConversationHistory. rewrite Hact, Hr, Hobj.
    rewrite !list_lookup_alter_eq, Hst. cbn. repeat split.
    intros r' Hne. now rewrite !list_lookup_alter_ne by congruence.
  - intros messageId w' st' Hst'.
    destruct (sendMessage_resume_success cid r message messageId w')
      as (w2 & Hrun & Hobj & _).
    exists w2. eexists. split; [exact Hrun|]. rewrite Hobj.
    rewrite !list_lookup_alter_eq, Hst'. cbn. split_and!; try reflexivity.
    intros r' Hne. now rewrite !list_lookup_alter_ne by congruence.
Qed.

(* ===================================================================== *)
(** ** The pending-reply table *)

Lemma register_spec (k : string) (d : JSValue) (w : World) :
  exists w1 : World,
    register k d w = (Ok (length (promises w)), w1)
    /\ pendingResponses w1
       = <[k := {| resolve := length (promises w); reject := length (promises w);
                   timeout := next_timer w |}]> (pendingResponses w)
    /\ promises w1 = promises w ++ [Pending]
    /\ timers w1
       = <[next_timer w := {| delay := d; handler_key := k;
                              handler_reject := length (promises w) |}]> (timers w)
    /\ next_timer w1 = S (next_timer w)
    /\ config w1 = config w
    /\ onMessageReceivedCallback w1 = onMessageReceivedCallback w.
Proof. eexists. split; [reflexivity|]. cbn. repeat split. Qed.

Lemma resolvePending_found (k T : string) (e : PendingEntry) (w : World) :
  pendingResponses w !! k = Some e ->
  exists w' : World,
    resolvePending k T w = (Ok tt, w')
    /\ pendingResponses w' = delete k (pendingResponses w)
    /\ promises w' = settle (resolve e) (Fulfilled T) (promises w)
    /\ timers w' = delete (timeout e) (timers w)
    /\ next_timer w' = next_timer w
    /\ config w' = config w
    /\ onMessageReceivedCallback w' = onMessageReceivedCallback w.
Proof.
  intros He. unfold resolvePending, bind, gets. rewrite He.
  eexists. split; [reflexivity|]. cbn. repeat split.
Qed.

Lemma resolvePending_absent (k T : string) (w : World) :
  pendingResponses w !! k = None -> resolvePending k T w = (Ok tt, w).
Proof. intros He. unfold resolvePending, bind, gets. now rewrite He. Qed.

Lemma fire_timer_armed (id : nat) (t : Timer) (w : World) :
  timers w !! id = Some t ->
  exists w' : World,
    fire_timer id w = (Ok tt, w')
    /\ pendingResponses w' = delete (handler_key t) (pendingResponses w)
    /\ promises w' = settle (handler_reject t) (Rejected (Error timeout_message)) (promises w)
    /\ timers w' = delete id (timers w)
    /\ next_timer w' = next_timer w
    /\ config w' = config w
    /\ onMessageReceivedCallback w' = onMessageReceivedCallback w.
Proof.
  intros Ht. unfold fire_timer, bind, gets. rewrite Ht.
  eexists. split; [reflexivity|]. cbn. repeat split.
Qed.

Lemma fire_timer_unarmed (id : nat) (w : World) :
  timers w !! id = None -> fire_timer id w = (Ok tt, w).
Proof. intros Ht. unfold fire_timer, bind, gets. now rewrite Ht. Qed.

Lemma settle_pending (p : nat) (v : PromiseState) (ps : list PromiseState) :
  ps !! p = Some Pending -> settle p v ps !! p = Some v.
Proof.
  intros Hp. unfold settle. rewrite Hp.
  apply list_lookup_insert_eq. now apply lookup_lt_Some in Hp.
Qed.

Lemma settle_other (p q : nat) (v : PromiseState) (ps : list PromiseState) :
  p <> q -> settle p v ps !! q = ps !! q.
Proof.
  intros Hne. unfold settle.
  destruct (ps !! p) as [[| |]|]; auto. now apply list_lookup_insert_ne.
Qed.

(** A settled promise stays as it is. *)
Lemma settle_settled (p q : nat) (v s : PromiseState) (ps : list PromiseState) :
  ps !! q = Some s -> s <> Pending -> settle p v ps !! q = Some s.
Proof.
  intros Hq Hs. destruct (decide (p = q)) as [->|Hne].
  - unfold settle. rewrite Hq. now destruct s.
  - now rewrite settle_other.
Qed.

Lemma settle_length (p : nat) (v : PromiseState) (ps : list PromiseState) :
  length (settle p v ps) = length ps.
Proof.
  unfold settle. destruct (ps !! p) as [[| |]|]; auto. apply length_insert.
Qed.

(** C5. A registration for key [k] followed at once by the resolution of
    [k] with text [T] (directly, or through the callback for a sender
    that normalises to [k]) fulfils the promise of that registration with
    exactly [T] and leaves no entry for [k]; resolving a key that has no
    entry returns normally and changes nothing. *)
Theorem register_then_resolve (k : string) (d : JSValue) (T : string) (w : World) :
  exists (p : nat) (w1 w2 : World),
    register k d w = (Ok p, w1)
    /\ promises w1 !! p = Some Pending
    /\ resolvePending k T w1 = (Ok tt, w2)
    /\ promises w2 !! p = Some (Fulfilled T)
    /\ pendingResponses w2 !! k = None
    /\ (forall from cid : string,
          normalizePhoneNumber from = k ->
          onMessageReceived_callback (JString from) T cid w1 = (Ok tt, w2))
    /\ (forall w0 : World,
          pendingResponses w0 !! k = None -> resolvePending k T w0 = (Ok tt, w0)).
Proof.
  destruct (register_spec k d w) as (w1 & Hreg & Hpend & Hprom & _).
  assert (Hp : promises w1 !! length (promises w) = Some Pending)
    by (rewrite Hprom; now apply list_lookup_middle).
  assert (He : pendingResponses w1 !! k
               = Some {| resolve := length (promises w); reject := length (promises w);
                         timeout := next_timer w |})
    by (rewrite Hpend; apply lookup_insert_eq).
  destruct (resolvePending_found k T _ w1 He) as (w2 & Hres & Hpend2 & Hprom2 & _).
  exists (length (promises w)), w1, w2. repeat split; auto.
  - rewrite Hprom2. now apply settle_pending.
  - rewrite Hpend2. apply lookup_delete_eq.
  - intros from cid <-. exact Hres.
  - intros w0. apply resolvePending_absent.
Qed.

(* ===================================================================== *)
(** ** The signature gate *)

(** C6. A [POST] delivery whose signature does not verify is answered
    with 401 and the world is left exactly as it was: whatever the
    parser would make of the body, nothing is parsed, no conversation is
    touched and no pending entry is resolved. *)
Theorem unsigned_webhook_rejected (signature : option string) (body : string) (w : World) :
  validateMetaWhatsAppSignature (config_whatsappAppSecret (config w)) signature body = false ->
  handleWhatsAppWebhook_POST signature body w
  = ({| status := 401; payload := "Invalid signature" |}, w).
Proof.
  intros Hsig. unfold handleWhatsAppWebhook_POST. now rewrite Hsig.
Qed.

(* ===================================================================== *)
(** ** The [send_message] tool *)

Lemma string_truthy_nonempty (s : string) : s <> EmptyString -> string_truthy s = true.
Proof. now destruct s. Qed.


(* ===================================================================== *)
(** ** Properties kept by every handler *)

Lemma keeps_ret {A : Type} (P : World -> Prop) (a : A) : keeps P (ret a).
Proof. now intros w. Qed.

Lemma keeps_throw {A : Type} (P : World -> Prop) (e : JSError) : keeps P (@throw _ A e).
Proof. now intros w. Qed.

Lemma keeps_lift {A : Type} (P : World -> Prop) (r : Result A) : keeps P (lift r).
Proof. now intros w. Qed.

Lemma keeps_gets {A : Type} (P : World -> Prop) (f : World -> A) : keeps P (gets f).
Proof. now intros w. Qed.

Lemma keeps_bind {A B : Type} (P : World -> Prop) (c : M A) (k : A -> M B) :
  keeps P c -> (forall a : A, keeps P (k a)) -> keeps P (bind c k).
Proof.
  intros Hc Hk w HP. unfold bind. specialize (Hc w HP).
  destruct (c w) as [[a|e] w']; cbn in *; auto. now apply Hk.
Qed.

Lemma keeps_try_catch {A : Type} (P : World -> Prop) (c : M A) (h : JSError -> M A) :
  keeps P c -> (forall e : JSError, keeps P (h e)) -> keeps P (try_catch c h).
Proof.
  intros Hc Hh w HP. unfold try_catch. specialize (Hc w HP).
  destruct (c w) as [[a|e] w']; cbn in *; auto. now apply Hh.
Qed.

Lemma keeps_for_of {A : Type} (P : World -> Prop) (items : list A) (body : A -> M unit) :
  (forall x : A, keeps P (body x)) -> keeps P (for_of items body).
Proof.
  intros Hb. induction items as [|x items IH]; cbn.
  - apply keeps_ret.
  - apply keeps_bind; auto.
Qed.

Section Handlers.
Variable ok : nat -> Prop.
Variable P : World -> Prop.
Hypothesis HP : handler_invariant ok P.

Lemma keeps_Date_now : keeps P Date_now.
Proof. intros w Hw. cbn. now apply (inv_clock _ _ HP). Qed.

Lemma keeps_markAsRead (messageId : JSValue) : keeps P (markAsRead messageId).
Proof. intros w Hw. cbn. now apply (inv_calls _ _ HP). Qed.

Lemma keeps_getOrCreateConversation (phoneNumber : JSValue) :
  keeps P (getOrCreateConversation phoneNumber).
Proof. apply (inv_getOrCreate _ _ HP). Qed.

Lemma keeps_deref (state : option nat) : keeps P (deref state).
Proof. destruct state; [apply keeps_ret | apply keeps_throw]. Qed.

Lemma keeps_history_push (state : option nat) (r : Role) (t : string) (ts : M Number) :
  keeps P ts -> keeps P (history_push state r t ts).
Proof.
  intros Hts. unfold history_push.
  apply keeps_bind; [apply keeps_deref | intros ref].
  apply keeps_bind; [exact Hts | intros now].
  intros w Hw. cbn. now apply (inv_push _ _ HP).
Qed.

Lemma keeps_set_lastMessageAt (state : option nat) (ts : M Number) :
  keeps P ts -> keeps P (set_lastMessageAt state ts).
Proof.
  intros Hts. unfold set_lastMessageAt.
  apply keeps_bind; [exact Hts | intros now].
  apply keeps_bind; [apply keeps_deref | intros ref].
  intros w Hw. cbn. now apply (inv_touch _ _ HP).
Qed.

Lemma keeps_callback (from : JSValue) (T cid : string) :
  keeps P (onMessageReceived_callback from T cid).
Proof.
  unfold onMessageReceived_callback.
  apply keeps_bind; [apply keeps_lift | intros phone].
  apply (inv_resolve _ _ HP).
Qed.

Lemma keeps_handleIncomingMessage_begin (message : JSValue) :
  keeps P (handleIncomingMessage_begin message).
Proof.
  unfold handleIncomingMessage_begin.
  do 5 (apply keeps_bind; [apply keeps_lift | intros ?]).
  apply keeps_bind; [apply keeps_lift | intros [extracted|]].
  2: { do 2 (apply keeps_bind; [apply keeps_lift | intros ?]). apply keeps_ret. }
  apply keeps_bind; [apply keeps_lift | intros text].
  apply keeps_bind; [apply keeps_getOrCreateConversation | intros cid].
  apply keeps_bind; [apply keeps_gets | intros state]. apply keeps_ret.
Qed.

Lemma keeps_handleIncomingMessage_resume (k : MessageInFlight) :
  keeps P (handleIncomingMessage_resume k).
Proof.
  unfold handleIncomingMessage_resume.
  apply keeps_bind.
  { apply keeps_try_catch; [apply keeps_markAsRead | intros; apply keeps_ret]. }
  intros _.
  apply keeps_bind; [apply keeps_history_push, keeps_ret | intros _].
  apply keeps_bind; [apply keeps_set_lastMessageAt, keeps_ret | intros _].
  apply keeps_bind; [apply keeps_gets | intros [|]].
  - apply keeps_callback.
  - apply keeps_ret.
Qed.

Lemma keeps_handleIncomingMessage (message : JSValue) :
  keeps P (handleIncomingMessage message).
Proof.
  unfold handleIncomingMessage.
  apply keeps_bind; [apply keeps_handleIncomingMessage_begin | intros [k|]].
  - apply keeps_handleIncomingMessage_resume.
  - apply keeps_ret.
Qed.

Lemma keeps_handleMessageStatus (status : JSValue) :
  keeps P (handleMessageStatus status).
Proof.
  unfold handleMessageStatus.
  do 6 (apply keeps_bind; [apply keeps_lift | intros ?]). apply keeps_ret.
Qed.

Lemma keeps_processWhatsAppEvent (event : JSValue) :
  keeps P (processWhatsAppEvent event).
Proof.
  unfold processWhatsAppEvent.
  apply keeps_bind; [apply keeps_lift | intros object].
  destruct (negb _); [apply keeps_ret|].
  do 2 (apply keeps_bind; [apply keeps_lift | intros ?]).
  apply keeps_for_of. intros entry.
  do 2 (apply keeps_bind; [apply keeps_lift | intros ?]).
  apply keeps_for_of. intros change.
  do 2 (apply keeps_bind; [apply keeps_lift | intros ?]).
  apply keeps_bind.
  { destruct (truthy _); [|apply keeps_ret].
    apply keeps_bind; [apply keeps_lift | intros items].
    apply keeps_for_of, keeps_handleIncomingMessage. }
  intros _.
  apply keeps_bind; [apply keeps_lift | intros statuses].
  destruct (truthy _); [|apply keeps_ret].
  apply keeps_bind; [apply keeps_lift | intros items].
  apply keeps_for_of, keeps_handleMessageStatus.
Qed.

Lemma keeps_webhook (signature : option string) (body : string) (w : World) :
  P w -> P (snd (handleWhatsAppWebhook_POST signature body w)).
Proof.
  intros Hw. unfold handleWhatsAppWebhook_POST.
  destruct (negb _); [exact Hw|].
  match goal with
  | |- context [bind ?c ?k w] =>
      assert (Hk : keeps P (bind c k))
        by (apply keeps_bind;
            [apply keeps_lift | intros event; apply keeps_processWhatsAppEvent]);
      specialize (Hk w Hw);
      now destruct (bind c k w) as [[[]|e] w']
  end.
Qed.

Lemma keeps_tool_catch {A : Type} (c : M (ToolProgress A)) (w : World) :
  keeps P c -> P w -> P (snd (tool_catch c w)).
Proof.
  intros Hc Hw. unfold tool_catch. specialize (Hc w Hw).
  now destruct (c w) as [[r|e] w'].
Qed.

Lemma keeps_sendMessage_begin (message : JSValue) : keeps P (sendMessage_begin message).
Proof.
  unfold sendMessage_begin.
  apply keeps_bind; [apply keeps_gets | intros phone].
  apply keeps_bind; [apply keeps_getOrCreateConversation | intros cid].
  apply keeps_bind; [apply keeps_gets | intros state].
  apply keeps_bind; [apply keeps_lift | intros m]. apply keeps_ret.
Qed.

Lemma keeps_sendMessage_resume (cid : string) (state : option nat) (m : string)
    (sent : Result string) :
  keeps P (sendMessage_resume cid state m sent).
Proof.
  unfold sendMessage_resume.
  apply keeps_try_catch; [|intros; apply keeps_throw].
  apply keeps_bind; [apply keeps_lift | intros messageId].
  apply keeps_bind; [apply keeps_history_push, keeps_Date_now | intros _].
  apply keeps_bind; [apply keeps_set_lastMessageAt, keeps_Date_now | intros _].
  apply keeps_ret.
Qed.

(** Every step of the event loop keeps such a property, as long as the
    timers it fires are among those considered. *)
Lemma step_invariant (e : Event) (w : World) :
  (forall id : nat, e = TimerFires id -> ok id) -> P w -> P (step w e).
Proof.
  intros Hok Hw. destruct e as [signature body|message|k|id|args|k sent]; cbn [step].
  - now apply keeps_webhook.
  - now apply keeps_handleIncomingMessage_begin.
  - now apply keeps_handleIncomingMessage_resume.
  - apply (inv_fire _ _ HP); auto.
  - unfold send_message_begin. apply keeps_tool_catch; [|exact Hw].
    destruct (negb _); [apply keeps_throw|].
    apply keeps_bind; [apply keeps_sendMessage_begin | intros [[cid state] m]].
    apply keeps_ret.
  - unfold send_message_sent. apply keeps_tool_catch; [|exact Hw].
    apply keeps_bind; [apply keeps_sendMessage_resume | intros [cid messageId]].
    destruct (negb _); [apply keeps_ret|].
    apply keeps_bind; [apply keeps_gets | intros phone].
    apply keeps_bind; [apply (inv_register _ _ HP) | intros p]. apply keeps_ret.
Qed.

End Handlers.

Lemma run_invariant (P : World -> Prop) (events : list Event) :
  handler_invariant (fun _ => True) P -> forall w : World, P w -> P (run w events).
Proof.
  intros HP. unfold run. induction events as [|e events IH]; intros w Hw; cbn; auto.
  apply IH. now apply (step_invariant (fun _ => True) P HP).
Qed.

(** A property of the table, the promises and the timers alone is kept
    by the registry operations. *)
Lemma stable_invariant (ok : nat -> Prop) (P : World -> Prop) :
  stable ok P -> handler_invariant ok P.
Proof.
  intros HP. split.
  - intros f w Hw. now apply (stable_frame _ _ HP w).
  - intros f w Hw. now apply (stable_frame _ _ HP w).
  - intros phoneNumber w Hw.
    destruct (getOrCreateConversation_world phoneNumber w)
      as (cid & w' & r & st & Hrun & _ & _ & _ & _ & _ & _ & Hsame & _).
    rewrite Hrun. destruct Hsame as (_ & _ & ? & ? & ? & ?).
    now apply (stable_frame _ _ HP w).
  - intros e r w Hw. now apply (stable_frame _ _ HP w).
  - intros t r w Hw. now apply (stable_frame _ _ HP w).
  - apply (stable_resolve _ _ HP).
  - apply (stable_register _ _ HP).
  - apply (stable_fire _ _ HP).
Qed.

Lemma step_stable (ok : nat -> Prop) (P : World -> Prop) (HP : stable ok P)
    (e : Event) (w : World) :
  (forall id : nat, e = TimerFires id -> ok id) -> P w -> P (step w e).
Proof. apply step_invariant, stable_invariant, HP. Qed.

Lemma run_stable (P : World -> Prop) (events : list Event) :
  stable (fun _ => True) P -> forall w : World, P w -> P (run w events).
Proof. intros HP. apply run_invariant, stable_invariant, HP. Qed.

(* ===================================================================== *)
(** ** Conversations are never deactivated *)

Lemma sameValueZero_string_l (p : string) (k : JSValue) :
  sameValueZero (JString p) k = true -> k = JString p.
Proof.
  destruct k; cbn; try discriminate. intros E. apply String.eqb_eq in E. now subst.
Qed.

Lemma sameValueZero_string_r (p : string) (k : JSValue) :
  sameValueZero k (JString p) = true -> k = JString p.
Proof.
  destruct k; cbn; try discriminate. intros E. apply String.eqb_eq in E. now subst.
Qed.

(** Setting another key leaves the value of a string key as it is. *)
Lemma jsmap_get_set_string {V : Type} (p : string) (k : JSValue) (v : V)
    (m : list (JSValue * V)) :
  k <> JString p ->
  jsmap_get (JString p) (jsmap_set k v m) = jsmap_get (JString p) m.
Proof.
  intros Hne.
  assert (Hr : sameValueZero k (JString p) = false).
  { destruct (sameValueZero k (JString p)) eqn:E; [|reflexivity].
    now apply sameValueZero_string_r in E. }
  induction m as [|[k' v'] m IH]; cbn.
  - now rewrite Hr.
  - destruct (sameValueZero k' k) eqn:Ek; cbn.
    + destruct (sameValueZero k' (JString p)) eqn:Eq; [|reflexivity].
      apply sameValueZero_string_r in Eq. subst k'.
      apply sameValueZero_string_l in Ek. congruence.
    + now rewrite IH.
Qed.

Lemma reusable_alter (f : ConversationState -> ConversationState) (r : nat)
    (c : option string) (w : World) :
  (forall st, active (f st) = active st) ->
  reusable c (set_objects (alter f r) w) = reusable c w.
Proof.
  intros Hf. unfold reusable. destruct c as [cid|]; [|reflexivity]. cbn.
  destruct (activeConversations w !! cid) as [r0|]; [|reflexivity].
  destruct (decide (r = r0)) as [->|Hne].
  - rewrite list_lookup_alter_eq. destruct (objects w !! r0); cbn; now rewrite ?Hf.
  - now rewrite list_lookup_alter_ne.
Qed.

(** The operations on the pending-reply table leave the registry alone. *)
Lemma mapped_replies (phone cid : string) (w w' : World) :
  objects w' = objects w -> activeConversations w' = activeConversations w ->
  phoneToConversationId w' = phoneToConversationId w ->
  mapped phone cid w -> mapped phone cid w'.
Proof.
  unfold mapped, reusable. intros -> -> ->. tauto.
Qed.

Lemma mapped_invariant (phone cid : string) :
  handler_invariant (fun _ => True) (mapped phone cid).
Proof.
  split.
  - intros f w. now apply mapped_replies.
  - intros f w. now apply mapped_replies.
  - intros k w [Hget Hre].
    assert (Hcreated : jsmap_get k (phoneToConversationId w) <> Some cid ->
              k <> JString phone ->
              mapped phone cid
                (set_phoneToConversationId
                   (jsmap_set k (conversation_id_string
                                   (N.succ (currentConversationId w))
                                   (clock (clock_reads w))))
                   (set_activeConversations
                      <[conversation_id_string (N.succ (currentConversationId w))
                          (clock (clock_reads w)) := length (objects w)]>
                      (set_objects
                         (fun os => os ++
                            [{| conversationId :=
                                  conversation_id_string
                                    (N.succ (currentConversationId w))
                                    (clock (clock_reads w));
                                userPhoneNumber := k; messageHistory := [];
                                startTime := clock (S (clock_reads w));
                                lastMessageAt := clock (S (S (clock_reads w)));
                                active := true |}])
                         (set_clock_reads S (set_clock_reads S (set_clock_reads S
                            (set_currentConversationId N.succ w)))))))).
    { intros _ Hne. split; cbn.
      - now rewrite jsmap_get_set_string.
      - unfold reusable in *. cbn.
        apply andb_true_iff in Hre as [Htr Hre]. rewrite Htr. cbn.
        destruct (decide (conversation_id_string
                            (N.succ (currentConversationId w)) (clock (clock_reads w))
                          = cid)) as [<-|Hd].
        + now rewrite lookup_insert_eq, list_lookup_middle.
        + rewrite lookup_insert_ne by assumption.
          destruct (activeConversations w !! cid) as [r|]; [|discriminate].
          destruct (objects w !! r) as [st|] eqn:Hst; [|discriminate].
          now rewrite (lookup_app_l_Some _ _ _ _ Hst). }
    destruct (jsmap_get k (phoneToConversationId w)) as [c|] eqn:Hk.
    + destruct (reusable (Some c) w) eqn:Hc.
      { now rewrite (getOrCreateConversation_reuse k w c Hk Hc). }
      assert (Hne : k <> JString phone) by (intros ->; congruence).
      unfold getOrCreateConversation, bind, gets, ret, modify, Date_now, lift,
        ToPrimitive.
      rewrite Hk, Hc. cbn.
      destruct (ToPrimitive_throws k); cbn; apply Hcreated; congruence.
    + assert (Hne : k <> JString phone) by (intros ->; congruence).
      unfold getOrCreateConversation, bind, gets, ret, modify, Date_now, lift,
        ToPrimitive.
      rewrite Hk. cbn.
      destruct (ToPrimitive_throws k); cbn; apply Hcreated; congruence.
  - intros e r w [Hget Hre]. split; [exact Hget|]. now rewrite reusable_alter.
  - intros t r w [Hget Hre]. split; [exact Hget|]. now rewrite reusable_alter.
  - intros k T w Hm.
    destruct (pendingResponses w !! k) as [e|] eqn:He;
      [|now rewrite resolvePending_absent].
    unfold resolvePending, bind, gets. rewrite He. cbn. revert Hm. now apply mapped_replies.
  - intros k d w. now apply mapped_replies.
  - intros id _ w Hm.
    destruct (timers w !! id) as [tm|] eqn:Htm; [|now rewrite fire_timer_unarmed].
    unfold fire_timer, bind, gets. rewrite Htm. cbn. revert Hm. now apply mapped_replies.
Qed.

Lemma mapped_active (phone cid : string) (w : World) :
  mapped phone cid w ->
  cid <> EmptyString
  /\ exists (r : nat) (st : ConversationState),
       activeConversations w !! cid = Some r /\ objects w !! r = Some st
       /\ active st = true.
Proof.
  intros [_ Hre]. unfold reusable in Hre. apply andb_true_iff in Hre as [Hcid Hre].
  split; [now destruct cid|].
  destruct (activeConversations w !! cid) as [r|]; [|discriminate].
  destruct (objects w !! r) as [st|] eqn:Hst; [|discriminate].
  exists r, st. auto.
Qed.

(** C8. Two successive calls of [getOrCreateConversation] with the same
    raw phone number string return the same conversation id. The first
    call returns an id that the number is mapped to from then on and that
    is bound to an active conversation, the one the number was mapped to
    before if there was such a one; the second call finds that mapped,
    active conversation, returns its id and creates nothing. No handler
    deactivates a conversation or maps the number elsewhere, so the same
    holds when any other events lie between the two calls. *)
Theorem getOrCreateConversation_twice (phoneNumber : string) (w : World) :
  exists (cid : string) (w1 : World),
    getOrCreateConversation (JString phoneNumber) w = (Ok cid, w1)
    /\ mapped phoneNumber cid w1
    /\ cid <> EmptyString
    /\ (exists (r : nat) (st : ConversationState),
          activeConversations w1 !! cid = Some r /\ objects w1 !! r = Some st
          /\ active st = true)
    /\ (forall cid0 : string, mapped phoneNumber cid0 w -> cid = cid0 /\ w1 = w)
    /\ getOrCreateConversation (JString phoneNumber) w1 = (Ok cid, w1)
    /\ forall events : list Event,
         let w' := run w1 events in
         getOrCreateConversation (JString phoneNumber) w' = (Ok cid, w')
         /\ jsmap_get (JString phoneNumber) (phoneToConversationId w') = Some cid
         /\ exists (r : nat) (st : ConversationState),
              activeConversations w' !! cid = Some r /\ objects w' !! r = Some st
              /\ active st = true.
Proof.
  destruct (getOrCreateConversation_spec (JString phoneNumber) w eq_refl)
    as (cid & w1 & r & st & Hrun & _ & _ & _ & Hre & Hmap & _).
  assert (Hm : mapped phoneNumber cid w1)
    by (split; [apply Hmap, sameValueZero_string | exact Hre]).
  exists cid, w1. split; [exact Hrun|]. split; [exact Hm|].
  split; [apply (mapped_active _ _ _ Hm)|]. split; [apply (mapped_active _ _ _ Hm)|].
  split_and!.
  - intros cid0 [Hg0 Hr0].
    rewrite (getOrCreateConversation_reuse _ _ _ Hg0 Hr0) in Hrun.
    now injection Hrun as <- <-.
  - destruct Hm as [Hg Hr]. now apply getOrCreateConversation_reuse.
  - intros events w'.
    pose proof (run_invariant _ events (mapped_invariant phoneNumber cid) w1 Hm) as Hm'.
    fold w' in Hm'. split; [|split; [apply Hm' | apply (mapped_active _ _ _ Hm')]].
    destruct Hm' as [Hg Hr]. now apply getOrCreateConversation_reuse.
Qed.

(* ===================================================================== *)
(** ** Well-formed worlds *)

Lemma wf_initial (cfg : ServerConfig) : wf (initial_world cfg).
Proof. split; cbn; intros *; rewrite lookup_empty; discriminate. Qed.

(** Entries under different keys have different promises and timers. *)
Lemma wf_pending_distinct (w : World) (k k' : string) (e e' : PendingEntry) :
  wf w -> pendingResponses w !! k = Some e -> pendingResponses w !! k' = Some e' ->
  k <> k' -> resolve e <> resolve e' /\ timeout e <> timeout e'.
Proof.
  intros Hwf He He' Hne.
  destruct (wf_pending w Hwf k e He) as (_ & _ & tm & Ht & Hr & Hk).
  destruct (wf_pending w Hwf k' e' He') as (_ & _ & tm' & Ht' & Hr' & Hk').
  split; intros E.
  - assert (timeout e = timeout e')
      by (eapply (wf_timer_promise w Hwf); eauto; congruence).
    congruence.
  - congruence.
Qed.

Lemma wf_stable : stable (fun _ => True) wf.
Proof.
  split.
  - intros w w' Hp Hq Ht Hn [W1 W2 W3].
    split; rewrite ?Hp, ?Hq, ?Ht, ?Hn; auto.
  - intros k T w Hwf.
    destruct (pendingResponses w !! k) as [e|] eqn:He;
      [|now rewrite resolvePending_absent].
    destruct (resolvePending_found k T e w He) as (w' & -> & Hp & Hq & Ht & Hn & _).
    cbn. destruct Hwf as [W1 W2 W3].
    split; rewrite ?Hp, ?Hq, ?Ht, ?Hn.
    + intros t tm Hl. apply lookup_delete_Some in Hl as [_ Hl].
      rewrite settle_length. eauto.
    + intros t t' tm tm' Hl Hl'.
      apply lookup_delete_Some in Hl as [_ Hl].
      apply lookup_delete_Some in Hl' as [_ Hl']. eauto.
    + intros key e' Hl. apply lookup_delete_Some in Hl as [Hne Hl].
      destruct (wf_pending_distinct w k key e e' (Build_wf _ W1 W2 W3) He Hl Hne)
        as [Hr Hto].
      destruct (W3 key e' Hl) as (Hrej & Hpend & tm & Htm & Hhr & Hhk).
      split; [exact Hrej|]. split; [now rewrite settle_other|].
      exists tm. now rewrite lookup_delete_ne.
  - intros k d w Hwf.
    destruct (register_spec k d w) as (w' & -> & Hp & Hq & Ht & Hn & _).
    cbn. destruct Hwf as [W1 W2 W3].
    assert (Hold : forall t tm, timers w' !! t = Some tm -> t <> next_timer w ->
                                timers w !! t = Some tm).
    { intros t tm Hl Hne. rewrite Ht in Hl. now rewrite lookup_insert_ne in Hl. }
    assert (Hnew : forall tm, timers w' !! next_timer w = Some tm ->
                              handler_reject tm = length (promises w) /\ handler_key tm = k).
    { intros tm Hl. rewrite Ht, lookup_insert_eq in Hl. now injection Hl as <-. }
    split.
    + intros t tm Hl. rewrite Hq, Hn, length_app. cbn.
      destruct (decide (t = next_timer w)) as [->|Hne].
      * destruct (Hnew tm Hl) as [-> _]. lia.
      * destruct (W1 t tm (Hold t tm Hl Hne)). lia.
    + intros t t' tm tm' Hl Hl' E.
      destruct (decide (t = next_timer w)) as [->|Hne];
        destruct (decide (t' = next_timer w)) as [->|Hne']; auto.
      * destruct (Hnew tm Hl) as [Hr _].
        destruct (W1 t' tm' (Hold _ _ Hl' Hne')). lia.
      * destruct (Hnew tm' Hl') as [Hr _].
        destruct (W1 t tm (Hold _ _ Hl Hne)). lia.
      * eauto.
    + intros key e Hl. rewrite Hp in Hl.
      destruct (decide (k = key)) as [->|Hne].
      * rewrite lookup_insert_eq in Hl. injection Hl as <-. cbn.
        split; [reflexivity|]. split; [rewrite Hq; now apply list_lookup_middle|].
        eexists. rewrite Ht, lookup_insert_eq. eauto.
      * rewrite lookup_insert_ne in Hl by assumption.
        destruct (W3 key e Hl) as (Hrej & Hpend & tm & Htm & Hhr & Hhk).
        split; [exact Hrej|]. split; [rewrite Hq; now apply lookup_app_l_Some|].
        exists tm. rewrite Ht, lookup_insert_ne; auto.
        destruct (W1 _ _ Htm). lia.
  - intros id _ w Hwf.
    destruct (timers w !! id) as [tm|] eqn:Htm; [|now rewrite fire_timer_unarmed].
    destruct (fire_timer_armed id tm w Htm) as (w' & -> & Hp & Hq & Ht & Hn & _).
    cbn. destruct Hwf as [W1 W2 W3].
    split; rewrite ?Hp, ?Hq, ?Ht, ?Hn.
    + intros t tm' Hl. apply lookup_delete_Some in Hl as [_ Hl].
      rewrite settle_length. eauto.
    + intros t t' tm1 tm2 Hl Hl'.
      apply lookup_delete_Some in Hl as [_ Hl].
      apply lookup_delete_Some in Hl' as [_ Hl']. eauto.
    + intros key e Hl. apply lookup_delete_Some in Hl as [Hne Hl].
      destruct (W3 key e Hl) as (Hrej & Hpend & tm' & Htm' & Hhr & Hhk).
      assert (Hid : timeout e <> id) by (intros E; rewrite E in Htm'; congruence).
      split; [exact Hrej|]. split.
      * rewrite settle_other; auto. intros E. apply Hid.
        apply (W2 _ _ _ _ Htm' Htm). congruence.
      * exists tm'. now rewrite lookup_delete_ne.
Qed.

(** Every world the event loop reaches from a fresh process is
    well-formed. *)
Lemma wf_run (cfg : ServerConfig) (events : list Event) :
  wf (run (initial_world cfg) events).
Proof. apply run_stable; [apply wf_stable | apply wf_initial]. Qed.

(* ===================================================================== *)
(** ** Waiters that have lost their entry *)

Lemma orphaned_stable_gen (p t : nat) (tm : Timer) (ok : nat -> Prop) (Q : World -> Prop) :
  (forall w, Q w <-> orphaned p t tm w
                     /\ ((forall id, ok id) \/ promises w !! p = Some Pending)) ->
  ((forall id, ok id) \/ (forall id, ok id <-> id <> t)) ->
  stable ok Q.
Proof.
  intros HQ Hok. split.
  - intros w w' Hp Hq Ht Hn. rewrite !HQ. intros [[O1 O2 O3 O4 O5] Hx].
    split; [split|]; rewrite ?Hp, ?Hq, ?Ht, ?Hn; auto.
  - intros k T w. rewrite !HQ. intros [[O1 O2 O3 O4 O5] Hx].
    destruct (pendingResponses w !! k) as [e|] eqn:He;
      [|rewrite resolvePending_absent; auto; split; [split|]; auto].
    destruct (resolvePending_found k T e w He) as (w' & -> & Hp & Hq & Ht & Hn & _).
    cbn. destruct (O3 k e He) as [Hr Hto].
    split; [split|]; rewrite ?Hp, ?Hq, ?Ht, ?Hn, ?settle_length; auto.
    + intros key e' Hl. apply lookup_delete_Some in Hl as [_ Hl]. eauto.
    + intros t' tm' Hl. apply lookup_delete_Some in Hl as [_ Hl]. eauto.
    + rewrite settle_other, lookup_delete_ne by auto. exact O5.
    + rewrite settle_other by auto. exact Hx.
  - intros k d w. rewrite !HQ. intros [[O1 O2 O3 O4 O5] Hx].
    destruct (register_spec k d w) as (w' & -> & Hp & Hq & Ht & Hn & _).
    cbn. destruct O1 as [Op Ot].
    assert (Hlook : (promises w ++ [Pending]) !! p = promises w !! p)
      by (now apply lookup_app_l).
    split; [split|]; rewrite ?Hp, ?Hq, ?Ht, ?Hn, ?length_app; cbn; auto.
    + lia.
    + intros key e Hl.
      destruct (decide (k = key)) as [->|Hne].
      * rewrite lookup_insert_eq in Hl. injection Hl as <-. cbn. lia.
      * rewrite lookup_insert_ne in Hl by assumption. eauto.
    + intros t' tm' Hl Hne.
      destruct (decide (next_timer w = t')) as [<-|Hne'].
      * rewrite lookup_insert_eq in Hl. injection Hl as <-. cbn. lia.
      * rewrite lookup_insert_ne in Hl by assumption. eauto.
    + rewrite Hlook, lookup_insert_ne by lia. exact O5.
    + now rewrite Hlook.
  - intros id Hid w. rewrite !HQ. intros [[O1 O2 O3 O4 O5] Hx].
    destruct (timers w !! id) as [tm'|] eqn:Htm;
      [|rewrite fire_timer_unarmed; auto; split; [split|]; auto].
    destruct (fire_timer_armed id tm' w Htm) as (w' & -> & Hp & Hq & Ht & Hn & _).
    cbn.
    destruct (decide (id = t)) as [->|Hne].
    + assert (Hall : forall id, ok id).
      { destruct Hok as [Hall|Hiff]; [exact Hall|]. now apply Hiff in Hid. }
      assert (tm' = tm /\ promises w !! p = Some Pending) as [-> Hpend].
      { destruct O5 as [[? ?]|[_ ?]]; [split|]; congruence. }
      split; [split|]; rewrite ?Hp, ?Hq, ?Ht, ?Hn, ?settle_length; auto.
      * intros key e Hl. apply lookup_delete_Some in Hl as [_ Hl]. eauto.
      * intros t' tm' Hl. apply lookup_delete_Some in Hl as [_ Hl]. eauto.
      * right. rewrite O2, lookup_delete_eq. split; [|reflexivity].
        now apply settle_pending.
    + assert (Hrej : handler_reject tm' <> p) by eauto.
      split; [split|]; rewrite ?Hp, ?Hq, ?Ht, ?Hn, ?settle_length; auto.
      * intros key e Hl. apply lookup_delete_Some in Hl as [_ Hl]. eauto.
      * intros t' tm2 Hl. apply lookup_delete_Some in Hl as [_ Hl]. eauto.
      * rewrite settle_other, lookup_delete_ne by auto. exact O5.
      * rewrite settle_other by auto. exact Hx.
Qed.

Lemma orphaned_stable (p t : nat) (tm : Timer) :
  stable (fun _ => True) (orphaned p t tm).
Proof.
  apply (orphaned_stable_gen p t tm); [|now left].
  intros w. split; [intros Ho; split; auto | tauto].
Qed.

Lemma waiting_stable (p t : nat) (tm : Timer) :
  stable (fun id => id <> t) (waiting p t tm).
Proof.
  apply (orphaned_stable_gen p t tm); [|now right].
  intros w. unfold waiting. split.
  - intros [Ho Hp]. auto.
  - intros [Ho [Hall|Hp]]; [|now split]. now elim (Hall t).
Qed.

(** A promise that has settled keeps its outcome. *)
Lemma settled_stable (p : nat) (v : PromiseState) :
  v <> Pending -> stable (fun _ => True) (fun w => promises w !! p = Some v).
Proof.
  intros Hv. split.
  - intros w w' _ Hq _ _. now rewrite Hq.
  - intros k T w Hp.
    destruct (pendingResponses w !! k) as [e|] eqn:He;
      [|now rewrite resolvePending_absent].
    destruct (resolvePending_found k T e w He) as (w' & -> & _ & Hq & _).
    cbn. rewrite Hq. now apply settle_settled.
  - intros k d w Hp.
    destruct (register_spec k d w) as (w' & -> & _ & Hq & _).
    cbn. rewrite Hq. now apply lookup_app_l_Some.
  - intros id _ w Hp.
    destruct (timers w !! id) as [tm|] eqn:Htm; [|now rewrite fire_timer_unarmed].
    destruct (fire_timer_armed id tm w Htm) as (w' & -> & _ & Hq & _).
    cbn. rewrite Hq. now apply settle_settled.
Qed.

(** What can be said of an orphaned waiter at any later time. *)
Lemma orphaned_fate (p t : nat) (tm : Timer) (w : World) (events : list Event) :
  orphaned p t tm w ->
  let w' := run w events in
  (forall T : string, promises w' !! p <> Some (Fulfilled T))
  /\ ((promises w' !! p = Some Pending /\ timers w' !! t = Some tm)
      \/ (promises w' !! p = Some (Rejected (Error timeout_message))
          /\ timers w' !! t = None))
  /\ (promises w' !! p = Some Pending ->
      forall e : Event, e <> TimerFires t -> promises (step w' e) !! p = Some Pending)
  /\ promises (step w' (TimerFires t)) !! p = Some (Rejected (Error timeout_message))
  /\ (promises w' !! p = Some (Rejected (Error timeout_message)) ->
      forall more : list Event,
      promises (run w' more) !! p = Some (Rejected (Error timeout_message))).
Proof.
  intros Ho w'.
  assert (Ho' : orphaned p t tm w') by (now apply run_stable; [apply orphaned_stable|]).
  split_and!.
  - intros T HT. destruct (orphan_state _ _ _ _ Ho') as [[? _]|[? _]]; congruence.
  - apply (orphan_state _ _ _ _ Ho').
  - intros Hp e Hne.
    apply (step_stable _ _ (waiting_stable p t tm) e w'); [|now split].
    intros id ->. congruence.
  - assert (Ho2 : orphaned p t tm (step w' (TimerFires t)))
      by (now apply (step_stable _ _ (orphaned_stable p t tm))).
    destruct (orphan_state _ _ _ _ Ho2) as [[_ Harmed]|[? _]]; [|assumption].
    cbn [step] in Harmed.
    destruct (timers w' !! t) as [tm'|] eqn:Htm.
    + destruct (fire_timer_armed t tm' w' Htm) as (w2 & Hrun & _ & _ & Ht & _).
      rewrite Hrun in Harmed. cbn in Harmed.
      rewrite Ht, lookup_delete_eq in Harmed. discriminate.
    + rewrite fire_timer_unarmed in Harmed by assumption. cbn in Harmed. congruence.
  - intros Hrej more.
    assert (Hv : Rejected (Error timeout_message) <> Pending) by discriminate.
    now apply (run_stable _ more (settled_stable p _ Hv)).
Qed.

(* ===================================================================== *)
(** ** Two reply-waits for one number *)

Lemma register_orphans (w : World) (k : string) (e1 : PendingEntry) (d2 : JSValue) :
  wf w -> pendingResponses w !! k = Some e1 ->
  exists (tm1 : Timer) (w2 : World),
    timers w !! timeout e1 = Some tm1
    /\ handler_key tm1 = k
    /\ register k d2 w = (Ok (length (promises w)), w2)
    /\ pendingResponses w2
       = <[k := {| resolve := length (promises w); reject := length (promises w);
                   timeout := next_timer w |}]> (pendingResponses w)
    /\ promises w2 = promises w ++ [Pending]
    /\ timers w2
       = <[next_timer w := {| delay := d2; handler_key := k;
                              handler_reject := length (promises w) |}]> (timers w)
    /\ next_timer w2 = S (next_timer w)
    /\ (resolve e1 < length (promises w))%nat
    /\ (timeout e1 < next_timer w)%nat
    /\ wf w2
    /\ orphaned (resolve e1) (timeout e1) tm1 w2.
Proof.
  intros Hwf He1.
  destruct (wf_pending w Hwf k e1 He1) as (_ & Hpend & tm1 & Htm1 & Hhr & Hhk).
  destruct (wf_timer w Hwf _ _ Htm1) as [Hlt _].
  pose proof (lookup_lt_Some _ _ _ Hpend) as Hplt.
  destruct (register_spec k d2 w) as (w2 & Hreg & Hp & Hq & Ht & Hn & _).
  exists tm1, w2. split_and!; auto.
  - pose proof (stable_register _ _ wf_stable k d2 w Hwf) as Hwf2.
    now rewrite Hreg in Hwf2.
  - split.
    + rewrite Hq, length_app, Hn. cbn. lia.
    + exact Hhr.
    + intros key e Hl. rewrite Hp in Hl. destruct (decide (k = key)) as [->|Hne].
      * rewrite lookup_insert_eq in Hl. injection Hl as <-. cbn. lia.
      * rewrite lookup_insert_ne in Hl by assumption.
        now destruct (wf_pending_distinct w k key e1 e Hwf He1 Hl Hne).
    + intros t' tm' Hl Hne. rewrite Ht in Hl.
      destruct (decide (next_timer w = t')) as [<-|Hne'].
      * rewrite lookup_insert_eq in Hl. injection Hl as <-. cbn. lia.
      * rewrite lookup_insert_ne in Hl by assumption.
        intros E. apply Hne. apply (wf_timer_promise w Hwf _ _ _ _ Hl Htm1). congruence.
    + left. rewrite Hq, Ht, lookup_insert_ne by lia. split; auto.
      now apply lookup_app_l_Some.
Qed.

(** C2. When a reply-wait is registered for a key whose earlier entry is
    still in the table, the new entry takes its place and the timer of
    the earlier registration stays armed as it was. From then on, whatever
    happens, the earlier waiter is never fulfilled by a reply: it is
    pending with its own timer armed, or it has been rejected by the
    timeout; nothing but the firing of its own timer ends it, and that
    firing ends it with the timeout. *)
Theorem second_registration_orphans_first (w : World) (k : string) (e1 : PendingEntry)
    (d2 : JSValue) :
  wf w -> pendingResponses w !! k = Some e1 ->
  exists (tm1 : Timer) (p2 : nat) (w2 : World),
    timers w !! timeout e1 = Some tm1
    /\ register k d2 w = (Ok p2, w2)
    /\ pendingResponses w2 !! k
       = Some {| resolve := p2; reject := p2; timeout := next_timer w |}
    /\ p2 <> resolve e1
    /\ timers w2 !! timeout e1 = Some tm1
    /\ promises w2 !! resolve e1 = Some Pending
    /\ forall events : list Event,
         let w' := run w2 events in
         (forall T : string, promises w' !! resolve e1 <> Some (Fulfilled T))
         /\ ((promises w' !! resolve e1 = Some Pending
              /\ timers w' !! timeout e1 = Some tm1)
             \/ (promises w' !! resolve e1 = Some (Rejected (Error timeout_message))
                 /\ timers w' !! timeout e1 = None))
         /\ (promises w' !! resolve e1 = Some Pending ->
             forall e : Event, e <> TimerFires (timeout e1) ->
             promises (step w' e) !! resolve e1 = Some Pending)
         /\ promises (step w' (TimerFires (timeout e1))) !! resolve e1
            = Some (Rejected (Error timeout_message))
         /\ (promises w' !! resolve e1 = Some (Rejected (Error timeout_message)) ->
             forall more : list Event,
             promises (run w' more) !! resolve e1
             = Some (Rejected (Error timeout_message))).
Proof.
  intros Hwf He1.
  destruct (register_orphans w k e1 d2 Hwf He1)
    as (tm1 & w2 & Htm1 & Hk & Hreg & Hp & Hq & Ht & Hn & Hplt & Htlt & Hwf2 & Ho).
  exists tm1, (length (promises w)), w2. repeat split; auto.
  - rewrite Hp. apply lookup_insert_eq.
  - lia.
  - rewrite Ht, lookup_insert_ne by lia. exact Htm1.
  - destruct (wf_pending w Hwf k e1 He1) as (_ & Hpend & _).
    rewrite Hq. now apply lookup_app_l_Some.
  - apply (orphaned_fate _ _ _ _ events Ho).
  - apply (orphaned_fate _ _ _ _ events Ho).
  - apply (orphaned_fate _ _ _ _ events Ho).
  - apply (orphaned_fate _ _ _ _ events Ho).
  - apply (orphaned_fate _ _ _ _ events Ho).
Qed.

Lemma timeout_handler_deletes (t : Timer) (w : World) :
  pendingResponses (snd (timeout_handler t w)) !! handler_key t = None.
Proof. cbn. apply lookup_delete_eq. Qed.

(** C9. The timeout handler deletes the entry of its key whoever owns
    it. So when a second reply-wait has replaced a first one under the
    same key and the first one's timer fires, the second waiter's entry is
    removed while its promise is still pending; a reply for that key
    then finds no entry and changes nothing; and from then on the second
    waiter is never fulfilled: only the firing of its own timer ends it. *)
Theorem first_timeout_evicts_second (w : World) (k : string) (e1 : PendingEntry)
    (d2 : JSValue) :
  wf w -> pendingResponses w !! k = Some e1 ->
  (forall (t : Timer) (w0 : World),
      pendingResponses (snd (timeout_handler t w0)) !! handler_key t = None)
  /\ exists (p2 : nat) (w2 : World) (tm2 : Timer),
       register k d2 w = (Ok p2, w2)
       /\ pendingResponses w2 !! k
          = Some {| resolve := p2; reject := p2; timeout := next_timer w |}
       /\ timers w2 !! next_timer w = Some tm2
       /\ let w3 := step w2 (TimerFires (timeout e1)) in
          pendingResponses w3 !! k = None
          /\ promises w3 !! p2 = Some Pending
          /\ promises w3 !! resolve e1 = Some (Rejected (Error timeout_message))
          /\ (forall T : string, resolvePending k T w3 = (Ok tt, w3))
          /\ (forall from T cid : string,
                normalizePhoneNumber from = k ->
                onMessageReceived_callback (JString from) T cid w3 = (Ok tt, w3))
          /\ forall events : list Event,
               let w' := run w3 events in
               (forall T : string, promises w' !! p2 <> Some (Fulfilled T))
               /\ ((promises w' !! p2 = Some Pending
                    /\ timers w' !! next_timer w = Some tm2)
                   \/ (promises w' !! p2 = Some (Rejected (Error timeout_message))
                       /\ timers w' !! next_timer w = None))
               /\ (promises w' !! p2 = Some Pending ->
                   forall e : Event, e <> TimerFires (next_timer w) ->
                   promises (step w' e) !! p2 = Some Pending)
               /\ promises (step w' (TimerFires (next_timer w))) !! p2
                  = Some (Rejected (Error timeout_message))
               /\ (promises w' !! p2 = Some (Rejected (Error timeout_message)) ->
                   forall more : list Event,
                   promises (run w' more) !! p2
                   = Some (Rejected (Error timeout_message))).
Proof.
  intros Hwf He1. split; [apply timeout_handler_deletes|].
  destruct (register_orphans w k e1 d2 Hwf He1)
    as (tm1 & w2 & Htm1 & Hk & Hreg & Hp & Hq & Ht & Hn & Hplt & Htlt & Hwf2 & Ho).
  destruct (wf_pending w Hwf k e1 He1) as (_ & Hpend & tm1' & Htm1' & Hhr & _).
  assert (tm1' = tm1) as -> by congruence.
  set (tm2 := {| delay := d2; handler_key := k; handler_reject := length (promises w) |}).
  assert (Harmed : timers w2 !! timeout e1 = Some tm1)
    by (rewrite Ht, lookup_insert_ne by lia; exact Htm1).
  destruct (fire_timer_armed _ _ w2 Harmed) as (w3 & Hfire & Hp3 & Hq3 & Ht3 & Hn3 & _).
  assert (Hstep : step w2 (TimerFires (timeout e1)) = w3) by (cbn [step]; now rewrite Hfire).
  assert (Hp2 : promises w3 !! length (promises w) = Some Pending).
  { rewrite Hq3, settle_other, Hq by lia. now apply list_lookup_middle. }
  assert (Hnone : pendingResponses w3 !! k = None).
  { rewrite Hp3, Hk. apply lookup_delete_eq. }
  assert (Ho2 : orphaned (length (promises w)) (next_timer w) tm2 w3).
  { split.
    - rewrite Hq3, settle_length, Hq, length_app, Hn3, Hn. cbn. lia.
    - reflexivity.
    - intros key e Hl. rewrite Hp3, Hk, Hp in Hl.
      apply lookup_delete_Some in Hl as [Hne Hl].
      rewrite lookup_insert_ne in Hl by assumption.
      destruct (wf_pending w Hwf key e Hl) as (_ & Hpe & tme & Htme & _).
      apply lookup_lt_Some in Hpe. destruct (wf_timer w Hwf _ _ Htme). lia.
    - intros t' tm' Hl Hne. rewrite Ht3, Ht in Hl.
      apply lookup_delete_Some in Hl as [_ Hl].
      rewrite lookup_insert_ne in Hl by congruence.
      destruct (wf_timer w Hwf _ _ Hl). lia.
    - left. split; [exact Hp2|].
      rewrite Ht3, lookup_delete_ne, Ht by lia. apply lookup_insert_eq. }
  exists (length (promises w)), w2, tm2. rewrite Hstep.
  repeat split; auto.
  - rewrite Hp. apply lookup_insert_eq.
  - rewrite Ht. apply lookup_insert_eq.
  - rewrite Hq3, Hhr. apply settle_pending. rewrite Hq. now apply lookup_app_l_Some.
  - intros T. now apply resolvePending_absent.
  - intros from T cid <-. cbn. now apply resolvePending_absent.
  - apply (orphaned_fate _ _ _ _ events Ho2).
  - apply (orphaned_fate _ _ _ _ events Ho2).
  - apply (orphaned_fate _ _ _ _ events Ho2).
  - apply (orphaned_fate _ _ _ _ events Ho2).
  - apply (orphaned_fate _ _ _ _ events Ho2).
Qed.

(* ===================================================================== *)
(** ** Inbound messages *)


Lemma ToPrimitive_converts (v : JSValue) : converts v = true -> ToPrimitive v = Ok tt.
Proof.
  unfold converts, ToPrimitive. now destruct (ToPrimitive_throws v).
Qed.


(** The first half of the handling of a supported message from a string
    sender: the conversation is found or created, and nothing else
    changes. *)
Lemma handleIncomingMessage_begin_supported (props : list (string * JSValue))
    (T b : string) (w : World) :
  extract_text (JObject props) = Ok (Some (JString T)) ->
  lookup_prop "from" props = JString b ->
  converts (lookup_prop "timestamp" props) = true ->
  exists (cid : string) (r : nat) (st : ConversationState) (w1 : World),
    handleIncomingMessage_begin (JObject props) w
    = (Ok (Some {| arriving_from := JString b;
                   arriving_messageId := lookup_prop "id" props;
                   arriving_text := T;
                   arriving_timestamp :=
                     parseInt10_times_1000 (lookup_prop "timestamp" props);
                   arriving_conversationId := cid;
                   arriving_state := Some r |}), w1)
    /\ activeConversations w1 !! cid = Some r
    /\ objects w1 !! r = Some st
    /\ mapped b cid w1
    /\ same_replies w w1
    /\ markAsRead_calls w1 = markAsRead_calls w.
Proof.
  intros Hx Hfrom Hts.
  unfold handleIncomingMessage_begin, bind, lift. cbn [get_prop].
  rewrite (ToPrimitive_converts _ Hts), Hfrom, Hx. cbn [ToPrimitive ToPrimitive_throws as_string].
  destruct (getOrCreateConversation_spec (JString b) w eq_refl)
    as (cid & w1 & r & st & Hrun & Hr & Hst & _ & Hre & Hmap & Hsame & Hcalls).
  rewrite Hrun. unfold gets at 1. rewrite Hr.
  exists cid, r, st, w1. split; [reflexivity|].
  split_and!; auto. split; auto using sameValueZero_string.
Qed.

(** The second half, at whatever time it runs: the message is recorded
    whatever the mark-as-read call does, and the callback, if installed,
    looks the sender up in the table as it is then. *)
Lemma handleIncomingMessage_resume_spec (k : MessageInFlight) (b : string) (r : nat)
    (w : World) :
  arriving_from k = JString b ->
  arriving_state k = Some r ->
  exists w2 : World,
    same_replies w w2
    /\ objects w2
       = alter (touch (arriving_timestamp k)) r
           (alter (push_message {| role := user; text := arriving_text k;
                                   timestamp := arriving_timestamp k |}) r (objects w))
    /\ activeConversations w2 = activeConversations w
    /\ phoneToConversationId w2 = phoneToConversationId w
    /\ markAsRead_calls w2 = S (markAsRead_calls w)
    /\ handleIncomingMessage_resume k w
       = if onMessageReceivedCallback w
         then resolvePending (normalizePhoneNumber b) (arriving_text k) w2
         else (Ok tt, w2).
Proof.
  intros Hfrom Hstate.
  unfold handleIncomingMessage_resume, try_catch, markAsRead, history_push,
    set_lastMessageAt, deref, onMessageReceived_callback, bind, ret, modify, gets, lift.
  rewrite Hfrom, Hstate. cbn [as_string].
  exists (set_objects (alter (touch (arriving_timestamp k)) r)
            (set_objects
               (alter (push_message {| role := user; text := arriving_text k;
                                       timestamp := arriving_timestamp k |}) r)
               (set_markAsRead_calls S w))).
  split_and!; try reflexivity; [repeat split|].
  destruct (markAsRead_rejects (markAsRead_calls w)); cbv beta iota;
    cbn [onMessageReceivedCallback set_objects set_markAsRead_calls];
    now destruct (onMessageReceivedCallback w).
Qed.







Lemma handleMessageStatus_shaped (status : JSValue) (w : World) :
  status_shaped status = true -> handleMessageStatus status w = (Ok tt, w).
Proof.
  intros Hs. unfold handleMessageStatus, bind, lift, ret.
  destruct status as [| |b|n|s|items|props]; try discriminate;
    cbn [status_shaped get_prop_opt get_prop] in *; try reflexivity.
  apply andb_true_iff in Hs as [[Hid Hst]%andb_true_iff Hts].
  now rewrite (ToPrimitive_converts _ Hid), (ToPrimitive_converts _ Hst),
    (ToPrimitive_converts _ Hts).
Qed.





(* ===================================================================== *)
(** ** Webhook deliveries *)






(** What the second half of the handler does to a reply-wait, at
    whatever time it runs, for a message from a string sender: with the
    callback installed it returns; an entry under the sender's key whose
    promise is pending then has its promise fulfilled with the text, is
    removed and has its timer cleared; and with no entry under that key
    then, no promise, entry or timer changes. *)
Lemma resume_resolves (k : MessageInFlight) (b : string) (r : nat) (w2 : World) :
  arriving_from k = JString b ->
  arriving_state k = Some r ->
  onMessageReceivedCallback w2 = true ->
  exists w3 : World,
    handleIncomingMessage_resume k w2 = (Ok tt, w3)
    /\ (forall entry : PendingEntry,
          pendingResponses w2 !! normalizePhoneNumber b = Some entry ->
          promises w2 !! resolve entry = Some Pending ->
          promises w3 !! resolve entry = Some (Fulfilled (arriving_text k))
          /\ pendingResponses w3 !! normalizePhoneNumber b = None
          /\ timers w3 !! timeout entry = None)
    /\ (pendingResponses w2 !! normalizePhoneNumber b = None -> same_replies w2 w3).
Proof.
  intros Hfrom Hstate Hcb.
  destruct (handleIncomingMessage_resume_spec k b r w2 Hfrom Hstate)
    as (wr & Hsame & _ & _ & _ & _ & Hrun).
  rewrite Hcb in Hrun. destruct Hsame as (Hc & Hcb' & Hp & Hq & Ht & Hn).
  destruct (pendingResponses w2 !! normalizePhoneNumber b) as [entry|] eqn:He.
  - assert (He' : pendingResponses wr !! normalizePhoneNumber b = Some entry)
      by (now rewrite Hp).
    destruct (resolvePending_found _ (arriving_text k) entry wr He')
      as (w3 & Hres & Hp3 & Hq3 & Ht3 & _).
    exists w3. split; [now rewrite Hrun|]. split; [|discriminate].
    intros entry' [= <-] Hpend. split_and!.
    + rewrite Hq3, Hq. now apply settle_pending.
    + rewrite Hp3. apply lookup_delete_eq.
    + rewrite Ht3. apply lookup_delete_eq.
  - exists wr. rewrite Hrun. split; [apply resolvePending_absent; now rewrite Hp|].
    split; [discriminate|]. intros _. repeat split; auto.
Qed.


End Properties.

(* ===================================================================== *)
(** * Further properties of the webhook gate *)

Lemma length_bytes_of_string (s : string) :
  length (bytes_of_string s) = String.length s.
Proof.
  unfold bytes_of_string. rewrite length_map.
  induction s as [|c s IH]; simpl; congruence.
Qed.

Lemma bytes_of_string_inj (a : string) : forall b : string,
  bytes_of_string a = bytes_of_string b -> a = b.
Proof.
  induction a as [|c a IH]; intros [|d b] Hab; try discriminate; [reflexivity|].
  unfold bytes_of_string in Hab. simpl in Hab. injection Hab as Hcd Hrest.
  f_equal; [now apply code_inj | now apply IH].
Qed.

Lemma verifyWebhookToken_true_iff (expectedToken : string) (receivedToken : option string) :
  verifyWebhookToken expectedToken receivedToken = true
  <-> receivedToken = Some expectedToken /\ expectedToken <> EmptyString.
Proof.
  destruct receivedToken as [received|]; [|split; [discriminate | intros [[=] _]]].
  assert (Hcmp : (if negb (Nat.eqb (String.length expectedToken) (String.length received))
                  then false
                  else xor_accumulate 0 (bytes_of_string expectedToken)
                         (bytes_of_string received) =? 0) = true
                 <-> received = expectedToken).
  { rewrite <- !length_bytes_of_string.
    change (timingSafeEqual (bytes_of_string expectedToken) (bytes_of_string received) = true
            <-> received = expectedToken).
    rewrite timingSafeEqual_true_iff. split.
    - intros Hb. symmetry. now apply bytes_of_string_inj.
    - now intros ->. }
  destruct received as [|c r].
  - cbn. split; [discriminate|]. intros [[= <-] Hne]. now contradiction Hne.
  - cbn [verifyWebhookToken]. rewrite Hcmp. split.
    + intros <-. split; [reflexivity | discriminate].
    + now intros [[= <-] _].
Qed.

(** X1. [verifyWebhookToken] accepts a received token exactly when it is
    the expected token and is not empty: an absent token, an empty token,
    a token of another length and a token that differs in one character
    are all refused, and so is every token when the configured one is
    empty. *)
Theorem verifyWebhookToken_spec (expectedToken : string) (receivedToken : option string) :
  (verifyWebhookToken expectedToken receivedToken = true
   <-> receivedToken = Some expectedToken /\ expectedToken <> EmptyString)
  /\ verifyWebhookToken EmptyString receivedToken = false
  /\ (forall received : string,
        String.length received <> String.length expectedToken ->
        verifyWebhookToken expectedToken (Some received) = false).
Proof.
  split; [apply verifyWebhookToken_true_iff|]. split.
  - destruct (verifyWebhookToken EmptyString receivedToken) eqn:E; [|reflexivity].
    apply verifyWebhookToken_true_iff in E as [_ Hne]. now contradiction Hne.
  - intros received Hlen.
    destruct (verifyWebhookToken expectedToken (Some received)) eqn:E; [|reflexivity].
    apply verifyWebhookToken_true_iff in E as [[= ->] _]. now contradiction Hlen.
Qed.

Lemma startsWith_split (p : string) : forall s : string,
  startsWith s p = true -> s = String.append p (substring_from (String.length p) s).
Proof.
  induction p as [|c p IH]; intros s Hs; [reflexivity|].
  destruct s as [|d s]; [discriminate|]. cbn in Hs.
  destruct (Ascii.eqb_spec c d) as [Eq|Eq]; [|discriminate].
  rewrite Eq.
  change (String d s = String d (String.append p (substring_from (String.length p) s))).
  f_equal. now apply IH.
Qed.

(** X2. The signature gate accepts a header exactly when it is
    ["sha256="] followed by text whose hex decoding is the HMAC-SHA256 of
    the body under the app secret. *)
Theorem validateMetaWhatsAppSignature_accepts (appSecret : string)
    (signature : option string) (body : string) :
  validateMetaWhatsAppSignature appSecret signature body = true
  <-> exists received : string,
        signature = Some (String.append sha256_prefix received)
        /\ hex_decode received
           = SHA256.hmac (bytes_of_string appSecret) (bytes_of_string body).
Proof.
  split.
  - destruct signature as [header|]; [|discriminate]. intros Hv.
    destruct (startsWith header sha256_prefix) eqn:Hp.
    + apply startsWith_split in Hp. rewrite Hp in Hv |- *.
      rewrite validate_prefixed, timingSafeEqual_true_iff in Hv.
      eexists. split; [reflexivity | exact Hv].
    + now rewrite (validate_no_prefix _ _ _ Hp) in Hv.
  - intros (received & -> & Hd).
    rewrite validate_prefixed. now apply timingSafeEqual_true_iff.
Qed.

Lemma hex_decode_app (D : list Z) (rest : string) :
  byte_range D ->
  hex_decode (String.append (hex_encode D) rest) = D ++ hex_decode rest.
Proof.
  induction 1 as [|b D Hb HD IH]; [reflexivity|].
  change (hex_decode (String (hex_digit (b / 16)) (String (hex_digit (b mod 16))
            (String.append (hex_encode D) rest))) = b :: D ++ hex_decode rest).
  cbn [hex_decode]. rewrite !unhex_hex_digit, IH.
  - f_equal. symmetry. apply Z.div_mod. lia.
  - apply Z.mod_pos_bound. lia.
  - split; [apply Z.div_pos; lia | apply Z.div_lt_upper_bound; lia].
Qed.

Lemma string_append_assoc (a b c : string) :
  String.append (String.append a b) c = String.append a (String.append b c).
Proof.
  induction a as [|x a IH]; [reflexivity|].
  change (String x (String.append (String.append a b) c)
          = String x (String.append a (String.append b c))).
  now rewrite IH.
Qed.

(** X3. Text after a valid digest is ignored when it does not begin with
    two hex digits: the hex decoder stops there, so the valid header
    followed by such text still verifies. *)
Theorem trailing_text_still_verifies (appSecret body rest : string) :
  hex_decode rest = [] ->
  validateMetaWhatsAppSignature appSecret
    (Some (String.append (valid_header appSecret body) rest)) body = true.
Proof.
  intros Hrest. unfold valid_header, createHmac_sha256_hex.
  rewrite string_append_assoc, validate_prefixed, hex_decode_app by apply hmac_range.
  rewrite Hrest, app_nil_r. apply timingSafeEqual_refl.
Qed.

(* ===================================================================== *)
(** * The phone number normaliser *)

Lemma normalizePhoneNumber_digits (phone : string) :
  Forall (fun c => is_decimal_digit c = true)
    (list_ascii_of_string (normalizePhoneNumber phone)).
Proof.
  induction phone as [|c phone IH]; simpl; [constructor|].
  destruct (is_decimal_digit c) eqn:E; [|exact IH]. simpl. now constructor.
Qed.

Lemma normalizePhoneNumber_fixed (phone : string) :
  Forall (fun c => is_decimal_digit c = true) (list_ascii_of_string phone) ->
  normalizePhoneNumber phone = phone.
Proof.
  induction phone as [|c phone IH]; simpl; [reflexivity|].
  intros Hall. inversion Hall as [|? ? Hc Hrest]; subst. rewrite Hc. f_equal. auto.
Qed.

(** X4. [normalizePhoneNumber] yields decimal digits only, commutes with
    concatenation, and is idempotent: a key of the pending-reply table
    is its own normal form. *)
Theorem normalizePhoneNumber_idempotent (phone other : string) :
  Forall (fun c => is_decimal_digit c = true)
    (list_ascii_of_string (normalizePhoneNumber phone))
  /\ normalizePhoneNumber (String.append phone other)
     = String.append (normalizePhoneNumber phone) (normalizePhoneNumber other)
  /\ normalizePhoneNumber (normalizePhoneNumber phone) = normalizePhoneNumber phone.
Proof.
  split; [apply normalizePhoneNumber_digits|]. split.
  - induction phone as [|c phone IH]; [reflexivity|].
    change (normalizePhoneNumber (String c (String.append phone other))
            = String.append (normalizePhoneNumber (String c phone))
                (normalizePhoneNumber other)).
    cbn [normalizePhoneNumber]. destruct (is_decimal_digit c); [|exact IH].
    change (String c (normalizePhoneNumber (String.append phone other))
            = String c (String.append (normalizePhoneNumber phone)
                          (normalizePhoneNumber other))).
    now rewrite IH.
  - apply normalizePhoneNumber_fixed, normalizePhoneNumber_digits.
Qed.

(* ===================================================================== *)
(** * Configuration *)

Lemma push_if_empty_nil (field message : string) (errors : list string) :
  push_if_empty field message errors = []
  <-> field <> EmptyString /\ errors = [].
Proof.
  unfold push_if_empty. destruct field as [|c f]; cbn.
  - split; [|intros [Hne _]; now contradiction Hne].
    intros Habs. now destruct errors.
  - split; [intros ->; split; [discriminate | reflexivity] | now intros [_ ->]].
Qed.

Lemma push_if_empty_length (field message : string) (errors : list string) :
  length (push_if_empty field message errors)
  = (length errors + if string_truthy field then 0 else 1)%nat.
Proof.
  unfold push_if_empty. destruct (string_truthy field); [lia|].
  now rewrite length_app.
Qed.

Lemma validateProviderConfig_nil (c : ProviderConfig) :
  validateProviderConfig c = []
  <-> provider_whatsappPhoneNumberId c <> EmptyString
      /\ provider_whatsappAccessToken c <> EmptyString
      /\ provider_whatsappAppSecret c <> EmptyString
      /\ provider_whatsappVerifyToken c <> EmptyString
      /\ provider_userPhoneNumber c <> EmptyString.
Proof. unfold validateProviderConfig. rewrite !push_if_empty_nil. tauto. Qed.

(** X5. [validateProviderConfig] reports one error per empty value: the
    list is empty exactly when the five values are all non-empty, and
    its length is the number of empty values. *)
Theorem validateProviderConfig_spec (c : ProviderConfig) :
  (validateProviderConfig c = []
   <-> provider_whatsappPhoneNumberId c <> EmptyString
       /\ provider_whatsappAccessToken c <> EmptyString
       /\ provider_whatsappAppSecret c <> EmptyString
       /\ provider_whatsappVerifyToken c <> EmptyString
       /\ provider_userPhoneNumber c <> EmptyString)
  /\ length (validateProviderConfig c)
     = length (filter (fun field => negb (string_truthy field))
                 [ provider_whatsappPhoneNumberId c; provider_whatsappAccessToken c;
                   provider_whatsappAppSecret c; provider_whatsappVerifyToken c;
                   provider_userPhoneNumber c ]).
Proof.
  split; [apply validateProviderConfig_nil|]. unfold validateProviderConfig.
  - rewrite !push_if_empty_length.
    destruct (provider_whatsappPhoneNumberId c), (provider_whatsappAccessToken c),
      (provider_whatsappAppSecret c), (provider_whatsappVerifyToken c),
      (provider_userPhoneNumber c); reflexivity.
Qed.

Section StartupProperties.
Context {Num : JSNumber} {Rt : Runtime}.

Lemma env_or_empty (name : string) :
  env_or name EmptyString <> EmptyString
  <-> exists v : string, process_env name = Some v /\ v <> EmptyString.
Proof.
  unfold env_or. destruct (process_env name) as [[|c v]|]; cbn.
  - split; [intros Hne; now contradiction Hne | intros (v & [= <-] & Hne); now contradiction Hne].
  - split; [intros _; eexists; split; [reflexivity | discriminate] | discriminate].
  - split; [intros Hne; now contradiction Hne | intros (v & [=] & _)].
Qed.

(** X6. [loadServerConfig] succeeds exactly when the five required
    environment variables are set to non-empty values, and the
    configuration it returns then carries those values (the app secret
    the signature gate uses and the verify token among them); otherwise
    it throws the error that lists each missing variable. *)
Theorem loadServerConfig_spec (url : string) :
  let required :=
    (exists v, process_env "WHATSAPPME_PHONE_NUMBER_ID" = Some v /\ v <> EmptyString)
    /\ (exists v, process_env "WHATSAPPME_ACCESS_TOKEN" = Some v /\ v <> EmptyString)
    /\ (exists v, process_env "WHATSAPPME_APP_SECRET" = Some v /\ v <> EmptyString)
    /\ (exists v, process_env "WHATSAPPME_VERIFY_TOKEN" = Some v /\ v <> EmptyString)
    /\ (exists v, process_env "WHATSAPPME_USER_PHONE_NUMBER" = Some v /\ v <> EmptyString) in
  match loadServerConfig url with
  | Ok cfg =>
      required
      /\ publicUrl cfg = url
      /\ process_env "WHATSAPPME_PHONE_NUMBER_ID" = Some (phoneNumberId (providers cfg))
      /\ process_env "WHATSAPPME_ACCESS_TOKEN" = Some (accessToken (providers cfg))
      /\ process_env "WHATSAPPME_APP_SECRET" = Some (appSecret (providers cfg))
      /\ process_env "WHATSAPPME_APP_SECRET"
         = Some (config_whatsappAppSecret (server_config cfg))
      /\ process_env "WHATSAPPME_VERIFY_TOKEN" = Some (webhookVerifyToken (providers cfg))
      /\ process_env "WHATSAPPME_USER_PHONE_NUMBER" = Some (loaded_userPhoneNumber cfg)
  | Throw e =>
      ~ required
      /\ validateProviderConfig loadProviderConfig <> []
      /\ e = Error (missing_configuration (validateProviderConfig loadProviderConfig))
  end.
Proof.
  intros required.
  assert (Hnil : validateProviderConfig loadProviderConfig = [] <-> required).
  { unfold required. rewrite <- !env_or_empty.
    apply (validateProviderConfig_nil loadProviderConfig). }
  clearbody required.
  assert (Hval : forall name, env_or name EmptyString <> EmptyString ->
                   process_env name = Some (env_or name EmptyString)).
  { intros name Hne. apply env_or_empty in Hne as (v & Hv' & Hne).
    unfold env_or. rewrite Hv'. now destruct v. }
  assert (Hset : validateProviderConfig loadProviderConfig = [] ->
            env_or "WHATSAPPME_PHONE_NUMBER_ID" EmptyString <> EmptyString
            /\ env_or "WHATSAPPME_ACCESS_TOKEN" EmptyString <> EmptyString
            /\ env_or "WHATSAPPME_APP_SECRET" EmptyString <> EmptyString
            /\ env_or "WHATSAPPME_VERIFY_TOKEN" EmptyString <> EmptyString
            /\ env_or "WHATSAPPME_USER_PHONE_NUMBER" EmptyString <> EmptyString)
    by apply (validateProviderConfig_nil loadProviderConfig).
  unfold loadServerConfig.
  destruct (validateProviderConfig loadProviderConfig) as [|e errors].
  - cbn. split; [now apply Hnil|]. split; [reflexivity|].
    destruct (Hset eq_refl) as (H1 & H2 & H3 & H4 & H5). split_and!; now apply Hval.
  - cbn. split; [|split; [discriminate | reflexivity]].
    intros Hreq. now apply Hnil in Hreq.
Qed.

End StartupProperties.

(* ===================================================================== *)
(** * The provider *)

Section ProviderProperties.
Context {Num : JSNumber} {Rt : Runtime}.

(** X7. [sendMessage] of the provider returns an id only for a response
    with [ok] set whose JSON carries a truthy [messages[0].id], and the
    id it returns is that value, never an empty one; a rejected [fetch]
    is rethrown as it is, and a response without [ok] always ends in a
    throw. [markAsRead] rejects only when the provider was never
    initialised, whatever the request did. *)
Theorem provider_results (config : option WhatsAppConfig) (fetched : FetchOutcome) :
  (forall messageId : JSValue,
     provider_sendMessage config fetched = Ok messageId ->
     truthy messageId = true
     /\ config <> None
     /\ exists (statusText : string) (data messages : JSValue),
          fetched = FetchResponse true statusText (Ok data)
          /\ get_prop data "messages" = Ok messages
          /\ messageId = get_prop_opt (first_item_opt messages) "id")
  /\ (forall e : JSError, config <> None -> fetched = FetchRejects e ->
        provider_sendMessage config fetched = Throw e)
  /\ (forall (statusText : string) (json : Result JSValue),
        fetched = FetchResponse false statusText json ->
        exists e : JSError, provider_sendMessage config fetched = Throw e)
  /\ (forall e : JSError,
        provider_markAsRead config fetched = Throw e ->
        config = None /\ e = Error "Provider not initialized").
Proof.
  split_and!.
  - intros messageId Hsend. destruct config as [c|]; [|discriminate].
    destruct fetched as [e|[|] statusText [data|e]]; cbn in Hsend; try discriminate.
    + destruct (get_prop data "messages") as [messages|e] eqn:Hm; [|discriminate].
      destruct (truthy (get_prop_opt (first_item_opt messages) "id")) eqn:Ht;
        cbn in Hsend; [|discriminate].
      destruct (ToPrimitive (get_prop_opt (first_item_opt messages) "id"));
        [|discriminate].
      injection Hsend as <-. split; [exact Ht|]. split; [discriminate|].
      now exists statusText, data, messages.
    + now destruct (meta_api_error data statusText).
  - intros e Hc ->. now destruct config.
  - intros statusText json ->. destruct config as [c|]; [|eexists; reflexivity].
    destruct json as [data|e]; cbn; [|eexists; reflexivity].
    destruct (meta_api_error data statusText); eexists; reflexivity.
  - intros e Hm. destruct config as [c|].
    + cbn in Hm. now destruct (provider_markAsRead_try fetched).
    + now injection Hm as <-.
Qed.

End ProviderProperties.

(* ===================================================================== *)
(** * The HTTP routes *)

Section RouteProperties.
Context {Num : JSNumber} {Env : Environment} {Rt : Runtime}.

Lemma handshake_accepts (expectedToken : string) (token : option string) :
  verifyWebhookToken expectedToken (Some (or_empty_string token)) = true
  <-> token = Some expectedToken /\ expectedToken <> EmptyString.
Proof.
  rewrite verifyWebhookToken_true_iff. destruct token as [t|]; cbn.
  - reflexivity.
  - split; [intros [[= <-] Hne]; now contradiction Hne | intros [[=] _]].
Qed.

(** X8. The verification handshake answers 200 with the challenge
    exactly when [hub.mode] is ["subscribe"] and [hub.verify_token] is the
    configured, non-empty token; every other request is answered 403
    ["Forbidden"]. *)
Theorem handleWebhookVerification_spec (expectedToken : string)
    (mode token challenge : option string) :
  let response := handleWebhookVerification expectedToken mode token challenge in
  let accepted :=
    mode = Some "subscribe" /\ token = Some expectedToken
    /\ expectedToken <> EmptyString in
  (accepted ->
   response = {| http_status := 200; http_body := BodyText (or_empty_string challenge) |})
  /\ (~ accepted ->
      response = {| http_status := 403; http_body := BodyText "Forbidden" |}).
Proof.
  cbv zeta. unfold handleWebhookVerification.
  pose proof (handshake_accepts expectedToken token) as Hv.
  destruct (verifyWebhookToken expectedToken (Some (or_empty_string token))).
  - destruct mode as [m|]; cbn.
    + destruct (String.eqb_spec m "subscribe") as [->|Hm]; cbn.
      * split; [reflexivity|]. intros Hno. contradiction Hno.
        split; [reflexivity | now apply Hv].
      * split; [|reflexivity]. intros [[= ->] _]. now contradiction Hm.
    + split; [|reflexivity]. intros [[=] _].
  - rewrite andb_false_r. split; [|reflexivity].
    intros (_ & Ht). now apply Hv in Ht.
Qed.

(** X9. What the listener of the HTTP server does with a request. When
    the request target does not parse as a URL against the [Host]
    header, the exception of [new URL] leaves the listener: nothing
    catches it and no answer is given. Otherwise the request is
    answered, and it changes the state of the process only when it is a
    [POST] to [/webhook] that passes the signature gate: every other
    route and method, and every unsigned or wrongly signed delivery,
    leaves the world as it was. *)
Theorem only_signed_deliveries_change_state (expectedToken : string) (uptime : Number)
    (req : IncomingMessage) (w : World) :
  match new_URL (im_url req) (base_of (im_host req)) with
  | None => createServer_listener expectedToken uptime req w = Uncaught (Raised InvalidURL)
  | Some u =>
      exists (response : HttpResponse) (w' : World),
        createServer_listener expectedToken uptime req w = Answered response w'
        /\ (response, w') = requestListener expectedToken uptime (parsed_request req u) w
        /\ (w' = w
            \/ (pathname u = "/webhook" /\ im_method req = "POST"
                /\ validateMetaWhatsAppSignature (config_whatsappAppSecret (config w))
                     (im_x_hub_signature_256 req) (im_body req) = true))
  end.
Proof.
  unfold createServer_listener.
  destruct (new_URL (im_url req) (base_of (im_host req))) as [u|]; [|reflexivity].
  destruct (requestListener expectedToken uptime (parsed_request req u) w)
    as [response w'] eqn:Hrun.
  exists response, w'. split; [reflexivity|]. split; [reflexivity|].
  assert (Hw : w' = snd (requestListener expectedToken uptime (parsed_request req u) w))
    by (now rewrite Hrun).
  rewrite Hw. clear Hrun Hw. unfold requestListener. cbn [req_pathname parsed_request].
  destruct (_ || _); [now left|].
  destruct (String.eqb_spec (pathname u) "/webhook") as [Hpath|_].
  - unfold handleWhatsAppWebhook.
    change (req_method (parsed_request req u)) with (im_method req).
    change (x_hub_signature_256 (parsed_request req u)) with (im_x_hub_signature_256 req).
    change (req_body (parsed_request req u)) with (im_body req).
    destruct (String.eqb (im_method req) "GET"); [now left|].
    destruct (String.eqb_spec (im_method req) "POST") as [Hmethod|_]; [|now left].
    unfold handleWhatsAppWebhook_POST.
    destruct (validateMetaWhatsAppSignature _ _ _) eqn:Hsig; [now right | now left].
  - destruct (String.eqb (pathname u) "/health"); now left.
Qed.

End RouteProperties.

(* ===================================================================== *)
(** * The conversation registry over time *)

Section RegistryProperties.
Context `{Env : Environment}.

Lemma append_inj_l (p a b : string) :
  String.append p a = String.append p b -> a = b.
Proof.
  induction p as [|c p IH]; [auto|].
  change (String c (String.append p a) = String c (String.append p b) -> a = b).
  intros [= Hab]. auto.
Qed.

Lemma digits_then_dash (a : string) : forall (b x y : string),
  all_digits a -> all_digits b ->
  String.append a (String "-" x) = String.append b (String "-" y) -> a = b.
Proof.
  induction a as [|c a IH]; intros [|d b] x y Ha Hb Hab.
  - reflexivity.
  - change (String "-" x = String d (String.append b (String "-" y))) in Hab.
    injection Hab as <- _. inversion Hb as [|? ? Hd _]. discriminate Hd.
  - change (String c (String.append a (String "-" x)) = String "-" y) in Hab.
    injection Hab as -> _. inversion Ha as [|? ? Hc _]. discriminate Hc.
  - change (String c (String.append a (String "-" x))
            = String d (String.append b (String "-" y))) in Hab.
    injection Hab as -> Hab. f_equal.
    inversion Ha; inversion Hb; subst. eapply IH; eauto.
Qed.

Lemma string_of_uint_digits (d : Decimal.uint) :
  all_digits (DecimalString.NilEmpty.string_of_uint d).
Proof.
  unfold all_digits. induction d; simpl; constructor; auto.
Qed.

Lemma decimal_digits (n : N) : all_digits (decimal n).
Proof.
  unfold decimal, DecimalString.NilZero.string_of_uint.
  destruct (N.to_uint n) eqn:E; try (rewrite <- E; apply string_of_uint_digits).
  repeat constructor.
Qed.

Lemma to_uint_nonnil (n : N) : N.to_uint n <> Decimal.Nil.
Proof.
  destruct n as [|p]; [discriminate|]. apply DecimalPos.Unsigned.to_uint_nonnil.
Qed.

Lemma decimal_inj (n m : N) : decimal n = decimal m -> n = m.
Proof.
  unfold decimal. intros Hnm.
  pose proof (DecimalString.NilZero.usu _ (to_uint_nonnil n)) as Hn.
  pose proof (DecimalString.NilZero.usu _ (to_uint_nonnil m)) as Hm.
  rewrite Hnm, Hm in Hn. injection Hn as Hn.
  rewrite <- (DecimalN.Unsigned.of_to n), <- (DecimalN.Unsigned.of_to m). now f_equal.
Qed.

(** Ids made from different counter values differ, whatever the clock
    read. *)
Lemma conversation_id_string_inj (n m : N) (t t' : Number) :
  conversation_id_string n t = conversation_id_string m t' -> n = m.
Proof.
  unfold conversation_id_string. intros Hid. apply append_inj_l in Hid.
  apply decimal_inj. eapply digits_then_dash; eauto using decimal_digits.
Qed.

Lemma fresh_id (w : World) (now : Number) :
  registry_ok w ->
  activeConversations w !! conversation_id_string (N.succ (currentConversationId w)) now
  = None.
Proof.
  intros Hok.
  destruct (activeConversations w !! _) as [r|] eqn:Hr; [|reflexivity].
  destruct (registry_key w Hok _ _ Hr) as (st & Hst & Hid).
  destruct (registry_object w Hok _ _ Hst) as (_ & _ & now' & Hid').
  rewrite Hid in Hid'. apply conversation_id_string_inj in Hid'.
  rewrite (registry_counter w Hok) in Hid'. apply lookup_lt_Some in Hst. lia.
Qed.

Lemma registry_ok_initial (cfg : ServerConfig) : registry_ok (initial_world cfg).
Proof. split; cbn; try reflexivity; intros ? ?; now rewrite ?lookup_nil, ?lookup_empty. Qed.

Lemma extends_refl (w : World) : extends w w.
Proof.
  intros cid r st Hr Hst. split; [exact Hr|]. exists st. split_and!; auto.
  exists []. now rewrite app_nil_r.
Qed.

Lemma extends_trans (w0 w1 w2 : World) : extends w0 w1 -> extends w1 w2 -> extends w0 w2.
Proof.
  intros H01 H12 cid r st Hr Hst.
  destruct (H01 cid r st Hr Hst) as (Hr1 & st1 & Hst1 & Hid1 & Hph1 & Hs1 & a1 & Hh1).
  destruct (H12 cid r st1 Hr1 Hst1) as (Hr2 & st2 & Hst2 & Hid2 & Hph2 & Hs2 & a2 & Hh2).
  split; [exact Hr2|]. exists st2. split_and!; try congruence.
  exists (a1 ++ a2). now rewrite Hh2, Hh1, app_assoc.
Qed.

Lemma registry_frame (w w' : World) :
  objects w' = objects w -> activeConversations w' = activeConversations w ->
  currentConversationId w' = currentConversationId w ->
  registry_ok w -> registry_ok w' /\ extends w w'.
Proof.
  intros Ho Ha Hc Hok. split.
  - destruct Hok as [H1 H2 H3 H4]. split; rewrite ?Ho, ?Ha, ?Hc; auto.
  - intros cid r st Hr Hst. rewrite Ha, Ho. split; [exact Hr|].
    exists st. split_and!; auto. exists []. now rewrite app_nil_r.
Qed.

Lemma registry_create (phoneNumber : JSValue) (w : World) :
  registry_ok w ->
  registry_ok (snd (getOrCreateConversation phoneNumber w))
  /\ extends w (snd (getOrCreateConversation phoneNumber w)).
Proof.
  intros Hok.
  destruct (getOrCreateConversation_cases phoneNumber w)
    as [(cid & ->)|(w' & st & -> & _ & Hid & _ & _ & Hact & Ho & Ha & Hc)]; cbn [snd].
  { split; [exact Hok | apply extends_refl]. }
  pose proof (fresh_id w (clock (clock_reads w)) Hok) as Hfresh. rewrite <- Hid in Hfresh.
  split.
  - split.
    + rewrite Hc, Ho, length_app, (registry_counter w Hok). cbn. lia.
    + rewrite Ha, Ho, length_app, map_size_insert_None, (registry_size w Hok) by exact Hfresh.
      cbn. lia.
    + intros r st' Hst'. rewrite Ho in Hst'. rewrite Ha.
      apply lookup_app_Some in Hst' as [Hold|[Hlen Hnew]].
      * destruct (registry_object w Hok _ _ Hold) as (Hactive & Hr & Hform).
        split; [exact Hactive|]. split; [|exact Hform].
        rewrite lookup_insert_ne; [exact Hr|]. intros Heq. now rewrite Heq, Hr in Hfresh.
      * destruct (r - length (objects w))%nat as [|i] eqn:Hi; [|now destruct i].
        injection Hnew as <-. assert (r = length (objects w)) as -> by lia.
        split; [exact Hact|]. split; [apply lookup_insert_eq|].
        exists (clock (clock_reads w)). rewrite Hid, (registry_counter w Hok).
        f_equal. lia.
    + intros cid r Hr. rewrite Ha in Hr. rewrite Ho.
      destruct (decide (cid = conversationId st)) as [->|Hne].
      * rewrite lookup_insert_eq in Hr. injection Hr as <-.
        exists st. split; [apply list_lookup_middle|]; reflexivity.
      * rewrite lookup_insert_ne in Hr by congruence.
        destruct (registry_key w Hok _ _ Hr) as (st' & Hst' & Hid').
        exists st'. split; [now apply lookup_app_l_Some | exact Hid'].
  - intros cid r st0 Hr Hst0. rewrite Ha, Ho. split.
    + rewrite lookup_insert_ne; [exact Hr|]. intros Heq. now rewrite Heq, Hr in Hfresh.
    + exists st0. split; [now apply lookup_app_l_Some|]. split_and!; auto.
      exists []. now rewrite app_nil_r.
Qed.

Lemma registry_alter (f : ConversationState -> ConversationState) (r : nat) (w : World) :
  (forall st : ConversationState,
     conversationId (f st) = conversationId st /\ active (f st) = active st
     /\ userPhoneNumber (f st) = userPhoneNumber st /\ startTime (f st) = startTime st
     /\ exists added, messageHistory (f st) = messageHistory st ++ added) ->
  registry_ok w ->
  registry_ok (set_objects (alter f r) w) /\ extends w (set_objects (alter f r) w).
Proof.
  intros Hf Hok.
  assert (Hlook : forall (i : nat) (st : ConversationState),
            objects w !! i = Some st ->
            exists st', alter f r (objects w) !! i = Some st'
              /\ conversationId st' = conversationId st /\ active st' = active st
              /\ userPhoneNumber st' = userPhoneNumber st /\ startTime st' = startTime st
              /\ exists added, messageHistory st' = messageHistory st ++ added).
  { intros i st Hst. destruct (decide (i = r)) as [->|Hne].
    - exists (f st). rewrite list_lookup_alter_eq, Hst. split; [reflexivity | apply Hf].
    - exists st. rewrite list_lookup_alter_ne by congruence. split; [exact Hst|].
      split_and!; auto. exists []. now rewrite app_nil_r. }
  assert (Hback : forall (i : nat) (st' : ConversationState),
            alter f r (objects w) !! i = Some st' ->
            exists st, objects w !! i = Some st
              /\ conversationId st' = conversationId st /\ active st' = active st).
  { intros i st' Hst'. destruct (objects w !! i) as [st|] eqn:Hst.
    - destruct (Hlook i st Hst) as (st2 & Hst2 & Hid & Hact & _).
      rewrite Hst2 in Hst'. injection Hst' as <-. eauto.
    - apply lookup_lt_Some in Hst'. rewrite length_alter in Hst'.
      apply lookup_ge_None in Hst. lia. }
  split.
  - split; cbn.
    + rewrite length_alter. apply (registry_counter w Hok).
    + rewrite length_alter. apply (registry_size w Hok).
    + intros i st' Hst'. destruct (Hback i st' Hst') as (st & Hst & -> & ->).
      apply (registry_object w Hok _ _ Hst).
    + intros cid i Hi. destruct (registry_key w Hok _ _ Hi) as (st & Hst & Hid).
      destruct (Hlook i st Hst) as (st' & Hst' & Hid' & _).
      exists st'. split; [exact Hst' | congruence].
  - intros cid i st Hi Hst. cbn. split; [exact Hi|].
    destruct (Hlook i st Hst) as (st' & Hst' & Hid & _ & Hph & Hs & Hh). eauto 10.
Qed.

(** The registry invariant, together with the growth since [w0], is kept
    by every primitive the handlers are made of. *)
Lemma registry_invariant (w0 : World) :
  handler_invariant (fun _ => True) (fun w => registry_ok w /\ extends w0 w).
Proof.
  assert (Hframe : forall w w' : World,
            objects w' = objects w -> activeConversations w' = activeConversations w ->
            currentConversationId w' = currentConversationId w ->
            registry_ok w /\ extends w0 w -> registry_ok w' /\ extends w0 w').
  { intros w w' Ho Ha Hc [Hok Hext].
    destruct (registry_frame w w' Ho Ha Hc Hok) as [Hok' Hext'].
    split; [exact Hok' | now apply (extends_trans w0 w w')]. }
  split.
  - intros f w. now apply Hframe.
  - intros f w. now apply Hframe.
  - intros phoneNumber w [Hok Hext].
    destruct (registry_create phoneNumber w Hok) as [Hok' Hext'].
    split; [exact Hok' | eapply extends_trans; eauto].
  - intros e r w [Hok Hext].
    destruct (registry_alter (push_message e) r w) as [Hok' Hext']; [|exact Hok|].
    + intros st. split_and!; try reflexivity. now exists [e].
    + split; [exact Hok' | eapply extends_trans; eauto].
  - intros t r w [Hok Hext].
    destruct (registry_alter (touch t) r w) as [Hok' Hext']; [|exact Hok|].
    + intros st. split_and!; try reflexivity. exists []. cbn. now rewrite app_nil_r.
    + split; [exact Hok' | eapply extends_trans; eauto].
  - intros k T w. apply Hframe; unfold resolvePending, bind, gets;
      now destruct (pendingResponses w !! k).
  - intros k d w. now apply Hframe.
  - intros id _ w. apply Hframe; unfold fire_timer, bind, gets;
      now destruct (timers w !! id).
Qed.

Lemma registry_run (cfg : ServerConfig) (events : list Event) :
  registry_ok (run (initial_world cfg) events).
Proof.
  apply (run_invariant _ events (registry_invariant (initial_world cfg))).
  split; [apply registry_ok_initial | apply extends_refl].
Qed.

(** X10. In every world the process reaches, the conversations have
    pairwise different ids, each one is active and is found in the
    registry under its own id, and the registry holds as many
    conversations as the counter has counted. *)
Theorem conversation_ids_unique (cfg : ServerConfig) (events : list Event) :
  let w := run (initial_world cfg) events in
  size (activeConversations w) = N.to_nat (currentConversationId w)
  /\ length (objects w) = N.to_nat (currentConversationId w)
  /\ (forall (r : nat) (st : ConversationState),
        objects w !! r = Some st ->
        active st = true /\ activeConversations w !! conversationId st = Some r)
  /\ (forall (r r' : nat) (st st' : ConversationState),
        objects w !! r = Some st -> objects w !! r' = Some st' ->
        conversationId st = conversationId st' -> r = r').
Proof.
  cbv zeta. pose proof (registry_run cfg events) as Hok.
  set (w := run (initial_world cfg) events) in *.
  rewrite (registry_size w Hok), (registry_counter w Hok), Nat2N.id. split_and!; auto.
  - intros r st Hst. destruct (registry_object w Hok _ _ Hst) as (? & ? & _). auto.
  - intros r r' st st' Hst Hst' Hid.
    destruct (registry_object w Hok _ _ Hst) as (_ & Hr & _).
    destruct (registry_object w Hok _ _ Hst') as (_ & Hr' & _).
    rewrite Hid, Hr' in Hr. now injection Hr.
Qed.

(** X11. Histories are append-only: whatever happens after a reachable
    world, the history of every conversation of that world is a prefix of
    its later history, under the same id. *)
Theorem history_append_only (cfg : ServerConfig) (before after : list Event)
    (cid : string) :
  let w := run (initial_world cfg) before in
  exists added : list HistoryEntry,
    getConversationHistory cid (run w after) = getConversationHistory cid w ++ added.
Proof.
  cbv zeta. pose proof (registry_run cfg before) as Hok.
  set (w := run (initial_world cfg) before) in *.
  destruct (run_invariant _ after (registry_invariant w) w) as [_ Hext];
    [split; [exact Hok | apply extends_refl]|].
  unfold getConversationHistory at 2.
  destruct (activeConversations w !! cid) as [r|] eqn:Hr; [|cbn; eauto].
  destruct (registry_key w Hok _ _ Hr) as (st & Hst & _). rewrite Hst.
  destruct (Hext cid r st Hr Hst) as (Hr' & st' & Hst' & _ & _ & _ & added & Hh).
  exists added. unfold getConversationHistory. now rewrite Hr', Hst'.
Qed.

End RegistryProperties.

(* ===================================================================== *)
(** * Reply-waits over time *)

Section WaitProperties.
Context `{Env : Environment}.

Lemma settle_pending_inv (p q : nat) (v : PromiseState) (ps : list PromiseState) :
  v <> Pending -> settle q v ps !! p = Some Pending ->
  ps !! p = Some Pending /\ p <> q.
Proof.
  intros Hv. unfold settle. destruct (ps !! q) as [s|] eqn:Hq.
  - destruct (decide (p = q)) as [->|Hne].
    + destruct s; rewrite ?Hq; try discriminate.
      rewrite list_lookup_insert_eq by (now apply lookup_lt_Some in Hq).
      intros [= ->]. now contradiction Hv.
    + destruct s; try (intros Hp; split; [exact Hp | exact Hne]).
      rewrite list_lookup_insert_ne by congruence. auto.
  - intros Hp. split; [exact Hp|]. intros ->. congruence.
Qed.

Lemma timed_stable : stable (fun _ => True) (fun w => wf w /\ timed w).
Proof.
  split.
  - intros w w' Hp Hq Ht Hn [Hwf Htimed].
    split; [now apply (stable_frame _ _ wf_stable w)|].
    intros p. rewrite Hq, Ht. apply Htimed.
  - intros k T w [Hwf Htimed].
    split; [now apply (stable_resolve _ _ wf_stable)|].
    destruct (pendingResponses w !! k) as [e|] eqn:He;
      [|now rewrite resolvePending_absent].
    destruct (resolvePending_found k T e w He) as (w' & -> & _ & Hq & Ht & _).
    cbn [snd]. intros p Hp. rewrite Hq in Hp.
    apply settle_pending_inv in Hp as [Hp Hne]; [|discriminate].
    destruct (Htimed p Hp) as (t & tm & Htm & Hrej).
    destruct (wf_pending w Hwf k e He) as (_ & _ & tm0 & Htm0 & Hrej0 & _).
    exists t, tm. split; [|exact Hrej]. rewrite Ht, lookup_delete_ne; [exact Htm|].
    intros Heq. rewrite Heq, Htm in Htm0. injection Htm0 as <-. congruence.
  - intros k d w [Hwf Htimed].
    split; [now apply (stable_register _ _ wf_stable)|].
    destruct (register_spec k d w) as (w' & -> & _ & Hq & Ht & _).
    cbn [snd]. intros p Hp. rewrite Hq in Hp. rewrite Ht.
    apply lookup_app_Some in Hp as [Hold|[Hlen Hnew]].
    + destruct (Htimed p Hold) as (t & tm & Htm & Hrej).
      exists t, tm. split; [|exact Hrej]. rewrite lookup_insert_ne; [exact Htm|].
      intros Heq. apply (wf_timer w Hwf) in Htm. lia.
    + exists (next_timer w). eexists. split; [apply lookup_insert_eq|]. cbn.
      destruct (p - length (promises w))%nat as [|i] eqn:Hi; [lia | now destruct i].
  - intros id _ w [Hwf Htimed].
    split; [now apply (stable_fire _ _ wf_stable)|].
    destruct (timers w !! id) as [tm0|] eqn:Htm0; [|now rewrite fire_timer_unarmed].
    destruct (fire_timer_armed id tm0 w Htm0) as (w' & -> & _ & Hq & Ht & _).
    cbn [snd]. intros p Hp. rewrite Hq in Hp.
    apply settle_pending_inv in Hp as [Hp Hne]; [|discriminate].
    destruct (Htimed p Hp) as (t & tm & Htm & Hrej).
    exists t, tm. split; [|exact Hrej]. rewrite Ht, lookup_delete_ne; [exact Htm|].
    intros Heq. rewrite Heq, Htm in Htm0. injection Htm0 as <-. congruence.
Qed.

(** X12. No reply-wait hangs for ever: in every world the process
    reaches, a promise that is still pending has an armed timer whose
    firing rejects it with the timeout error. *)
Theorem pending_promise_times_out (cfg : ServerConfig) (events : list Event) (p : nat) :
  promises (run (initial_world cfg) events) !! p = Some Pending ->
  exists (t : nat) (tm : Timer),
    timers (run (initial_world cfg) events) !! t = Some tm
    /\ handler_reject tm = p
    /\ promises (step (run (initial_world cfg) events) (TimerFires t)) !! p
       = Some (Rejected (Error timeout_message)).
Proof.
  intros Hp.
  destruct (run_stable _ events timed_stable (initial_world cfg)) as [_ Htimed].
  { split; [apply wf_initial|]. intros q. cbn. now rewrite lookup_nil. }
  destruct (Htimed p Hp) as (t & tm & Htm & Hrej). exists t, tm.
  split; [exact Htm|]. split; [exact Hrej|].
  destruct (fire_timer_armed t tm _ Htm) as (w' & Hfire & _ & Hq & _).
  cbn [step]. rewrite Hfire. cbn [snd]. rewrite Hq, Hrej. now apply settle_pending.
Qed.

(** X13. A promise settles once: after it was fulfilled with a reply or
    rejected, no later event changes it, so the result of the tool call
    that awaits it is the same at any later time. *)
Theorem settled_promise_is_final (w : World) (events : list Event) (p : nat)
    (v : PromiseState) :
  promises w !! p = Some v -> v <> Pending ->
  promises (run w events) !! p = Some v
  /\ forall k : ReplyWait,
       waiting_promise k = p ->
       send_message_settled k (run w events) = send_message_settled k w.
Proof.
  intros Hp Hv.
  assert (Hrun : promises (run w events) !! p = Some v)
    by (apply (run_stable _ events (settled_stable p v Hv)); exact Hp).
  split; [exact Hrun|]. intros k Hk. unfold send_message_settled.
  now rewrite Hk, Hrun, Hp.
Qed.

(* ===================================================================== *)
(** * Inbound messages *)

Lemma resolvePending_registry (k T : string) (w : World) :
  exists w' : World,
    resolvePending k T w = (Ok tt, w')
    /\ objects w' = objects w
    /\ activeConversations w' = activeConversations w
    /\ phoneToConversationId w' = phoneToConversationId w
    /\ markAsRead_calls w' = markAsRead_calls w.
Proof.
  unfold resolvePending, bind, gets.
  destruct (pendingResponses w !! k); eexists; (split; [reflexivity|]); cbn; auto.
Qed.

Lemma begin_is_a_step (message : JSValue) (w : World) :
  snd (handleIncomingMessage_begin message w) = run w [MessageArrives message].
Proof. reflexivity. Qed.

(** What the handling of a supported message from a string sender leaves
    behind, when its first half runs in a world [w] the process reached
    and any events [during] run while the message is marked as read. *)
Lemma inbound_recorded (cfg : ServerConfig) (before during : list Event)
    (props : list (string * JSValue)) (T b : string) :
  extract_text (JObject props) = Ok (Some (JString T)) ->
  lookup_prop "from" props = JString b ->
  converts (lookup_prop "timestamp" props) = true ->
  exists (k : MessageInFlight) (w1 : World) (cid : string) (r : nat),
    handleIncomingMessage_begin (JObject props) (run (initial_world cfg) before)
    = (Ok (Some k), w1)
    /\ arriving_from k = JString b /\ arriving_text k = T
    /\ arriving_timestamp k = parseInt10_times_1000 (lookup_prop "timestamp" props)
    /\ arriving_state k = Some r
    /\ same_replies (run (initial_world cfg) before) w1
    /\ mapped b cid w1
    /\ activeConversations w1 !! cid = Some r
    /\ mapped b cid (run w1 during)
    /\ activeConversations (run w1 during) !! cid = Some r
    /\ exists st : ConversationState, objects (run w1 during) !! r = Some st.
Proof.
  intros Hx Hfrom Hts. set (w := run (initial_world cfg) before).
  destruct (handleIncomingMessage_begin_supported props T b w Hx Hfrom Hts)
    as (cid & r & st1 & w1 & Hbegin & Hr & Hst & Hmap & Hsame & _).
  assert (Hok1 : registry_ok w1).
  { pose proof (begin_is_a_step (JObject props) w) as Hstep. rewrite Hbegin in Hstep.
    cbn [snd] in Hstep. rewrite Hstep.
    apply (run_invariant _ _ (registry_invariant w) w).
    split; [apply registry_run | apply extends_refl]. }
  destruct (run_invariant _ during (registry_invariant w1) w1
              (conj Hok1 (extends_refl w1))) as [_ Hext].
  destruct (Hext cid r st1 Hr Hst) as (Hr2 & st2 & Hst2 & _).
  eexists _, w1, cid, r. split; [exact Hbegin|]. cbn.
  split_and!; auto.
  - apply (run_invariant _ during (mapped_invariant b cid) w1 Hmap).
  - now exists st2.
Qed.

(** X14. A supported message from a string sender, with a timestamp that
    converts to a string, is recorded whatever runs while it is marked as
    read, whatever the mark-as-read call does and whether or not a reply
    is awaited. In a world the process reached, the first half of its
    handling returns and leaves the sender mapped to a conversation; when
    the second half runs, after any events, it returns, the sender is
    still mapped to that conversation, the last entry of the
    conversation's history is the message, of role [user] and with the
    provider's timestamp in milliseconds, which is also the
    conversation's last-activity time; and one more mark-as-read call of
    the provider has been awaited. *)
Theorem inbound_message_recorded (cfg : ServerConfig) (before during : list Event)
    (props : list (string * JSValue)) (T b : string) :
  extract_text (JObject props) = Ok (Some (JString T)) ->
  lookup_prop "from" props = JString b ->
  converts (lookup_prop "timestamp" props) = true ->
  let w := run (initial_world cfg) before in
  let received := parseInt10_times_1000 (lookup_prop "timestamp" props) in
  exists (k : MessageInFlight) (w1 : World) (cid : string) (r : nat),
    handleIncomingMessage_begin (JObject props) w = (Ok (Some k), w1)
    /\ jsmap_get (JString b) (phoneToConversationId w1) = Some cid
    /\ activeConversations w1 !! cid = Some r
    /\ let w2 := run w1 during in
       exists (w3 : World) (st : ConversationState) (older : list HistoryEntry),
         handleIncomingMessage_resume k w2 = (Ok tt, w3)
         /\ jsmap_get (JString b) (phoneToConversationId w3) = Some cid
         /\ activeConversations w3 !! cid = Some r
         /\ objects w3 !! r = Some st
         /\ messageHistory st
            = older ++ [{| role := user; text := T; timestamp := received |}]
         /\ getConversationHistory cid w3 = messageHistory st
         /\ lastMessageAt st = received
         /\ markAsRead_calls w3 = S (markAsRead_calls w2).
Proof.
  intros Hx Hfrom Hts w received.
  destruct (inbound_recorded cfg before during props T b Hx Hfrom Hts)
    as (k & w1 & cid & r & Hbegin & Hkf & Hkt & Hks & Hkr & _ & [Hmap1 _] & Hr1
        & [Hmap2 _] & Hr2 & st2 & Hst2).
  exists k, w1, cid, r. split; [exact Hbegin|]. split; [exact Hmap1|].
  split; [exact Hr1|]. intros w2. fold w2 in Hmap2, Hr2, Hst2.
  destruct (handleIncomingMessage_resume_spec k b r w2 Hkf Hkr)
    as (wr & _ & Ho & Ha & Hph & Hc & Hrun).
  rewrite Hkt, Hks in Ho. fold received in Ho.
  set (entry := {| role := user; text := T; timestamp := received |}) in *.
  assert (Hrec : objects wr !! r = Some (touch received (push_message entry st2)))
    by (now rewrite Ho, !list_lookup_alter_eq, Hst2).
  destruct (resolvePending_registry (normalizePhoneNumber b) (arriving_text k) wr)
    as (w3 & Hres & Ho3 & Ha3 & Hph3 & Hc3).
  destruct (onMessageReceivedCallback w2).
  - exists w3, (touch received (push_message entry st2)), (messageHistory st2).
    unfold getConversationHistory.
    rewrite Hrun, Hres, Hph3, Ha3, Ho3, Hc3, Hph, Ha, Hc, Hr2, Hrec.
    split_and!; auto.
  - exists wr, (touch received (push_message entry st2)), (messageHistory st2).
    unfold getConversationHistory. rewrite Hrun, Hph, Ha, Hc, Hr2, Hrec.
    split_and!; auto.
Qed.

(** X15. A button reply is a reply. Let an inbound message of type
    [button] have a non-empty label [T], a string sender and a timestamp
    that converts to a string. The first half of its handling returns and
    leaves the table, the promises and the timers as they are; when the
    second half runs with the callback installed, whatever ran meanwhile,
    a reply-wait that is then in the table under the sender's normalised
    number with its promise pending has that promise fulfilled with [T],
    its entry removed and its timer cleared. In particular a wait that is
    pending when the message arrives is resolved with [T] when nothing
    runs in between. *)
Theorem button_reply_resolves_pending (a b T : string)
    (props : list (string * JSValue)) (w : World) :
  normalizePhoneNumber a = normalizePhoneNumber b ->
  lookup_prop "from" props = JString b ->
  lookup_prop "type" props = JString "button" ->
  get_prop_opt (lookup_prop "button" props) "text" = JString T ->
  T <> EmptyString ->
  converts (lookup_prop "timestamp" props) = true ->
  exists (k : MessageInFlight) (w1 : World),
    handleIncomingMessage_begin (JObject props) w = (Ok (Some k), w1)
    /\ same_replies w w1
    /\ (forall w2 : World,
          onMessageReceivedCallback w2 = true ->
          exists w3 : World,
            handleIncomingMessage_resume k w2 = (Ok tt, w3)
            /\ forall entry : PendingEntry,
                 pendingResponses w2 !! normalizePhoneNumber a = Some entry ->
                 promises w2 !! resolve entry = Some Pending ->
                 promises w3 !! resolve entry = Some (Fulfilled T)
                 /\ pendingResponses w3 !! normalizePhoneNumber a = None
                 /\ timers w3 !! timeout entry = None)
    /\ (forall entry : PendingEntry,
          pendingResponses w !! normalizePhoneNumber a = Some entry ->
          promises w !! resolve entry = Some Pending ->
          onMessageReceivedCallback w = true ->
          exists w' : World,
            handleIncomingMessage (JObject props) w = (Ok tt, w')
            /\ promises w' !! resolve entry = Some (Fulfilled T)
            /\ pendingResponses w' !! normalizePhoneNumber a = None
            /\ timers w' !! timeout entry = None).
Proof.
  intros Hab Hfrom Htype Hlabel HT Hts.
  assert (Hx : extract_text (JObject props) = Ok (Some (JString T))).
  { unfold extract_text. cbn [get_prop get_prop_opt]. rewrite Htype, Hlabel.
    cbn [strict_eq_string truthy]. rewrite (string_truthy_nonempty T HT).
    change (String.eqb "button" "text") with false.
    change (String.eqb "button" "button") with true. reflexivity. }
  destruct (handleIncomingMessage_begin_supported props T b w Hx Hfrom Hts)
    as (cid & r & st & w1 & Hbegin & _ & _ & _ & Hsame & _).
  eexists _, w1. split; [exact Hbegin|]. split; [exact Hsame|].
  assert (Hresume : forall w2 : World,
            onMessageReceivedCallback w2 = true ->
            exists w3 : World,
              handleIncomingMessage_resume
                {| arriving_from := JString b;
                   arriving_messageId := lookup_prop "id" props;
                   arriving_text := T;
                   arriving_timestamp :=
                     parseInt10_times_1000 (lookup_prop "timestamp" props);
                   arriving_conversationId := cid;
                   arriving_state := Some r |} w2 = (Ok tt, w3)
              /\ forall entry : PendingEntry,
                   pendingResponses w2 !! normalizePhoneNumber a = Some entry ->
                   promises w2 !! resolve entry = Some Pending ->
                   promises w3 !! resolve entry = Some (Fulfilled T)
                   /\ pendingResponses w3 !! normalizePhoneNumber a = None
                   /\ timers w3 !! timeout entry = None).
  { intros w2 Hcb. rewrite Hab.
    match goal with
    | |- context [handleIncomingMessage_resume ?k w2] =>
        destruct (resume_resolves k b r w2 eq_refl eq_refl Hcb) as (w3 & Hres & Hfound & _)
    end.
    exists w3. split; [exact Hres | exact Hfound]. }
  split; [exact Hresume|].
  intros entry Hentry Hpend Hcb.
  destruct Hsame as (_ & Hcb1 & Hp & Hq & _).
  destruct (Hresume w1) as (w' & Hres & Hfound); [congruence|].
  destruct (Hfound entry) as (Hful & Hnone & Hclear); [congruence | congruence |].
  exists w'. split_and!; auto.
  unfold handleIncomingMessage, bind. now rewrite Hbegin.
Qed.

Lemma statuses_unchanged (statuses : list JSValue) (w : World) :
  forallb status_shaped statuses = true ->
  for_of statuses handleMessageStatus w = (Ok tt, w).
Proof.
  induction statuses as [|s statuses IH]; [reflexivity|].
  cbn [forallb]. intros [Hs Hrest]%andb_true_iff.
  cbn [for_of]. unfold bind at 1.
  assert (Hone : handleMessageStatus s w = (Ok tt, w))
    by (now apply handleMessageStatus_shaped).
  rewrite Hone. auto.
Qed.

(** X16. Deliveries that carry nothing to record change nothing, though
    they pass the signature gate: a body that is not JSON and the JSON
    text [null] are answered 400, an event whose [object] is not
    ["whatsapp_business_account"] is answered 200, and so is a delivery of
    status updates each of which is neither [null] nor absent and has an
    id, a status and a timestamp that convert to strings for the log; the
    world is the same after each of them. *)
Theorem ignored_deliveries (signature : option string) (body : string) (w : World) :
  validateMetaWhatsAppSignature (config_whatsappAppSecret (config w)) signature body = true ->
  (JSON_parse body = None ->
   handleWhatsAppWebhook_POST signature body w = (ack_400, w))
  /\ (JSON_parse body = Some JNull ->
      handleWhatsAppWebhook_POST signature body w = (ack_400, w))
  /\ (forall props : list (string * JSValue),
        JSON_parse body = Some (JObject props) ->
        strict_eq_string (lookup_prop "object" props) whatsapp_object = false ->
        handleWhatsAppWebhook_POST signature body w = (ack_200, w))
  /\ (forall statuses : list JSValue,
        JSON_parse body = Some (statuses_event statuses) ->
        forallb status_shaped statuses = true ->
        handleWhatsAppWebhook_POST signature body w = (ack_200, w)).
Proof.
  intros Hsig. unfold handleWhatsAppWebhook_POST. rewrite Hsig. cbn [negb].
  unfold bind at 1, JSON_parse_body, lift. split_and!.
  - now intros ->.
  - now intros ->.
  - intros props -> Hobj. unfold processWhatsAppEvent, bind, lift. cbn [get_prop].
    now rewrite Hobj.
  - intros statuses -> Hshape.
    unfold processWhatsAppEvent, statuses_event, bind, lift, ret.
    cbn -[handleMessageStatus]. unfold bind, ret. cbn -[handleMessageStatus].
    now rewrite (statuses_unchanged statuses w Hshape).
Qed.

(* ===================================================================== *)
(** * The [send_message] tool: errors and the call without a wait *)

Lemma getOrCreateConversation_at_most_created (phoneNumber : JSValue) (w : World) :
  registry_ok w ->
  at_most_created phoneNumber w (snd (getOrCreateConversation phoneNumber w)).
Proof.
  intros Hok. split.
  { destruct (getOrCreateConversation_world phoneNumber w)
      as (cid & w' & r & st & -> & _ & _ & _ & _ & _ & _ & Hsame & _). exact Hsame. }
  destruct (getOrCreateConversation_cases phoneNumber w)
    as [(cid' & ->)|(w' & st & -> & _ & Hid & Hph & Hhist & _ & Ho & Ha & Hc)]; cbn [snd];
    [split; [reflexivity | now left]|].
  split; [|right; exists st; auto].
  intros cid.
  pose proof (fresh_id w (clock (clock_reads w)) Hok) as Hfresh. rewrite <- Hid in Hfresh.
  unfold getConversationHistory. rewrite Ha, Ho.
  destruct (decide (cid = conversationId st)) as [->|Hne].
  - rewrite lookup_insert_eq, Hfresh, list_lookup_middle by reflexivity. exact Hhist.
  - rewrite lookup_insert_ne by congruence.
    destruct (activeConversations w !! cid) as [r|] eqn:Hr; [|reflexivity].
    destruct (registry_key w Hok _ _ Hr) as (st' & Hst' & _).
    now rewrite (lookup_app_l_Some _ _ _ _ Hst'), Hst'.
Qed.

(** X17. A [send_message] call that cannot send returns an error result
    and records no message. In every world the process reaches: without
    a message the call returns the error [Message is required] and
    changes nothing; when it returns before the provider is asked (a
    message that is not a string), its result is an error; when the
    provider's send fails, at whatever time the failure arrives, the call
    returns the provider's error and changes nothing then. In each case
    the pending-reply table, the promises, the timers and the history
    under every id are as they were before the call. What the call may
    leave behind is a conversation for the configured user: when none can
    be reused, one is created before the message is looked at, with an
    empty history, and it stays registered and counted. *)
Theorem send_message_failures (cfg : ServerConfig) (events : list Event)
    (args : JSValue) :
  let w := run (initial_world cfg) events in
  let user := JString (config_userPhoneNumber (config w)) in
  (truthy (get_prop_opt args "message") = false ->
   send_message_begin args w
   = (Returned (error_result (Error "Message is required")), w))
  /\ (forall (r : ToolResult) (w' : World),
        send_message_begin args w = (Returned r, w') ->
        isError r = true /\ at_most_created user w w')
  /\ (forall (k : SendInFlight) (w1 : World),
        send_message_begin args w = (Awaiting k, w1) ->
        at_most_created user w w1
        /\ forall (e : JSError) (w1' : World),
             send_message_sent k (Throw e) w1' = (Returned (error_result e), w1')
             /\ isError (error_result e) = true)
  /\ (truthy (get_prop_opt args "message") = true ->
      is_string (get_prop_opt args "message") = false ->
      exists e : JSError,
        send_message_begin args w
        = (Returned (error_result e),
           snd (getOrCreateConversation user w))).
Proof.
  cbv zeta. pose proof (registry_run cfg events) as Hok.
  set (w := run (initial_world cfg) events) in *.
  set (user := JString (config_userPhoneNumber (config w))).
  assert (Hsame : at_most_created user w w)
    by (split; [apply same_replies_refl | split; [reflexivity | now left]]).
  assert (Hcases :
    send_message_begin args w
    = (Returned (error_result (Error "Message is required")), w)
      /\ truthy (get_prop_opt args "message") = false
    \/ exists (r : ToolProgress SendInFlight),
         send_message_begin args w = (r, snd (getOrCreateConversation user w))
         /\ match r with
            | Returned t =>
                isError t = true
                /\ exists e : JSError, t = error_result e
            | Awaiting _ => is_string (get_prop_opt args "message") = true
            end).
  { unfold send_message_begin, tool_catch.
    destruct (truthy (get_prop_opt args "message")) eqn:Hm; cbn [negb];
      [right | left; split; reflexivity].
    unfold sendMessage_begin, bind, gets, lift, ret. fold user.
    destruct (getOrCreateConversation user w) as [[cid|e] w1] eqn:Hrun; cbn [snd].
    - destruct (get_prop_opt args "message") as [| |b|n|m|items|props];
        cbn [as_string is_string]; eexists;
        (split; [reflexivity|]); try reflexivity; (split; [reflexivity | eauto]).
    - eexists. split; [reflexivity|]. split; [reflexivity | eauto]. }
  split_and!.
  - intros Hm. destruct Hcases as [[Hrun _]|(r & Hrun & _)]; [exact Hrun|].
    unfold send_message_begin, tool_catch in *. now rewrite Hm in *.
  - intros r w' Hbegin. destruct Hcases as [[Hrun _]|(r' & Hrun & Hr)].
    + rewrite Hrun in Hbegin. injection Hbegin as <- <-. split; [reflexivity | exact Hsame].
    + rewrite Hrun in Hbegin. injection Hbegin as -> <-.
      split; [apply Hr | now apply getOrCreateConversation_at_most_created].
  - intros k w1 Hbegin. split.
    + destruct Hcases as [[Hrun _]|(r' & Hrun & Hr)]; rewrite Hrun in Hbegin.
      * discriminate Hbegin.
      * injection Hbegin as _ <-. now apply getOrCreateConversation_at_most_created.
    + intros e w1'. split; reflexivity.
  - intros Hm Hs. destruct Hcases as [[_ Hf]|(r & Hrun & Hr)]; [congruence|].
    destruct r as [t|k]; [|congruence].
    destruct Hr as [_ [e ->]]. now exists e.
Qed.


End WaitProperties.

(* ===================================================================== *)
(** * The tools that do not wait, and the health route *)

Section ToolProperties.
Context {Num : JSNumber} {Env : Environment} {Rt : Runtime}.

(** X19. [/health] reports the number of conversations created since
    the process started: in every world the process reaches, the size of
    the registry is the value of the conversation counter, since no
    conversation is ever removed or registered twice; the request
    changes nothing. *)
Theorem health_counts_conversations (cfg : ServerConfig) (events : list Event)
    (expectedToken : string) (uptime : Number) (req : Request) :
  req_pathname req = "/health" ->
  requestListener expectedToken uptime req (run (initial_world cfg) events)
  = ({| http_status := 200;
        http_body := BodyJSON (JObject
          [ ("status", JString "ok");
            ("activeConversations",
             JNum (number_of_nat
                     (N.to_nat (currentConversationId (run (initial_world cfg) events)))));
            ("uptime", JNum uptime) ]) |},
     run (initial_world cfg) events).
Proof.
  intros Hpath. pose proof (registry_run cfg events) as Hok.
  unfold requestListener. rewrite Hpath.
  change (String.eqb "/health" "/" || String.eqb "/health" EmptyString) with false.
  change (String.eqb "/health" "/webhook") with false.
  change (String.eqb "/health" "/health") with true. cbv iota.
  now rewrite (registry_size _ Hok), (registry_counter _ Hok), Nat2N.id.
Qed.

Lemma last_conversationId (os : list ConversationState) :
  last (map conversationId os) = option_map conversationId (last os).
Proof.
  induction os as [|st os IH]; [reflexivity|].
  destruct os as [|st' os]; [reflexivity|]. exact IH.
Qed.

Lemma map_conversationId_lookup (os : list ConversationState) (i : nat) :
  map conversationId os !! i = option_map conversationId (os !! i).
Proof.
  revert i. induction os as [|st os IH]; intros [|i]; cbn; auto.
Qed.

(** The list [getActiveConversations] is modelled by, the ids of the
    objects in order of creation, has in every world the process reaches
    the keys of the registry as its members, each once. *)
Lemma active_conversations_listed (cfg : ServerConfig) (events : list Event) :
  let w := run (initial_world cfg) events in
  NoDup (getActiveConversations w)
  /\ length (getActiveConversations w) = size (activeConversations w)
  /\ forall cid : string,
       In cid (getActiveConversations w) <-> is_Some (activeConversations w !! cid).
Proof.
  cbv zeta. pose proof (registry_run cfg events) as Hok.
  set (w := run (initial_world cfg) events) in *. unfold getActiveConversations.
  split_and!.
  - apply NoDup_alt. intros i j cid Hi Hj.
    rewrite map_conversationId_lookup in Hi, Hj.
    destruct (objects w !! i) as [st|] eqn:Hst; [|discriminate].
    destruct (objects w !! j) as [st'|] eqn:Hst'; [|discriminate].
    injection Hi as Hi. injection Hj as Hj.
    destruct (registry_object w Hok _ _ Hst) as (_ & Hr & _).
    destruct (registry_object w Hok _ _ Hst') as (_ & Hr' & _).
    rewrite Hi in Hr. rewrite Hj, Hr in Hr'. now injection Hr'.
  - now rewrite length_map, (registry_size w Hok).
  - intros cid. rewrite in_map_iff. split.
    + intros (st & <- & Hin). apply list_elem_of_In, list_elem_of_lookup in Hin as [r Hst].
      destruct (registry_object w Hok _ _ Hst) as (_ & Hr & _). eauto.
    + intros [r Hr]. destruct (registry_key w Hok _ _ Hr) as (st & Hst & Hid).
      exists st. split; [exact Hid|]. eapply list_elem_of_In, list_elem_of_lookup_2, Hst.
Qed.

Lemma map_items_throws {A B : Type} (f : A -> Result B) (items : list A) :
  (exists e : JSError, map_items f items = Throw e)
  <-> exists (x : A) (e : JSError), In x items /\ f x = Throw e.
Proof.
  induction items as [|x items IH]; cbn.
  - split; [intros [e [=]] | intros (x & e & [] & _)].
  - destruct (f x) as [y|e] eqn:Hx.
    + destruct (map_items f items) as [ys|e'].
      * split; [intros [e [=]]|]. intros (x' & e & [<-|Hin] & Hx'); [congruence|].
        destruct (proj2 IH) as [e0 [=]]. eauto.
      * split; [|eauto]. intros _.
        destruct (proj1 IH) as (x' & e & Hin & Hx'); eauto 6.
    + split; eauto 6.
Qed.

Lemma slice_last {A : Type} (n : nat) (l : list A) :
  slice_from (Finite (- Z.of_nat (S n))) l = drop (length l - S n) l.
Proof.
  unfold slice_from. destruct (Z.ltb_spec (- Z.of_nat (S n)) 0) as [_|Hge]; [|lia].
  f_equal. lia.
Qed.

(** X21. [get_conversation_history] in every world the process reaches.
    A call without an arguments object is answered with an error result,
    though [limit] is optional, since [args.limit] is read without a
    guard. With no conversation yet the answer is the plain text ["No
    active conversations"], not flagged as an error. Otherwise the answer
    is taken from the conversation created last, whatever
    [conversation_id] is given, with [limit] 20 when absent or [0]. When
    [limit] does not convert to a primitive, [-limit] raises and the
    answer is an error result. When it does, the answer carries the id of
    that conversation and the entries [history.slice(-limit)] selects, in
    order and with their count; for a positive integer [limit] these are
    the last [limit] entries. The result is an error exactly when [limit]
    does not convert or one of the selected entries has a timestamp that
    has no ISO form. *)
Theorem history_tool_spec (cfg : ServerConfig) (events : list Event) (args : JSValue) :
  let w := run (initial_world cfg) events in
  (args = JUndefined ->
   get_conversation_history args w = error_result (Raised (ReadOfUndefined "limit")))
  /\ (args = JNull ->
      get_conversation_history args w = error_result (Raised (ReadOfNull "limit")))
  /\ (args = JUndefined \/ args = JNull ->
      isError (get_conversation_history args w) = true)
  /\ (args <> JUndefined -> args <> JNull -> objects w = [] ->
      get_conversation_history args w
      = {| content_text := Plain "No active conversations"; isError := false |})
  /\ (forall (given : JSValue) (st : ConversationState),
        get_prop args "limit" = Ok given ->
        last (objects w) = Some st ->
        let limit := if truthy given then given else JNum number_20 in
        let recent := slice_from (negated_integer limit) (messageHistory st) in
        (converts limit = false ->
         get_conversation_history args w = error_result (Raised NotPrimitive))
        /\ (converts limit = true ->
            get_conversation_history args w
            = match map_items history_item recent with
              | Ok messages =>
                  {| content_text := JSON_stringify (JObject
                       [ ("conversationId", JString (conversationId st));
                         ("messageCount", JNum (number_of_nat (length recent)));
                         ("messages", JArray messages) ]);
                     isError := false |}
              | Throw e => error_result e
              end)
        /\ (isError (get_conversation_history args w) = true
            <-> converts limit = false
                \/ exists msg : HistoryEntry,
                     In msg recent /\ toISOString (timestamp msg) = None)
        /\ (forall n : nat,
              negated_integer limit = Finite (- Z.of_nat (S n)) ->
              recent = drop (length (messageHistory st) - S n) (messageHistory st)
              /\ length recent = Nat.min (S n) (length (messageHistory st)))).
Proof.
  cbv zeta. pose proof (registry_run cfg events) as Hok.
  set (w := run (initial_world cfg) events) in *. split_and!.
  - now intros ->.
  - now intros ->.
  - now intros [->| ->].
  - intros Hu Hn Hnone. unfold get_conversation_history, getActiveConversations.
    rewrite Hnone. now destruct args.
  - intros given st Hlimit Hlast.
    set (limit := if truthy given then given else JNum number_20).
    set (recent := slice_from _ (messageHistory st)).
    assert (Hhist : getConversationHistory (conversationId st) w = messageHistory st).
    { rewrite last_lookup in Hlast.
      destruct (registry_object w Hok _ _ Hlast) as (_ & Hr & _).
      unfold getConversationHistory. now rewrite Hr, Hlast. }
    assert (Hrun : get_conversation_history args w
                   = match ToPrimitive limit with
                     | Throw e => error_result e
                     | Ok _ =>
                         match map_items history_item recent with
                         | Ok messages =>
                             {| content_text := JSON_stringify (JObject
                                  [ ("conversationId", JString (conversationId st));
                                    ("messageCount",
                                     JNum (number_of_nat (length recent)));
                                    ("messages", JArray messages) ]);
                                isError := false |}
                         | Throw e => error_result e
                         end
                     end).
    { unfold get_conversation_history, getActiveConversations.
      rewrite Hlimit, last_conversationId, Hlast. cbn [option_map]. fold limit.
      destruct (ToPrimitive limit); [|reflexivity]. now rewrite Hhist. }
    unfold ToPrimitive, converts in *.
    destruct (ToPrimitive_throws limit); cbn [negb]; split_and!.
    + intros _. exact Hrun.
    + discriminate.
    + rewrite Hrun. split; [now left | reflexivity].
    + intros n Hn. unfold recent. rewrite Hn, slice_last.
      split; [reflexivity|]. rewrite length_drop. lia.
    + discriminate.
    + intros _. exact Hrun.
    + rewrite Hrun.
      pose proof (map_items_throws history_item recent) as Hthrows.
      destruct (map_items history_item recent) as [messages|e] eqn:Hmap; cbn [isError].
      * split; [discriminate|]. intros [[=]|(msg & Hin & Hiso)].
        destruct (proj2 Hthrows) as [e [=]]. exists msg, (Raised InvalidTime).
        split; [exact Hin|]. unfold history_item. now rewrite Hiso.
      * split; [intros _ | reflexivity]. right.
        destruct (proj1 Hthrows) as (msg & e' & Hin & Hitem); [eauto|].
        exists msg. split; [exact Hin|]. unfold history_item in Hitem.
        now destruct (toISOString (timestamp msg)).
    + intros n Hn. unfold recent. rewrite Hn, slice_last.
      split; [reflexivity|]. rewrite length_drop. lia.
Qed.

Lemma env_or_fallback (name fallback : string) :
  env_or name EmptyString <> EmptyString ->
  env_or name fallback = env_or name EmptyString.
Proof.
  unfold env_or. destruct (process_env name) as [[|c v]|]; cbn; auto;
    intros Hne; now contradiction Hne.
Qed.

(** X22. What [get_setup_info] tells the user to paste into the Meta
    console works: once [loadServerConfig] has succeeded for a non-empty
    public URL, the tool's result is not an error, its [webhook_url] is
    the public URL followed by [/webhook], and its [verify_token] is the
    configured token, with which the verification handshake answers 200
    and echoes the challenge. *)
Theorem setup_info_round_trip (url : string) (cfg : LoadedServerConfig)
    (challenge : option string) :
  loadServerConfig url = Ok cfg ->
  url <> EmptyString ->
  exists (info : list (string * JSValue)) (token : string),
    get_setup_info (Some (publicUrl cfg))
    = {| content_text := JSON_stringify (JObject info); isError := false |}
    /\ lookup_prop "webhook_url" info = JString (String.append url "/webhook")
    /\ lookup_prop "verify_token" info = JString token
    /\ token = provider_whatsappVerifyToken (providerConfig cfg)
    /\ handleWebhookVerification (provider_whatsappVerifyToken (providerConfig cfg))
         (Some "subscribe") (Some token) challenge
       = {| http_status := 200; http_body := BodyText (or_empty_string challenge) |}.
Proof.
  intros Hload Hurl. unfold loadServerConfig in Hload.
  destruct (validateProviderConfig loadProviderConfig) as [|e errors] eqn:Hv;
    [|discriminate].
  cbn in Hload. injection Hload as <-. cbn [publicUrl providerConfig].
  apply (validateProviderConfig_nil loadProviderConfig) in Hv.
  destruct Hv as (_ & _ & _ & Htoken & _).
  cbn [loadProviderConfig provider_whatsappVerifyToken] in Htoken |- *.
  destruct url as [|c rest]; [now contradiction Hurl|].
  eexists _, _. split; [reflexivity|]. split; [reflexivity|]. split; [reflexivity|].
  rewrite (env_or_fallback _ _ Htoken). split; [reflexivity|].
  unfold handleWebhookVerification.
  change (String.eqb "subscribe" "subscribe") with true.
  now rewrite (proj2 (handshake_accepts _ (Some _)) (conj eq_refl Htoken)).
Qed.

(** X23. The number a message is sent to is the number its reply is
    awaited from: the provider's request names as [to] the normalised
    user number, which is the key of the reply-wait, and normalising it
    again changes nothing. So for a supported inbound message whose
    sender is that [to] and whose timestamp converts to a string, the
    first half of the handling returns and leaves the table, the promises
    and the timers as they are, and when the second half runs with the
    callback installed, whatever ran meanwhile, a reply-wait that is then
    in the table under the user's key with its promise pending has that
    promise fulfilled with the text, its entry removed and its timer
    cleared. *)
Theorem reply_from_recipient_resolves (message T to : string)
    (props : list (string * JSValue)) (w : World) :
  get_prop_opt (sendMessage_request (config_userPhoneNumber (config w)) message) "to"
  = JString to ->
  lookup_prop "from" props = JString to ->
  extract_text (JObject props) = Ok (Some (JString T)) ->
  converts (lookup_prop "timestamp" props) = true ->
  to = user_key w
  /\ normalizePhoneNumber to = to
  /\ exists (k : MessageInFlight) (w1 : World),
       handleIncomingMessage_begin (JObject props) w = (Ok (Some k), w1)
       /\ same_replies w w1
       /\ forall w2 : World,
            onMessageReceivedCallback w2 = true ->
            exists w3 : World,
              handleIncomingMessage_resume k w2 = (Ok tt, w3)
              /\ forall entry : PendingEntry,
                   pendingResponses w2 !! user_key w = Some entry ->
                   promises w2 !! resolve entry = Some Pending ->
                   promises w3 !! resolve entry = Some (Fulfilled T)
                   /\ pendingResponses w3 !! user_key w = None
                   /\ timers w3 !! timeout entry = None.
Proof.
  intros Hto Hfrom Hx Hts.
  injection Hto as Hto. fold (user_key w) in Hto.
  assert (Hnorm : normalizePhoneNumber to = user_key w).
  { rewrite <- Hto. apply normalizePhoneNumber_fixed, normalizePhoneNumber_digits. }
  split; [now symmetry|]. split; [congruence|].
  destruct (handleIncomingMessage_begin_supported props T to w Hx Hfrom Hts)
    as (cid & r & st & w1 & Hbegin & _ & _ & _ & Hsame & _).
  eexists _, w1. split; [exact Hbegin|]. split; [exact Hsame|].
  intros w2 Hcb. rewrite <- Hnorm.
  match goal with
  | |- context [handleIncomingMessage_resume ?k w2] =>
      destruct (resume_resolves k to r w2 eq_refl eq_refl Hcb) as (w3 & Hres & Hfound & _)
  end.
  exists w3. split; [exact Hres | exact Hfound].
Qed.

End ToolProperties.

(* ===================================================================== *)
(** * Who can answer

    Only [send_message] registers a reply-wait, and always under the
    normalised number of the configured user. The handlers of inbound
    traffic are made of the primitives below, none of which adds an
    entry to the table. *)

Section Quiet.
Context `{Env : Environment}.
Variable P : World -> Prop.
Hypothesis quiet_clock : forall (f : nat -> nat) (w : World), P w -> P (set_clock_reads f w).
Hypothesis quiet_calls :
  forall (f : nat -> nat) (w : World), P w -> P (set_markAsRead_calls f w).
Hypothesis quiet_getOrCreate :
  forall phoneNumber : JSValue, keeps P (getOrCreateConversation phoneNumber).
Hypothesis quiet_objects :
  forall (f : list ConversationState -> list ConversationState) (w : World),
    P w -> P (set_objects f w).
Hypothesis quiet_resolve : forall k T : string, keeps P (resolvePending k T).

Ltac quiet_step :=
  first
    [ apply keeps_ret | apply keeps_throw | apply keeps_lift | apply keeps_gets
    | apply quiet_getOrCreate | apply quiet_resolve
    | apply keeps_bind; [|intros ?]
    | apply keeps_try_catch; [|intros ?]
    | apply keeps_for_of; intros ?
    | match goal with
      | |- keeps _ (match ?x with _ => _ end) => destruct x
      | |- keeps _ Date_now => intros w Hw; cbn; now apply quiet_clock
      | |- keeps _ (markAsRead _) => intros w Hw; cbn; now apply quiet_calls
      | |- keeps _ (modify (set_objects _)) => intros w Hw; cbn; now apply quiet_objects
      end ].

Lemma quiet_handleIncomingMessage_begin (message : JSValue) :
  keeps P (handleIncomingMessage_begin message).
Proof. unfold handleIncomingMessage_begin. repeat quiet_step. Qed.

Lemma quiet_handleIncomingMessage_resume (k : MessageInFlight) :
  keeps P (handleIncomingMessage_resume k).
Proof.
  unfold handleIncomingMessage_resume, history_push, set_lastMessageAt, deref,
    onMessageReceived_callback.
  repeat quiet_step.
Qed.

Lemma quiet_handleIncomingMessage (message : JSValue) :
  keeps P (handleIncomingMessage message).
Proof.
  unfold handleIncomingMessage.
  apply keeps_bind; [apply quiet_handleIncomingMessage_begin | intros [k|]].
  - apply quiet_handleIncomingMessage_resume.
  - apply keeps_ret.
Qed.

Lemma quiet_processWhatsAppEvent (event : JSValue) : keeps P (processWhatsAppEvent event).
Proof.
  unfold processWhatsAppEvent, handleMessageStatus.
  repeat first [ apply quiet_handleIncomingMessage | quiet_step ].
Qed.

Lemma quiet_webhook (signature : option string) (body : string) (w : World) :
  P w -> P (snd (handleWhatsAppWebhook_POST signature body w)).
Proof.
  intros Hw. unfold handleWhatsAppWebhook_POST.
  destruct (negb _); [exact Hw|].
  match goal with
  | |- context [bind ?c ?k w] =>
      assert (Hk : keeps P (bind c k))
        by (apply keeps_bind;
            [apply keeps_lift | intros event; apply quiet_processWhatsAppEvent]);
      specialize (Hk w Hw);
      now destruct (bind c k w) as [[[]|e] w']
  end.
Qed.

Lemma quiet_sendMessage_begin (message : JSValue) : keeps P (sendMessage_begin message).
Proof. unfold sendMessage_begin. repeat quiet_step. Qed.

Lemma quiet_sendMessage_resume (cid : string) (state : option nat) (m : string)
    (sent : Result string) :
  keeps P (sendMessage_resume cid state m sent).
Proof.
  unfold sendMessage_resume, history_push, set_lastMessageAt, deref.
  repeat quiet_step.
Qed.

End Quiet.

Section WhoCanAnswer.
Context `{Env : Environment}.

Lemma single_key_frame (cfg : ServerConfig) (w w' : World) :
  config w' = config w -> pendingResponses w' = pendingResponses w ->
  single_key cfg w -> single_key cfg w'.
Proof. intros Hc Hp [Hcfg Hkeys]. split; [congruence|]. now rewrite Hp. Qed.

Lemma single_key_resolve (cfg : ServerConfig) (k T : string) :
  keeps (single_key cfg) (resolvePending k T).
Proof.
  intros w [Hcfg Hkeys].
  destruct (pendingResponses w !! k) as [e|] eqn:He;
    [|now rewrite resolvePending_absent].
  destruct (resolvePending_found k T e w He) as (w' & -> & Hp & _ & _ & _ & Hc & _).
  cbn [snd]. split; [congruence|]. intros key Hne. rewrite Hp.
  apply lookup_delete_None. auto.
Qed.

Lemma single_key_step (cfg : ServerConfig) (e : Event) (w : World) :
  single_key cfg w -> single_key cfg (step w e).
Proof.
  assert (Hclock : forall f w, single_key cfg w -> single_key cfg (set_clock_reads f w))
    by (intros f w0; now apply single_key_frame).
  assert (Hcalls : forall f w, single_key cfg w -> single_key cfg (set_markAsRead_calls f w))
    by (intros f w0; now apply single_key_frame).
  assert (Hobjects : forall f w, single_key cfg w -> single_key cfg (set_objects f w))
    by (intros f w0; now apply single_key_frame).
  assert (Hcreate : forall phoneNumber,
            keeps (single_key cfg) (getOrCreateConversation phoneNumber)).
  { intros phoneNumber w0 Hw0.
    destruct (getOrCreateConversation_world phoneNumber w0)
      as (cid & w' & r & st & -> & _ & _ & _ & _ & _ & _ & Hsame & _).
    destruct Hsame as (Hc & _ & Hp & _). now apply (single_key_frame cfg w0). }
  pose proof (single_key_resolve cfg) as Hresolve.
  intros Hw. destruct e as [signature body|message|k|id|args|k sent]; cbn [step].
  - now apply quiet_webhook.
  - now apply quiet_handleIncomingMessage_begin.
  - now apply quiet_handleIncomingMessage_resume.
  - destruct (timers w !! id) as [tm|] eqn:Htm; [|now rewrite fire_timer_unarmed].
    destruct (fire_timer_armed id tm w Htm) as (w' & -> & Hp & _ & _ & _ & Hc & _).
    cbn [snd]. destruct Hw as [Hcfg Hkeys]. split; [congruence|].
    intros key Hne. rewrite Hp. apply lookup_delete_None. auto.
  - unfold send_message_begin, tool_catch.
    match goal with
    | |- context [?c w] =>
        assert (Hk : keeps (single_key cfg) c);
          [|specialize (Hk w Hw); now destruct (c w) as [[r|e] w']]
    end.
    destruct (negb _); [apply keeps_throw|].
    apply keeps_bind; [now apply quiet_sendMessage_begin | intros [[cid state] m]].
    apply keeps_ret.
  - unfold send_message_sent, tool_catch.
    match goal with
    | |- context [?c w] =>
        assert (Hk : keeps (single_key cfg) c);
          [|specialize (Hk w Hw); now destruct (c w) as [[r|e] w']]
    end.
    apply keeps_bind; [now apply quiet_sendMessage_resume | intros [cid messageId]].
    destruct (negb _); [apply keeps_ret|].
    intros w1 [Hcfg Hkeys]. unfold bind, gets.
    destruct (register_spec (normalizePhoneNumber (config_userPhoneNumber (config w1)))
                (sending_timeoutMs k) w1) as (w2 & -> & Hp & _ & _ & _ & Hc & _).
    change (single_key cfg w2). split; [congruence|]. intros key Hne. rewrite Hcfg in Hp.
    rewrite Hp, lookup_insert_ne; [auto | intros Heq; now apply Hne].
Qed.

Lemma single_key_run (cfg : ServerConfig) (events : list Event) :
  single_key cfg (run (initial_world cfg) events).
Proof.
  assert (Hrun : forall w, single_key cfg w -> single_key cfg (run w events)).
  { unfold run. induction events as [|e events IH]; intros w Hw; cbn; auto.
    apply IH. now apply single_key_step. }
  apply Hrun. split; [reflexivity|]. intros key _. apply lookup_empty.
Qed.

(** X24. Only the configured user is ever awaited: in every world the
    process reaches, the configuration is the one it started with and
    the pending-reply table has no entry under any key other than the
    normalised number of the configured user, so it holds at most one
    entry however many [send_message] calls are waiting. *)
Theorem pending_table_single_key (cfg : ServerConfig) (events : list Event) :
  let w := run (initial_world cfg) events in
  config w = cfg
  /\ (forall key : string, key <> user_key w -> pendingResponses w !! key = None)
  /\ (size (pendingResponses w) <= 1)%nat.
Proof.
  cbv zeta. destruct (single_key_run cfg events) as [Hcfg Hkeys].
  set (w := run (initial_world cfg) events) in *.
  split; [exact Hcfg|]. unfold user_key. rewrite Hcfg. split; [exact Hkeys|].
  set (k := normalizePhoneNumber (config_userPhoneNumber cfg)) in *.
  destruct (pendingResponses w !! k) as [e|] eqn:He.
  - assert (Heq : pendingResponses w = {[ k := e ]}).
    { apply map_eq. intros key. destruct (decide (key = k)) as [->|Hne].
      - now rewrite He, lookup_singleton_eq.
      - rewrite (Hkeys key Hne). symmetry. now apply lookup_singleton_ne. }
    rewrite Heq, map_size_singleton. lia.
  - assert (Heq : pendingResponses w = ∅).
    { apply map_eq. intros key. rewrite lookup_empty.
      destruct (decide (key = k)) as [->|Hne]; auto. }
    rewrite Heq, map_size_empty. lia.
Qed.

(** X25. A stranger cannot answer: in every world the process reaches, a
    supported inbound message, with a timestamp that converts to a
    string, whose sender does not normalise to the configured user's
    number resolves no reply-wait, whatever reply is awaited and
    whatever runs while the message is marked as read: both halves of its
    handling return, and each leaves the pending-reply table, the
    promises and the timers as it found them. *)
Theorem stranger_never_resolves (cfg : ServerConfig) (before during : list Event)
    (props : list (string * JSValue)) (T b : string) :
  extract_text (JObject props) = Ok (Some (JString T)) ->
  lookup_prop "from" props = JString b ->
  converts (lookup_prop "timestamp" props) = true ->
  normalizePhoneNumber b <> normalizePhoneNumber (config_userPhoneNumber cfg) ->
  let w := run (initial_world cfg) before in
  exists (k : MessageInFlight) (w1 : World),
    handleIncomingMessage_begin (JObject props) w = (Ok (Some k), w1)
    /\ same_replies w w1
    /\ let w2 := run w1 during in
       exists w3 : World,
         handleIncomingMessage_resume k w2 = (Ok tt, w3)
         /\ same_replies w2 w3.
Proof.
  intros Hx Hfrom Hts Hne w.
  destruct (handleIncomingMessage_begin_supported props T b w Hx Hfrom Hts)
    as (cid & r & st & w1 & Hbegin & _ & _ & _ & Hsame & _).
  eexists _, w1. split; [exact Hbegin|]. split; [exact Hsame|]. intros w2.
  assert (Hreach : w2 = run (initial_world cfg)
                          (before ++ MessageArrives (JObject props) :: during)).
  { unfold w2, run. rewrite fold_left_app. cbn [fold_left step]. fold (run (initial_world cfg) before).
    fold w. now rewrite Hbegin. }
  destruct (single_key_run cfg (before ++ MessageArrives (JObject props) :: during))
    as [_ Hkeys].
  rewrite <- Hreach in Hkeys.
  match goal with
  | |- context [handleIncomingMessage_resume ?k w2] =>
      destruct (handleIncomingMessage_resume_spec k b r w2 eq_refl eq_refl)
        as (wr & Hsame2 & _ & _ & _ & _ & ->)
  end.
  exists wr. split; [|exact Hsame2].
  destruct (onMessageReceivedCallback w2); [|reflexivity].
  apply resolvePending_absent. destruct Hsame2 as (_ & _ & -> & _). now apply Hkeys.
Qed.

End WhoCanAnswer.

(* ===================================================================== *)
(** * Examples on the concrete runtime *)

Section Examples.

#[local] Existing Instance demo_numbers.
#[local] Existing Instance demo_environment.



(** The exception of the fifth part is met at index 15 of the header
    for secret ["secret"] and body ["{}"]. *)
Lemma validateMetaWhatsAppSignature_spec_witness :
  let header := valid_header "secret" "{}" in
  (15 < String.length header)%nat
  /\ String.get 15 header <> Some "C"%char
  /\ validateMetaWhatsAppSignature "secret" (Some (set_char 15 "C" header)) "{}" = true
  /\ validateMetaWhatsAppSignature "secret" (Some (set_char 15 "d" header)) "{}" = false.
Proof.
  cbv zeta.
  destruct (validateMetaWhatsAppSignature_spec "secret" "{}") as (_ & _ & _ & _ & Hflip & _).
  assert (Hlen : (15 < String.length (valid_header "secret" "{}"))%nat)
    by (vm_compute; lia).
  assert (Hget : String.get 15 (valid_header "secret" "{}") = Some "c"%char)
    by (vm_compute; reflexivity).
  split; [exact Hlen|]. split; [rewrite Hget; discriminate|]. split.
  - apply (Hflip 15%nat "C"%char Hlen); [rewrite Hget; discriminate|].
    exists "c"%char. split; [exact Hget|]. split; [lia|]. split; reflexivity.
  - destruct (validateMetaWhatsAppSignature "secret"
                (Some (set_char 15 "d" (valid_header "secret" "{}"))) "{}") eqn:E;
      [|reflexivity].
    apply (Hflip 15%nat "d"%char Hlen) in E; [|rewrite Hget; discriminate].
    destruct E as (d & Hd & _ & _ & Hup). rewrite Hget in Hd.
    injection Hd as <-. discriminate Hup.
Defined.

(** C5 (witness): for the key of ["+1 (555) 123-4567"], from a fresh
    process. *)
Lemma register_then_resolve_witness :
  let k := normalizePhoneNumber "+1 (555) 123-4567" in
  let w := initial_world demo_config in
  normalizePhoneNumber "15551234567" = k
  /\ pendingResponses w !! k = None
  /\ resolvePending k "yes" w = (Ok tt, w)
  /\ exists (p : nat) (w1 w2 : World),
       register k (JNum 60000) w = (Ok p, w1)
       /\ onMessageReceived_callback (JString "15551234567") "yes" "conv-1-0" w1
          = (Ok tt, w2)
       /\ promises w2 !! p = Some (Fulfilled "yes")
       /\ pendingResponses w2 !! k = None.
Proof.
  cbv zeta.
  assert (Hk : normalizePhoneNumber "15551234567" = normalizePhoneNumber "+1 (555) 123-4567")
    by (vm_compute; reflexivity).
  assert (Hnone : pendingResponses (initial_world demo_config)
                    !! normalizePhoneNumber "+1 (555) 123-4567" = None)
    by (vm_compute; reflexivity).
  destruct (register_then_resolve (normalizePhoneNumber "+1 (555) 123-4567")
              (@JNum demo_numbers 60000) "yes" (initial_world demo_config))
    as (p & w1 & w2 & Hreg & _ & _ & Hful & Hgone & Hcb & Hnoop).
  split; [exact Hk|]. split; [exact Hnone|]. split; [now apply Hnoop|].
  exists p, w1, w2. split; [exact Hreg|]. split; [now apply Hcb|]. auto.
Defined.


(** C2 (witness). *)
Lemma second_registration_witness :
  let k := normalizePhoneNumber "+1 (555) 123-4567" in
  wf demo_waiting
  /\ pendingResponses demo_waiting !! k = Some {| resolve := O; reject := O; timeout := O |}
  /\ exists (p2 : nat) (w2 : World),
       register k (JNum 30000) demo_waiting = (Ok p2, w2)
       /\ p2 <> O
       /\ forall (events : list Event) (T : string),
            promises (run w2 events) !! O <> Some (Fulfilled T).
Proof.
  cbv zeta.
  assert (Hwf : wf demo_waiting)
    by (apply (stable_register _ _ wf_stable), wf_initial).
  assert (He : pendingResponses demo_waiting !! normalizePhoneNumber "+1 (555) 123-4567"
               = Some {| resolve := O; reject := O; timeout := O |})
    by (vm_compute; reflexivity).
  split; [exact Hwf|]. split; [exact He|].
  destruct (second_registration_orphans_first (H := demo_numbers) demo_waiting _ _
              (@JNum demo_numbers 30000) Hwf He)
    as (tm1 & p2 & w2 & _ & Hreg & _ & Hne & _ & _ & Hfate).
  exists p2, w2. split; [exact Hreg|]. split; [exact Hne|].
  intros events T. apply (Hfate events).
Defined.


(** C6 (witness): a delivery without a signature header. *)
Lemma unsigned_webhook_rejected_witness :
  validateMetaWhatsAppSignature "secret" None demo_body_reply = false
  /\ handleWhatsAppWebhook_POST None demo_body_reply demo_waiting
     = ({| status := 401; payload := "Invalid signature" |}, demo_waiting).
Proof.
  split; [reflexivity|]. apply unsigned_webhook_rejected. reflexivity.
Defined.


(** C9 (witness). *)
Lemma first_timeout_evicts_second_witness :
  let k := normalizePhoneNumber "+1 (555) 123-4567" in
  wf demo_waiting
  /\ pendingResponses demo_waiting !! k = Some {| resolve := O; reject := O; timeout := O |}
  /\ exists (p2 : nat) (w2 : World),
       register k (JNum 30000) demo_waiting = (Ok p2, w2)
       /\ let w3 := step w2 (TimerFires O) in
          pendingResponses w3 !! k = None
          /\ promises w3 !! p2 = Some Pending
          /\ forall (events : list Event) (T : string),
               promises (run w3 events) !! p2 <> Some (Fulfilled T).
Proof.
  cbv zeta.
  assert (Hwf : wf demo_waiting)
    by (apply (stable_register _ _ wf_stable), wf_initial).
  assert (He : pendingResponses demo_waiting !! normalizePhoneNumber "+1 (555) 123-4567"
               = Some {| resolve := O; reject := O; timeout := O |})
    by (vm_compute; reflexivity).
  split; [exact Hwf|]. split; [exact He|].
  destruct (first_timeout_evicts_second (H := demo_numbers) demo_waiting _ _
              (@JNum demo_numbers 30000) Hwf He)
    as (_ & p2 & w2 & tm2 & Hreg & _ & _ & Hnone & Hpend & _ & _ & _ & Hfate).
  exists p2, w2. split; [exact Hreg|]. split; [exact Hnone|]. split; [exact Hpend|].
  intros events T. apply (Hfate events).
Defined.

End Examples.

(* ===================================================================== *)
(** * Further examples on the concrete runtime *)

Section MoreExamples.

#[local] Existing Instance demo_numbers.
#[local] Existing Instance demo_environment.
#[local] Existing Instance demo_runtime.

(** X3 (witness): the valid header for secret ["secret"] and body ["{}"],
    followed by ["&x"]. *)
Lemma trailing_text_still_verifies_witness :
  hex_decode "&x" = []
  /\ validateMetaWhatsAppSignature "secret"
       (Some (String.append (valid_header "secret" "{}") "&x")) "{}" = true.
Proof.
  split; [reflexivity|]. apply trailing_text_still_verifies. reflexivity.
Defined.

(** X12 (witness): the promise of the question asked in [demo_asked]. *)
Lemma pending_promise_times_out_witness :
  let w := run (initial_world demo_config) demo_asked in
  promises w !! O = Some Pending
  /\ exists (t : nat) (tm : Timer),
       timers w !! t = Some tm /\ handler_reject tm = O
       /\ promises (step w (TimerFires t)) !! O = Some (Rejected (Error timeout_message)).
Proof.
  cbv zeta.
  assert (Hp : promises (run (initial_world demo_config) demo_asked) !! O = Some Pending)
    by (vm_compute; reflexivity).
  split; [exact Hp|]. exact (pending_promise_times_out demo_config demo_asked O Hp).
Defined.

(** X13 (witness): the wait of [demo_waiting], answered with ["yes"];
    its timer fires afterwards. *)
Lemma settled_promise_is_final_witness :
  let w := snd (resolvePending (normalizePhoneNumber "+1 (555) 123-4567") "yes"
                  demo_waiting) in
  promises w !! O = Some (Fulfilled "yes")
  /\ promises (run w [TimerFires O]) !! O = Some (Fulfilled "yes").
Proof.
  cbv zeta.
  assert (Hp : promises (snd (resolvePending (normalizePhoneNumber "+1 (555) 123-4567")
                                "yes" demo_waiting)) !! O = Some (Fulfilled "yes"))
    by (vm_compute; reflexivity).
  assert (Hv : Fulfilled "yes" <> Pending) by discriminate.
  split; [exact Hp|].
  exact (proj1 (settled_promise_is_final _ [TimerFires O] O _ Hp Hv)).
Defined.

(** X14 (witness): the text message ["yes"] from 15551234567 arrives in
    a fresh process, and a [send_message] call begins while the message
    is marked as read. *)
Lemma inbound_message_recorded_witness :
  exists (k : MessageInFlight) (w1 w3 : World) (cid : string),
    handleIncomingMessage_begin (text_message "15551234567" "yes")
      (initial_world demo_config) = (Ok (Some k), w1)
    /\ handleIncomingMessage_resume k (run w1 [ToolCall demo_args]) = (Ok tt, w3)
    /\ jsmap_get (JString "15551234567") (phoneToConversationId w3) = Some cid
    /\ exists older : list HistoryEntry,
         getConversationHistory cid w3
         = older ++ [{| role := user; text := "yes"; timestamp := 1700000000000 |}].
Proof.
  destruct (inbound_message_recorded demo_config [] [ToolCall demo_args]
              [ ("from", JString "15551234567"); ("id", JString "wamid.1");
                ("timestamp", JString "1700000000"); ("type", JString "text");
                ("text", JObject [ ("body", JString "yes") ]) ]
              "yes" "15551234567" eq_refl eq_refl eq_refl)
    as (k & w1 & cid & r & Hbegin & _ & _ & Hrest).
  destruct Hrest as (w3 & st & older & Hres & Hmap & _ & _ & Hhist & Hget & _).
  exists k, w1, w3, cid. split; [exact Hbegin|]. split; [exact Hres|].
  split; [exact Hmap|]. exists older. rewrite Hget. exact Hhist.
Defined.

(** X15 (witness): the button reply ["Approve"] from 15551234567 while
    [demo_waiting] awaits a reply. *)
Lemma button_reply_resolves_pending_witness :
  let k := normalizePhoneNumber "+1 (555) 123-4567" in
  pendingResponses demo_waiting !! k = Some {| resolve := O; reject := O; timeout := O |}
  /\ exists w' : World,
       handleIncomingMessage (button_message "15551234567" "Approve") demo_waiting
       = (Ok tt, w')
       /\ promises w' !! O = Some (Fulfilled "Approve")
       /\ pendingResponses w' !! k = None
       /\ timers w' !! O = None.
Proof.
  cbv zeta.
  assert (Hk : normalizePhoneNumber "+1 (555) 123-4567" = normalizePhoneNumber "15551234567")
    by (vm_compute; reflexivity).
  assert (He : pendingResponses demo_waiting !! normalizePhoneNumber "+1 (555) 123-4567"
               = Some {| resolve := O; reject := O; timeout := O |})
    by (vm_compute; reflexivity).
  assert (Hp : promises demo_waiting !! O = Some Pending) by (vm_compute; reflexivity).
  assert (Hcb : onMessageReceivedCallback demo_waiting = true) by (vm_compute; reflexivity).
  assert (Hne : "Approve"%string <> EmptyString) by discriminate.
  split; [exact He|].
  destruct (button_reply_resolves_pending "+1 (555) 123-4567" "15551234567" "Approve"
              [ ("from", JString "15551234567"); ("id", JString "wamid.2");
                ("timestamp", JString "1700000000"); ("type", JString "button");
                ("button", JObject [ ("text", JString "Approve") ]) ]
              demo_waiting Hk eq_refl eq_refl eq_refl Hne eq_refl)
    as (k & w1 & _ & _ & _ & Hfused).
  exact (Hfused {| resolve := O; reject := O; timeout := O |} He Hp Hcb).
Defined.

(** X16 (witness): the signed body ["{}"], an event of no object. *)
Lemma ignored_deliveries_witness :
  let signature := Some (valid_header "secret" "{}") in
  validateMetaWhatsAppSignature "secret" signature "{}" = true
  /\ handleWhatsAppWebhook_POST signature "{}" demo_waiting = (ack_200, demo_waiting).
Proof.
  cbv zeta.
  assert (Hsig : validateMetaWhatsAppSignature
                   (config_whatsappAppSecret (config demo_waiting))
                   (Some (valid_header "secret" "{}")) "{}" = true)
    by (vm_compute; reflexivity).
  split; [exact Hsig|].
  destruct (ignored_deliveries (Some (valid_header "secret" "{}")) "{}" demo_waiting Hsig)
    as (_ & _ & Hother & _).
  apply (Hother []); reflexivity.
Defined.


(** X19 (witness): [GET /health] after the question of [demo_asked]. *)
Lemma health_counts_conversations_witness :
  fst (requestListener "my-verify-token" 12 demo_health_request
         (run (initial_world demo_config) demo_asked))
  = {| http_status := 200;
       http_body := BodyJSON (JObject
         [ ("status", JString "ok"); ("activeConversations", JNum 1);
           ("uptime", JNum 12) ]) |}.
Proof.
  rewrite (health_counts_conversations demo_config demo_asked "my-verify-token" 12
             demo_health_request eq_refl).
  vm_compute. reflexivity.
Defined.

(** X21 (witness): the history after the question of [demo_asked], with
    [limit] 5. *)
Lemma history_tool_spec_witness :
  exists st : ConversationState,
    last (objects (run (initial_world demo_config) demo_asked)) = Some st
    /\ isError (get_conversation_history (JObject [ ("limit", @JNum demo_numbers 5) ])
                  (run (initial_world demo_config) demo_asked)) = false
    /\ length (slice_from (Finite (-5)) (messageHistory st)) = 1%nat.
Proof.
  eexists. split; [vm_compute; reflexivity|].
  destruct (history_tool_spec demo_config demo_asked
              (JObject [ ("limit", @JNum demo_numbers 5) ])) as (_ & _ & _ & _ & Hlast).
  destruct (Hlast (@JNum demo_numbers 5) _ eq_refl ltac:(vm_compute; reflexivity))
    as (_ & Hrun & _).
  split; [rewrite (Hrun eq_refl)|]; vm_compute; reflexivity.
Defined.

(** X22 (witness): the configuration of [demo_process_env]. *)
Lemma setup_info_round_trip_witness :
  exists cfg : LoadedServerConfig,
    loadServerConfig "https://demo.ngrok.app" = Ok cfg
    /\ exists info : list (string * JSValue),
         get_setup_info (Some (publicUrl cfg))
         = {| content_text := JSON_stringify (JObject info); isError := false |}
         /\ lookup_prop "webhook_url" info = JString "https://demo.ngrok.app/webhook"
         /\ lookup_prop "verify_token" info = JString "my-verify-token"
         /\ handleWebhookVerification "my-verify-token" (Some "subscribe")
              (Some "my-verify-token") (Some "1158201444")
            = {| http_status := 200; http_body := BodyText "1158201444" |}.
Proof.
  assert (Hurl : "https://demo.ngrok.app"%string <> EmptyString) by discriminate.
  destruct (loadServerConfig "https://demo.ngrok.app") as [cfg|e] eqn:Hload;
    [|vm_compute in Hload; discriminate Hload].
  exists cfg. split; [reflexivity|].
  destruct (setup_info_round_trip "https://demo.ngrok.app" cfg (Some "1158201444")
              Hload Hurl)
    as (info & token & Hinfo & Hurl' & Htoken & Heq & Hshake).
  assert (Hcfg : provider_whatsappVerifyToken (providerConfig cfg) = "my-verify-token"%string).
  { vm_compute in Hload. injection Hload as <-. reflexivity. }
  rewrite Hcfg in Heq, Hshake. subst token.
  exists info. split; [exact Hinfo|]. split; [exact Hurl'|].
  split; [exact Htoken | exact Hshake].
Defined.

(** X23 (witness): the reply ["yes"] from the number the question of
    [demo_waiting] goes to. *)
Lemma reply_from_recipient_resolves_witness :
  get_prop_opt (sendMessage_request "+1 (555) 123-4567" "Deploy finished. Continue?") "to"
  = JString "15551234567"
  /\ exists (k : MessageInFlight) (w1 w3 : World),
       handleIncomingMessage_begin (text_message "15551234567" "yes") demo_waiting
       = (Ok (Some k), w1)
       /\ handleIncomingMessage_resume k w1 = (Ok tt, w3)
       /\ promises w3 !! O = Some (Fulfilled "yes").
Proof.
  assert (Hto : get_prop_opt (sendMessage_request (config_userPhoneNumber (config demo_waiting))
                                "Deploy finished. Continue?") "to"
                = JString "15551234567") by (vm_compute; reflexivity).
  assert (He : pendingResponses demo_waiting !! user_key demo_waiting
               = Some {| resolve := O; reject := O; timeout := O |})
    by (vm_compute; reflexivity).
  assert (Hp : promises demo_waiting !! O = Some Pending) by (vm_compute; reflexivity).
  assert (Hcb : onMessageReceivedCallback demo_waiting = true) by (vm_compute; reflexivity).
  split; [exact Hto|].
  destruct (reply_from_recipient_resolves "Deploy finished. Continue?" "yes" "15551234567"
              [ ("from", JString "15551234567"); ("id", JString "wamid.1");
                ("timestamp", JString "1700000000"); ("type", JString "text");
                ("text", JObject [ ("body", JString "yes") ]) ]
              demo_waiting Hto eq_refl eq_refl eq_refl)
    as (_ & _ & k & w1 & Hbegin & Hsame & Hresume).
  destruct Hsame as (_ & Hcb1 & Hp1 & Hq1 & _).
  destruct (Hresume w1) as (w3 & Hres & Hfound); [congruence|].
  destruct (Hfound {| resolve := O; reject := O; timeout := O |})
    as (Hful & _);
    [rewrite Hp1; exact He | cbn [resolve]; rewrite Hq1; exact Hp |].
  exists k, w1, w3. auto.
Defined.

(** X25 (witness): a text message from another number while the
    question of [demo_asked] awaits its reply. *)
Lemma stranger_never_resolves_witness :
  normalizePhoneNumber "4915112345678" <> normalizePhoneNumber "+1 (555) 123-4567"
  /\ promises (run (initial_world demo_config) demo_asked) !! O = Some Pending
  /\ exists (k : MessageInFlight) (w1 w3 : World),
       handleIncomingMessage_begin (JObject demo_stranger_message)
         (run (initial_world demo_config) demo_asked) = (Ok (Some k), w1)
       /\ handleIncomingMessage_resume k w1 = (Ok tt, w3)
       /\ promises w3 !! O = Some Pending.
Proof.
  assert (Hne : normalizePhoneNumber "4915112345678"
                <> normalizePhoneNumber (config_userPhoneNumber demo_config))
    by (vm_compute; discriminate).
  assert (Hp : promises (run (initial_world demo_config) demo_asked) !! O = Some Pending)
    by (vm_compute; reflexivity).
  split; [exact Hne|]. split; [exact Hp|].
  destruct (stranger_never_resolves demo_config demo_asked [] demo_stranger_message
              "yes" "4915112345678" eq_refl eq_refl eq_refl Hne)
    as (k & w1 & Hbegin & Hsame & Hrest).
  destruct Hrest as (w3 & Hres & Hsame2).
  exists k, w1, w3. split; [exact Hbegin|]. split; [exact Hres|].
  destruct Hsame as (_ & _ & _ & Hq & _). destruct Hsame2 as (_ & _ & _ & Hq2 & _).
  rewrite Hq2. change (run w1 []) with w1. now rewrite Hq.
Defined.

(** X9 (example): with the URLs of [demo_runtime], the request [GET //]
    is not answered. *)
Lemma unparsable_target_is_uncaught :
  createServer_listener "my-verify-token" 12
    {| im_method := "GET"; im_url := "//"; im_host := Some "localhost:3333";
       im_x_hub_signature_256 := None; im_body := EmptyString |}
    (initial_world demo_config)
  = Uncaught (Raised InvalidURL).
Proof. reflexivity. Qed.

(** X17 (example): in a fresh process a call whose message is the number
    [7] returns an error and records nothing, and leaves the user's
    conversation behind, created with an empty history. *)
Lemma failed_call_leaves_a_conversation :
  let args := JObject [ ("message", @JNum demo_numbers 7) ] in
  let outcome := send_message_begin args (initial_world demo_config) in
  (exists r : ToolResult, fst outcome = Returned r /\ isError r = true)
  /\ map messageHistory (objects (snd outcome)) = [[]]
  /\ currentConversationId (snd outcome) = 1%N
  /\ pendingResponses (snd outcome) = pendingResponses (initial_world demo_config).
Proof.
  cbv zeta. split; [eexists; split; vm_compute; reflexivity|].
  split_and!; vm_compute; reflexivity.
Qed.

End MoreExamples.
